(** * Fuzzy Sync ([include/fuzzy_sync.h]): a shallow embedding and its properties

    The header implements a two-thread race-reproduction helper: a spin-wait
    rendezvous on two atomic counters, an exponential-moving-average
    statistics engine, a randomised delay computation, and a loop controller
    bounded by wall-clock time and iteration count.

    Conventions of the embedding:
    - [int] is a 32-bit and [long] a 64-bit two's-complement integer, held in
      [Z] with the wrap-around written out ([wrap32], [wrap64]);
    - [float] and [double] arithmetic is taken through the interface
      [FloatOps]; every function below is generic in it.  [Binary32] is the
      instance of the code: IEEE 754 binary32 and binary64, rounding to
      nearest.  [ExactFloat] is the idealised instance with exact rational
      arithmetic, which tells what the formulas give without rounding;
    - results of the operating system (clock readings, [pthread_create],
      [pthread_join]) are inputs of the functions that ask for them;
    - [assert] failures abort: functions that assert return [option];
    - [fzsync_printf] output is a list of [msg] events;
    - the rendezvous itself is modelled twice: as a small-step interleaving
      semantics over the atomic operations ([Module Barrier]) and, for the
      sequential functions of thread A, as a completed rendezvous whose effect
      on the shared counters is supplied by the environment. *)

From Stdlib Require Import ZArith QArith Qabs Qround Lia Lqa List Bool.
From Stdlib Require Import SpecFloat.
Import ListNotations.

Set Implicit Arguments.
Unset Lia Cache.

Local Open Scope Z_scope.

(** ** Machine integers *)

Definition INT_MAX : Z := 2147483647.
Definition INT_MIN : Z := -2147483648.

(** [int] arithmetic result brought back into the 32-bit range. *)
Definition wrap32 (z : Z) : Z := (z + 2147483648) mod 4294967296 - 2147483648.

(** [long] arithmetic result brought back into the 64-bit range. *)
Definition wrap64 (z : Z) : Z :=
  (z + 9223372036854775808) mod 18446744073709551616 - 9223372036854775808.

Definition in_int (z : Z) : Prop := INT_MIN <= z <= INT_MAX.

(** ** Floating point interface

    One field per C operation that the header applies to a [float] or a
    [double], including the implicit conversions of the usual arithmetic
    conversions. *)

Class FloatOps : Type := {
  flt : Type;                       (* C float  *)
  dbl : Type;                       (* C double *)
  (* conversions *)
  flt_of_int : Z -> flt;            (* int or long to float *)
  dbl_of_flt : flt -> dbl;
  flt_of_dbl : dbl -> flt;
  long_of_flt : flt -> Z;           (* (long) f : truncation *)
  int_of_dbl : dbl -> Z;            (* (int) d  : truncation *)
  int_of_flt : flt -> Z;            (* (int) f  : truncation *)
  (* float operations *)
  fadd : flt -> flt -> flt;
  fsub : flt -> flt -> flt;
  fmul : flt -> flt -> flt;
  fdiv : flt -> flt -> flt;
  fabsf : flt -> flt;
  fgt : flt -> flt -> bool;
  fge : flt -> flt -> bool;
  fle : flt -> flt -> bool;
  fnonzero : flt -> bool;           (* f used as a condition *)
  (* double operations *)
  dadd : dbl -> dbl -> dbl;
  dsub : dbl -> dbl -> dbl;
  dmul : dbl -> dbl -> dbl;
  ddiv : dbl -> dbl -> dbl;
  fabs : dbl -> dbl;
  (* constants *)
  FLT_MIN : flt;
  FLT_MAX : flt;
  f_half : flt;                     (* 0.5f  (SAMPLING_SLICE) *)
  f_one : flt;                      (* 1.0f *)
  d_one : dbl;                      (* 1.0  *)
  d_quarter : dbl;                  (* 0.25 *)
  d_tenth : dbl;                    (* 0.1  *)
  d_margin : dbl                    (* 1.1  *)
}.

(** ** Data model *)

Record timespec : Type := mk_timespec {
  tv_sec : Z;
  tv_nsec : Z
}.

(** Events printed through [fzsync_printf]. *)
Inductive msg : Type :=
| MsgSamplingEnded      (* "Minimum sampling period ended" *)
| MsgConverged          (* "Reached deviation ratios < ..., introducing randomness" *)
| MsgDelayRange (lo hi : Z) (* "Delay range is [-lo, hi]" *)
| MsgNoDelay            (* "Can't calculate random delay" *)
| MsgStoppedSampling    (* "Stopped sampling at ... samples, ..." *)
| MsgExceededTime       (* "Exceeded execution time, requesting exit" *)
| MsgExceededLoops      (* "Exceeded execution loops, requesting exit" *)
| MsgInfo.              (* output of fzsync_pair_info *)

(** What the operating system answers during one library call. *)
Record os_env : Type := mk_os_env {
  join_result : Z;          (* pthread_join *)
  create_result : Z;        (* pthread_create *)
  create_handle : Z;        (* the pthread_t written by pthread_create *)
  clock_result : Z;         (* clock_gettime *)
  clock_now : timespec      (* the time it stores *)
}.

(** What thread A observes of one completed [fzsync_pair_wait]: the values
    of the two shared counters when the call returns and the number of spins
    it counted.  Which values can occur is the subject of [Module Barrier]. *)
Record rendezvous : Type := mk_rendezvous {
  rv_a_cntr : Z;
  rv_b_cntr : Z;
  rv_spins : Z
}.

Section Model.
Context {FO : FloatOps}.

Record fzsync_stat : Type := mk_stat {
  avg : flt;
  avg_dev : flt;
  dev_ratio : flt
}.

Record fzsync_pair : Type := mk_pair {
  avg_alpha : flt;
  a_start : timespec;
  b_start : timespec;
  a_end : timespec;
  b_end : timespec;
  diff_ss : fzsync_stat;
  diff_sa : fzsync_stat;
  diff_sb : fzsync_stat;
  diff_ab : fzsync_stat;
  spins : Z;
  spins_avg : fzsync_stat;
  delay : Z;
  delay_bias : Z;
  sampling : Z;
  min_samples : Z;
  max_dev_ratio : flt;
  a_cntr : Z;
  b_cntr : Z;
  exit : Z;
  exec_time : flt;
  exec_time_start : timespec;
  exec_loops : Z;
  exec_loop : Z;
  thread_b : Z
}.

(** Field assignments. *)
Definition set_avg_alpha v (p : fzsync_pair) : fzsync_pair :=
  mk_pair v (a_start p) (b_start p) (a_end p) (b_end p) (diff_ss p) (diff_sa
    p) (diff_sb p) (diff_ab p) (spins p) (spins_avg p) (delay p) (delay_bias
    p) (sampling p) (min_samples p) (max_dev_ratio p) (a_cntr p) (b_cntr p)
    (exit p) (exec_time p) (exec_time_start p) (exec_loops p) (exec_loop p)
    (thread_b p).
Definition set_a_start v (p : fzsync_pair) : fzsync_pair :=
  mk_pair (avg_alpha p) v (b_start p) (a_end p) (b_end p) (diff_ss p)
    (diff_sa p) (diff_sb p) (diff_ab p) (spins p) (spins_avg p) (delay p)
    (delay_bias p) (sampling p) (min_samples p) (max_dev_ratio p) (a_cntr p)
    (b_cntr p) (exit p) (exec_time p) (exec_time_start p) (exec_loops p)
    (exec_loop p) (thread_b p).
Definition set_b_start v (p : fzsync_pair) : fzsync_pair :=
  mk_pair (avg_alpha p) (a_start p) v (a_end p) (b_end p) (diff_ss p)
    (diff_sa p) (diff_sb p) (diff_ab p) (spins p) (spins_avg p) (delay p)
    (delay_bias p) (sampling p) (min_samples p) (max_dev_ratio p) (a_cntr p)
    (b_cntr p) (exit p) (exec_time p) (exec_time_start p) (exec_loops p)
    (exec_loop p) (thread_b p).
Definition set_a_end v (p : fzsync_pair) : fzsync_pair :=
  mk_pair (avg_alpha p) (a_start p) (b_start p) v (b_end p) (diff_ss p)
    (diff_sa p) (diff_sb p) (diff_ab p) (spins p) (spins_avg p) (delay p)
    (delay_bias p) (sampling p) (min_samples p) (max_dev_ratio p) (a_cntr p)
    (b_cntr p) (exit p) (exec_time p) (exec_time_start p) (exec_loops p)
    (exec_loop p) (thread_b p).
Definition set_b_end v (p : fzsync_pair) : fzsync_pair :=
  mk_pair (avg_alpha p) (a_start p) (b_start p) (a_end p) v (diff_ss p)
    (diff_sa p) (diff_sb p) (diff_ab p) (spins p) (spins_avg p) (delay p)
    (delay_bias p) (sampling p) (min_samples p) (max_dev_ratio p) (a_cntr p)
    (b_cntr p) (exit p) (exec_time p) (exec_time_start p) (exec_loops p)
    (exec_loop p) (thread_b p).
Definition set_diff_ss v (p : fzsync_pair) : fzsync_pair :=
  mk_pair (avg_alpha p) (a_start p) (b_start p) (a_end p) (b_end p) v
    (diff_sa p) (diff_sb p) (diff_ab p) (spins p) (spins_avg p) (delay p)
    (delay_bias p) (sampling p) (min_samples p) (max_dev_ratio p) (a_cntr p)
    (b_cntr p) (exit p) (exec_time p) (exec_time_start p) (exec_loops p)
    (exec_loop p) (thread_b p).
Definition set_diff_sa v (p : fzsync_pair) : fzsync_pair :=
  mk_pair (avg_alpha p) (a_start p) (b_start p) (a_end p) (b_end p) (diff_ss
    p) v (diff_sb p) (diff_ab p) (spins p) (spins_avg p) (delay p)
    (delay_bias p) (sampling p) (min_samples p) (max_dev_ratio p) (a_cntr p)
    (b_cntr p) (exit p) (exec_time p) (exec_time_start p) (exec_loops p)
    (exec_loop p) (thread_b p).
Definition set_diff_sb v (p : fzsync_pair) : fzsync_pair :=
  mk_pair (avg_alpha p) (a_start p) (b_start p) (a_end p) (b_end p) (diff_ss
    p) (diff_sa p) v (diff_ab p) (spins p) (spins_avg p) (delay p)
    (delay_bias p) (sampling p) (min_samples p) (max_dev_ratio p) (a_cntr p)
    (b_cntr p) (exit p) (exec_time p) (exec_time_start p) (exec_loops p)
    (exec_loop p) (thread_b p).
Definition set_diff_ab v (p : fzsync_pair) : fzsync_pair :=
  mk_pair (avg_alpha p) (a_start p) (b_start p) (a_end p) (b_end p) (diff_ss
    p) (diff_sa p) (diff_sb p) v (spins p) (spins_avg p) (delay p)
    (delay_bias p) (sampling p) (min_samples p) (max_dev_ratio p) (a_cntr p)
    (b_cntr p) (exit p) (exec_time p) (exec_time_start p) (exec_loops p)
    (exec_loop p) (thread_b p).
Definition set_spins v (p : fzsync_pair) : fzsync_pair :=
  mk_pair (avg_alpha p) (a_start p) (b_start p) (a_end p) (b_end p) (diff_ss
    p) (diff_sa p) (diff_sb p) (diff_ab p) v (spins_avg p) (delay p)
    (delay_bias p) (sampling p) (min_samples p) (max_dev_ratio p) (a_cntr p)
    (b_cntr p) (exit p) (exec_time p) (exec_time_start p) (exec_loops p)
    (exec_loop p) (thread_b p).
Definition set_spins_avg v (p : fzsync_pair) : fzsync_pair :=
  mk_pair (avg_alpha p) (a_start p) (b_start p) (a_end p) (b_end p) (diff_ss
    p) (diff_sa p) (diff_sb p) (diff_ab p) (spins p) v (delay p) (delay_bias
    p) (sampling p) (min_samples p) (max_dev_ratio p) (a_cntr p) (b_cntr p)
    (exit p) (exec_time p) (exec_time_start p) (exec_loops p) (exec_loop p)
    (thread_b p).
Definition set_delay v (p : fzsync_pair) : fzsync_pair :=
  mk_pair (avg_alpha p) (a_start p) (b_start p) (a_end p) (b_end p) (diff_ss
    p) (diff_sa p) (diff_sb p) (diff_ab p) (spins p) (spins_avg p) v
    (delay_bias p) (sampling p) (min_samples p) (max_dev_ratio p) (a_cntr p)
    (b_cntr p) (exit p) (exec_time p) (exec_time_start p) (exec_loops p)
    (exec_loop p) (thread_b p).
Definition set_delay_bias v (p : fzsync_pair) : fzsync_pair :=
  mk_pair (avg_alpha p) (a_start p) (b_start p) (a_end p) (b_end p) (diff_ss
    p) (diff_sa p) (diff_sb p) (diff_ab p) (spins p) (spins_avg p) (delay p)
    v (sampling p) (min_samples p) (max_dev_ratio p) (a_cntr p) (b_cntr p)
    (exit p) (exec_time p) (exec_time_start p) (exec_loops p) (exec_loop p)
    (thread_b p).
Definition set_sampling v (p : fzsync_pair) : fzsync_pair :=
  mk_pair (avg_alpha p) (a_start p) (b_start p) (a_end p) (b_end p) (diff_ss
    p) (diff_sa p) (diff_sb p) (diff_ab p) (spins p) (spins_avg p) (delay p)
    (delay_bias p) v (min_samples p) (max_dev_ratio p) (a_cntr p) (b_cntr p)
    (exit p) (exec_time p) (exec_time_start p) (exec_loops p) (exec_loop p)
    (thread_b p).
Definition set_min_samples v (p : fzsync_pair) : fzsync_pair :=
  mk_pair (avg_alpha p) (a_start p) (b_start p) (a_end p) (b_end p) (diff_ss
    p) (diff_sa p) (diff_sb p) (diff_ab p) (spins p) (spins_avg p) (delay p)
    (delay_bias p) (sampling p) v (max_dev_ratio p) (a_cntr p) (b_cntr p)
    (exit p) (exec_time p) (exec_time_start p) (exec_loops p) (exec_loop p)
    (thread_b p).
Definition set_max_dev_ratio v (p : fzsync_pair) : fzsync_pair :=
  mk_pair (avg_alpha p) (a_start p) (b_start p) (a_end p) (b_end p) (diff_ss
    p) (diff_sa p) (diff_sb p) (diff_ab p) (spins p) (spins_avg p) (delay p)
    (delay_bias p) (sampling p) (min_samples p) v (a_cntr p) (b_cntr p) (exit
    p) (exec_time p) (exec_time_start p) (exec_loops p) (exec_loop p)
    (thread_b p).
Definition set_a_cntr v (p : fzsync_pair) : fzsync_pair :=
  mk_pair (avg_alpha p) (a_start p) (b_start p) (a_end p) (b_end p) (diff_ss
    p) (diff_sa p) (diff_sb p) (diff_ab p) (spins p) (spins_avg p) (delay p)
    (delay_bias p) (sampling p) (min_samples p) (max_dev_ratio p) v (b_cntr
    p) (exit p) (exec_time p) (exec_time_start p) (exec_loops p) (exec_loop
    p) (thread_b p).
Definition set_b_cntr v (p : fzsync_pair) : fzsync_pair :=
  mk_pair (avg_alpha p) (a_start p) (b_start p) (a_end p) (b_end p) (diff_ss
    p) (diff_sa p) (diff_sb p) (diff_ab p) (spins p) (spins_avg p) (delay p)
    (delay_bias p) (sampling p) (min_samples p) (max_dev_ratio p) (a_cntr p)
    v (exit p) (exec_time p) (exec_time_start p) (exec_loops p) (exec_loop p)
    (thread_b p).
Definition set_exit v (p : fzsync_pair) : fzsync_pair :=
  mk_pair (avg_alpha p) (a_start p) (b_start p) (a_end p) (b_end p) (diff_ss
    p) (diff_sa p) (diff_sb p) (diff_ab p) (spins p) (spins_avg p) (delay p)
    (delay_bias p) (sampling p) (min_samples p) (max_dev_ratio p) (a_cntr p)
    (b_cntr p) v (exec_time p) (exec_time_start p) (exec_loops p) (exec_loop
    p) (thread_b p).
Definition set_exec_time v (p : fzsync_pair) : fzsync_pair :=
  mk_pair (avg_alpha p) (a_start p) (b_start p) (a_end p) (b_end p) (diff_ss
    p) (diff_sa p) (diff_sb p) (diff_ab p) (spins p) (spins_avg p) (delay p)
    (delay_bias p) (sampling p) (min_samples p) (max_dev_ratio p) (a_cntr p)
    (b_cntr p) (exit p) v (exec_time_start p) (exec_loops p) (exec_loop p)
    (thread_b p).
Definition set_exec_time_start v (p : fzsync_pair) : fzsync_pair :=
  mk_pair (avg_alpha p) (a_start p) (b_start p) (a_end p) (b_end p) (diff_ss
    p) (diff_sa p) (diff_sb p) (diff_ab p) (spins p) (spins_avg p) (delay p)
    (delay_bias p) (sampling p) (min_samples p) (max_dev_ratio p) (a_cntr p)
    (b_cntr p) (exit p) (exec_time p) v (exec_loops p) (exec_loop p)
    (thread_b p).
Definition set_exec_loops v (p : fzsync_pair) : fzsync_pair :=
  mk_pair (avg_alpha p) (a_start p) (b_start p) (a_end p) (b_end p) (diff_ss
    p) (diff_sa p) (diff_sb p) (diff_ab p) (spins p) (spins_avg p) (delay p)
    (delay_bias p) (sampling p) (min_samples p) (max_dev_ratio p) (a_cntr p)
    (b_cntr p) (exit p) (exec_time p) (exec_time_start p) v (exec_loop p)
    (thread_b p).
Definition set_exec_loop v (p : fzsync_pair) : fzsync_pair :=
  mk_pair (avg_alpha p) (a_start p) (b_start p) (a_end p) (b_end p) (diff_ss
    p) (diff_sa p) (diff_sb p) (diff_ab p) (spins p) (spins_avg p) (delay p)
    (delay_bias p) (sampling p) (min_samples p) (max_dev_ratio p) (a_cntr p)
    (b_cntr p) (exit p) (exec_time p) (exec_time_start p) (exec_loops p) v
    (thread_b p).
Definition set_thread_b v (p : fzsync_pair) : fzsync_pair :=
  mk_pair (avg_alpha p) (a_start p) (b_start p) (a_end p) (b_end p) (diff_ss
    p) (diff_sa p) (diff_sb p) (diff_ab p) (spins p) (spins_avg p) (delay p)
    (delay_bias p) (sampling p) (min_samples p) (max_dev_ratio p) (a_cntr p)
    (b_cntr p) (exit p) (exec_time p) (exec_time_start p) (exec_loops p)
    (exec_loop p) v.


(** ** Assertions *)

Definition assert (b : bool) : option unit := if b then Some tt else None.

Notation "'do' x <- e ; k" :=
  (match e with Some x => k | None => None end)
  (at level 10, x pattern, e at level 100, k at level 200).

(** [MAX(a, b)]: [_a > _b ? _a : _b] at type [float]. *)
Definition MAX (a b : flt) : flt := if fgt a b then a else b.

(** ** [fzsync_pair_init]

    [CHK(param, low, hi, def)] assigns [param ? param : def] and asserts
    [param >= low] and [param <= hi].  For the two parameters whose default
    is a [double] literal the conditional expression has type [double]. *)

Definition chk_flt_d (v : flt) (def : dbl) : flt :=
  flt_of_dbl (if fnonzero v then dbl_of_flt v else def).

Definition chk_flt_i (v : flt) (def : Z) : flt :=
  if fnonzero v then v else flt_of_int def.

Definition chk_int (v def : Z) : Z := if v =? 0 then def else v.

Definition fzsync_pair_init (p : fzsync_pair) : option fzsync_pair :=
  (* CHK(avg_alpha, FLT_MIN, 1, 0.25) *)
  let p := set_avg_alpha (chk_flt_d (avg_alpha p) d_quarter) p in
  do _ <- assert (fge (avg_alpha p) FLT_MIN);
  do _ <- assert (fle (avg_alpha p) (flt_of_int 1));
  (* CHK(min_samples, 20, INT_MAX, 1024) *)
  let p := set_min_samples (chk_int (min_samples p) 1024) p in
  do _ <- assert (min_samples p >=? 20);
  do _ <- assert (min_samples p <=? INT_MAX);
  (* CHK(max_dev_ratio, FLT_MIN, 1, 0.1) *)
  let p := set_max_dev_ratio (chk_flt_d (max_dev_ratio p) d_tenth) p in
  do _ <- assert (fge (max_dev_ratio p) FLT_MIN);
  do _ <- assert (fle (max_dev_ratio p) (flt_of_int 1));
  (* CHK(exec_time, 1, FLT_MAX, 150) *)
  let p := set_exec_time (chk_flt_i (exec_time p) 150) p in
  do _ <- assert (fge (exec_time p) (flt_of_int 1));
  do _ <- assert (fle (exec_time p) FLT_MAX);
  (* CHK(exec_loops, 20, INT_MAX, 3000000) *)
  let p := set_exec_loops (chk_int (exec_loops p) 3000000) p in
  do _ <- assert (exec_loops p >=? 20);
  do _ <- assert (exec_loops p <=? INT_MAX);
  Some p.

(** ** [fzsync_pair_cleanup]

    [join_rv] is what [pthread_join] returns if it is called.  [usleep] and
    [pthread_cancel] leave the pair alone. *)

Definition fzsync_pair_cleanup (p : fzsync_pair) (join_rv : Z)
  : fzsync_pair * Z :=
  if negb (thread_b p =? 0) then
    let p := if exit p =? 0 then set_exit 1 p else p in
    (set_thread_b 0 p, join_rv)
  else (p, 0).

(** ** Statistics *)

Definition fzsync_init_stat (s : fzsync_stat) : fzsync_stat :=
  mk_stat (flt_of_int 0) (flt_of_int 0) (dev_ratio s).

Definition fzsync_diff_ns (t1 t2 : timespec) : Z :=
  let res := wrap64 (wrap64 (tv_sec t1 - tv_sec t2) * 1000000000) in
  wrap64 (res + wrap64 (tv_nsec t1 - tv_nsec t2)).

(** [alpha * sample] is a [float] product; [1.0 - alpha] and what follows
    are computed in [double]; the result is returned as a [float]. *)
Definition fzsync_exp_moving_avg (alpha sample prev_avg : flt) : flt :=
  flt_of_dbl (dadd (dbl_of_flt (fmul alpha sample))
                   (dmul (dsub d_one (dbl_of_flt alpha)) (dbl_of_flt prev_avg))).

Definition fzsync_upd_stat (s : fzsync_stat) (alpha sample : flt)
  : fzsync_stat :=
  let avg' := fzsync_exp_moving_avg alpha sample (avg s) in
  let avg_dev' :=
    fzsync_exp_moving_avg alpha
      (flt_of_dbl (fabs (dbl_of_flt (fsub avg' sample)))) (avg_dev s) in
  let dev_ratio' :=
    flt_of_dbl (fabs (dbl_of_flt
      (if fnonzero avg' then fdiv avg_dev' avg' else flt_of_int 0))) in
  mk_stat avg' avg_dev' dev_ratio'.

Definition fzsync_upd_diff_stat (s : fzsync_stat) (alpha : flt)
  (t1 t2 : timespec) : fzsync_stat :=
  fzsync_upd_stat s alpha (flt_of_int (fzsync_diff_ns t1 t2)).

(** ** [fzsync_timeout_remaining]

    [now] is the clock reading taken inside the function. *)

Definition fzsync_timeout_remaining (p : fzsync_pair) (now : timespec)
  : option Z :=
  let res := long_of_flt (exec_time p) in
  do _ <- assert (tv_sec now >=? tv_sec (exec_time_start p));
  let res := wrap64 (res - wrap64 (tv_sec now - tv_sec (exec_time_start p))) in
  if res >? 0 then Some res
  else if res <? 0 then Some 0
  else
    let res := wrap64 (tv_nsec now - tv_nsec (exec_time_start p)) in
    if res >? 0 then Some 1 else Some 0.

(** ** [fzsync_pair_reset]

    [run_b] tells whether a thread function was passed (non-NULL). *)

Definition fzsync_pair_reset (p : fzsync_pair) (run_b : bool) (os : os_env)
  : fzsync_pair * Z :=
  let p := fst (fzsync_pair_cleanup p (join_result os)) in
  let p := set_diff_ss (fzsync_init_stat (diff_ss p)) p in
  let p := set_diff_sa (fzsync_init_stat (diff_sa p)) p in
  let p := set_diff_sb (fzsync_init_stat (diff_sb p)) p in
  let p := set_diff_ab (fzsync_init_stat (diff_ab p)) p in
  let p := set_spins_avg (fzsync_init_stat (spins_avg p)) p in
  let p := set_delay 0 p in
  let p := set_sampling (min_samples p) p in
  let p := set_exec_loop 0 p in
  let p := set_a_cntr 0 p in
  let p := set_b_cntr 0 p in
  let p := set_exit 0 p in
  let p := if run_b then set_thread_b (create_handle os) p else p in
  if run_b && negb (create_result os =? 0) then (p, create_result os)
  else (set_exec_time_start (clock_now os) p, clock_result os).

(** ** [fzsync_pair_update]

    [draw] is the value returned by [drand48()].  The two locals of the
    delay computation are named as in the source. *)

Definition over_max_dev (p : fzsync_pair) : bool :=
  let max_dev := max_dev_ratio p in
  fgt (dev_ratio (diff_ss p)) max_dev
  || fgt (dev_ratio (diff_sa p)) max_dev
  || fgt (dev_ratio (diff_sb p)) max_dev
  || fgt (dev_ratio (diff_ab p)) max_dev
  || fgt (dev_ratio (spins_avg p)) max_dev.

Definition per_spin_time (p : fzsync_pair) : flt :=
  fdiv (fabsf (avg (diff_ab p))) (MAX (avg (spins_avg p)) f_one).

Definition time_delay (p : fzsync_pair) (draw : dbl) : flt :=
  flt_of_dbl
    (dsub (dmul draw (dbl_of_flt (fadd (avg (diff_sa p)) (avg (diff_sb p)))))
          (dbl_of_flt (avg (diff_sb p)))).

(** [(int)(1.1 * time_delay / per_spin_time)] *)
Definition spin_delay (p : fzsync_pair) (draw : dbl) : Z :=
  int_of_dbl (ddiv (dmul d_margin (dbl_of_flt (time_delay p draw)))
                   (dbl_of_flt (per_spin_time p))).

Definition delay_range_msg (p : fzsync_pair) : msg :=
  MsgDelayRange
    (wrap32 (int_of_flt (fdiv (avg (diff_sb p)) (per_spin_time p))
             + delay_bias p))
    (wrap32 (int_of_flt (fdiv (avg (diff_sa p)) (per_spin_time p))
             - delay_bias p)).

Definition fzsync_pair_update (p : fzsync_pair) (draw : dbl)
  : fzsync_pair * list msg :=
  let alpha := avg_alpha p in
  let p := set_delay (delay_bias p) p in
  let '(p, log) :=
    if (sampling p >? 0) || over_max_dev p then
      let p := set_diff_ss (fzsync_upd_diff_stat (diff_ss p) alpha
                                 (a_start p) (b_start p)) p in
      let p := set_diff_sa (fzsync_upd_diff_stat (diff_sa p) alpha
                                 (a_end p) (a_start p)) p in
      let p := set_diff_sb (fzsync_upd_diff_stat (diff_sb p) alpha
                                 (b_end p) (b_start p)) p in
      let p := set_diff_ab (fzsync_upd_diff_stat (diff_ab p) alpha
                                 (a_end p) (b_end p)) p in
      let p := set_spins_avg (fzsync_upd_stat (spins_avg p) alpha
                                   (flt_of_int (spins p))) p in
      if sampling p >? 0 then
        let p := set_sampling (wrap32 (sampling p - 1)) p in
        if sampling p =? 0 then (p, [MsgSamplingEnded; MsgInfo])
        else (p, [])
      else (p, [])
    else if fge (fabsf (avg (diff_ab p))) (flt_of_int 1) then
      let p' := set_delay (wrap32 (delay p + spin_delay p draw)) p in
      if sampling p' =? 0 then
        (set_sampling (-1) p',
         [MsgConverged; delay_range_msg p'; MsgInfo])
      else (p', [])
    else if sampling p =? 0 then
      (set_sampling (-1) p, [MsgNoDelay; MsgInfo])
    else (p, [])
  in
  (set_spins 0 p, log).

(** ** [fzsync_pair_add_bias] *)

Definition fzsync_pair_add_bias (p : fzsync_pair) (change : Z)
  : fzsync_pair :=
  if sampling p >? 0
  then set_delay_bias (wrap32 (delay_bias p + change)) p
  else p.

(** ** The rendezvous as seen by one thread

    [fzsync_pair_wait(our, other, spins)] returns once the other thread has
    arrived; [rv] gives the counters at that moment and the spins counted.
    [count] tells whether a spin counter was passed (non-NULL). *)

Definition pair_wait_done (p : fzsync_pair) (count : bool) (rv : rendezvous)
  : fzsync_pair :=
  let p := set_a_cntr (rv_a_cntr rv) p in
  let p := set_b_cntr (rv_b_cntr rv) p in
  if count then set_spins (wrap32 (spins p + rv_spins rv)) p else p.

Definition fzsync_wait_a (p : fzsync_pair) (rv : rendezvous) : fzsync_pair :=
  pair_wait_done p false rv.

Definition fzsync_wait_b (p : fzsync_pair) (rv : rendezvous) : fzsync_pair :=
  pair_wait_done p false rv.

(** ** The loop controller *)

Definition fzsync_run_a (p : fzsync_pair) (os : os_env) (rv : rendezvous)
  : option (fzsync_pair * Z * list msg) :=
  do rem_l <- fzsync_timeout_remaining p (clock_now os);
  let rem := flt_of_int rem_l in
  let '(p, log1) :=
    if fgt (fmul (exec_time p) f_half) rem && (sampling p >? 0)
    then (set_sampling 0 p, [MsgStoppedSampling; MsgInfo])
    else (p, []) in
  let '(exit1, log2) :=
    if negb (fnonzero rem) then (1, [MsgExceededTime]) else (0, []) in
  let p := set_exec_loop (wrap32 (exec_loop p + 1)) p in
  let '(exit2, log3) :=
    if exec_loop p >? exec_loops p
    then (1, [MsgExceededLoops]) else (exit1, []) in
  let p := set_exit exit2 p in
  let p := fzsync_wait_a p rv in
  if negb (exit2 =? 0) then
    Some (fst (fzsync_pair_cleanup p (join_result os)), 0,
          log1 ++ log2 ++ log3)
  else Some (p, 1, log1 ++ log2 ++ log3).

Definition fzsync_run_b (p : fzsync_pair) (rv : rendezvous)
  : fzsync_pair * Z :=
  let p := fzsync_wait_b p rv in
  (p, if exit p =? 0 then 1 else 0).

(** The busy loops on the local [delay] change no field of the pair. *)
Definition fzsync_start_race_a (p : fzsync_pair) (draw : dbl)
  (rv : rendezvous) (now : timespec) : fzsync_pair * list msg :=
  let '(p, log) := fzsync_pair_update p draw in
  let p := fzsync_wait_a p rv in
  (set_a_start now p, log).

Definition fzsync_end_race_a (p : fzsync_pair) (now : timespec)
  (rv : rendezvous) : fzsync_pair :=
  pair_wait_done (set_a_end now p) true rv.

Definition fzsync_start_race_b (p : fzsync_pair) (rv : rendezvous)
  (now : timespec) : fzsync_pair :=
  set_b_start now (fzsync_wait_b p rv).

Definition fzsync_end_race_b (p : fzsync_pair) (now : timespec)
  (rv : rendezvous) : fzsync_pair :=
  pair_wait_done (set_b_end now p) true rv.


(** ** Runs

    A run is what happens between two calls of [fzsync_pair_reset]: any
    sequence of the remaining library calls, made by either thread, in the
    order in which they take effect on the pair. *)

Inductive body_op : Type :=
| OpUpdate (draw : dbl)
| OpStartRaceA (draw : dbl) (rv : rendezvous) (now : timespec)
| OpEndRaceA (now : timespec) (rv : rendezvous)
| OpStartRaceB (rv : rendezvous) (now : timespec)
| OpEndRaceB (now : timespec) (rv : rendezvous)
| OpWaitA (rv : rendezvous)
| OpWaitB (rv : rendezvous)
| OpRunB (rv : rendezvous)
| OpAddBias (change : Z)
| OpCleanup (join_rv : Z).

Inductive op : Type :=
| OpBody (o : body_op)
| OpRunA (os : os_env) (rv : rendezvous).

Definition exec_body_op (o : body_op) (p : fzsync_pair)
  : fzsync_pair * list msg :=
  match o with
  | OpUpdate draw => fzsync_pair_update p draw
  | OpStartRaceA draw rv now => fzsync_start_race_a p draw rv now
  | OpEndRaceA now rv => (fzsync_end_race_a p now rv, [])
  | OpStartRaceB rv now => (fzsync_start_race_b p rv now, [])
  | OpEndRaceB now rv => (fzsync_end_race_b p now rv, [])
  | OpWaitA rv => (fzsync_wait_a p rv, [])
  | OpWaitB rv => (fzsync_wait_b p rv, [])
  | OpRunB rv => (fst (fzsync_run_b p rv), [])
  | OpAddBias change => (fzsync_pair_add_bias p change, [])
  | OpCleanup join_rv => (fst (fzsync_pair_cleanup p join_rv), [])
  end.

Fixpoint exec_body (os : list body_op) (p : fzsync_pair) : fzsync_pair :=
  match os with
  | [] => p
  | o :: os' => exec_body os' (fst (exec_body_op o p))
  end.

Definition exec_op (o : op) (p : fzsync_pair)
  : option (fzsync_pair * list msg) :=
  match o with
  | OpBody o => Some (exec_body_op o p)
  | OpRunA os rv =>
      do (p', _, log) <- fzsync_run_a p os rv; Some (p', log)
  end.

(** The pair and the whole output after a run; [None] if an assertion
    failed on the way. *)
Fixpoint exec_ops (os : list op) (p : fzsync_pair)
  : option (fzsync_pair * list msg) :=
  match os with
  | [] => Some (p, [])
  | o :: os' =>
      do (p1, log1) <- exec_op o p;
      do (p2, log2) <- exec_ops os' p1;
      Some (p2, log1 ++ log2)
  end.

(** Thread A's loop [while (fzsync_run_a(&pair)) { body }]: the return
    values of its first [k] calls of [fzsync_run_a], stopping at the first
    zero.  Call number [i] (from 0) is answered by [inp i]. *)

Record iter_input : Type := mk_iter_input {
  it_os : os_env;
  it_rv : rendezvous;
  it_body : list body_op
}.

Fixpoint calls_a (k i : nat) (inp : nat -> iter_input) (p : fzsync_pair)
  : option (fzsync_pair * list Z) :=
  match k with
  | O => Some (p, [])
  | S k' =>
      do (p1, r, _) <- fzsync_run_a p (it_os (inp i)) (it_rv (inp i));
      if r =? 0 then Some (p1, [r])
      else
        do (p2, rs) <- calls_a k' (S i) inp (exec_body (it_body (inp i)) p1);
        Some (p2, r :: rs)
  end.

(** The five statistics of a pair. *)
Definition stats (p : fzsync_pair) :=
  (diff_ss p, diff_sa p, diff_sb p, diff_ab p, spins_avg p).

(** The Sampling phase as the [sampling] field encodes it.  The field
    counts the mandatory samples down to zero and stays at zero while
    [fzsync_pair_update] still finds a ratio over the maximum; the call
    that finds it at zero with every ratio within the maximum sets it to
    -1, which stands for Converged as well as for DelayUnavailable. *)
Definition is_sampling (p : fzsync_pair) : Prop := 0 <= sampling p.

(** Neither mandatory samples left nor a ratio over the maximum: the
    condition under which [fzsync_pair_update] leaves its sampling branch
    for the first time. *)
Definition sampling_done (p : fzsync_pair) : Prop :=
  sampling p = 0 /\ over_max_dev p = false.

Definition is_transition (m : msg) : bool :=
  match m with MsgConverged | MsgNoDelay => true | _ => false end.

Definition not_add_bias (o : op) : bool :=
  match o with OpBody (OpAddBias _) => false | _ => true end.

(** The messages of a log that announce the end of sampling by
    convergence or by the lack of a usable delay. *)
Definition transitions (l : list msg) : list msg := filter is_transition l.

(** The frozen state: sampling has ended for good and the statistics are
    within the maximum. *)
Definition frozen (p : fzsync_pair) : Prop :=
  sampling p = -1 /\ over_max_dev p = false.

(** The pair after every [CHK] has filled in its default. *)
Definition with_defaults (p : fzsync_pair) : fzsync_pair :=
  set_exec_loops (chk_int (exec_loops p) 3000000)
    (set_exec_time (chk_flt_i (exec_time p) 150)
      (set_max_dev_ratio (chk_flt_d (max_dev_ratio p) d_tenth)
        (set_min_samples (chk_int (min_samples p) 1024)
          (set_avg_alpha (chk_flt_d (avg_alpha p) d_quarter) p)))).

(** The statistic after [n] updates with the same sample. *)
Definition feed (alpha sample : flt) (n : nat) (s : fzsync_stat)
  : fzsync_stat :=
  Nat.iter n (fun t => fzsync_upd_stat t alpha sample) s.

(** At the clock reading [now] the time budget is not used up: the
    remaining time that [fzsync_run_a] computes is not zero. *)
Definition budget_left (p : fzsync_pair) (now : timespec) : Prop :=
  exists r : Z,
    fzsync_timeout_remaining p now = Some r /\
    fnonzero (flt_of_int r) = true.

(** The fields that bound the loop. *)
Definition loop_frame (p q : fzsync_pair) : Prop :=
  exec_loops q = exec_loops p /\ exec_time q = exec_time p /\
  exec_time_start q = exec_time_start p.

(** The calls of [fzsync_pair_update] in the body of an iteration, made
    directly or through [fzsync_start_race_a]. *)
Definition is_update (o : body_op) : bool :=
  match o with OpUpdate _ | OpStartRaceA _ _ _ => true | _ => false end.

Definition count_updates (os : list body_op) : Z :=
  Z.of_nat (length (filter is_update os)).


(** The configuration of a pair: the five parameters of
    [fzsync_pair_init] and the start of the time budget. *)
Definition config (p : fzsync_pair) :=
  (avg_alpha p, min_samples p, max_dev_ratio p, exec_time p, exec_loops p,
   exec_time_start p).


End Model.

(** ** Exact arithmetic

    The idealised instance in which [float] and [double] are the
    rationals: every operation is exact and the conversions between the
    two types change nothing.  Casts to an integer type truncate toward
    zero.  It is not the arithmetic of the code, which rounds; what is
    proved in it tells what the formulas of the header give without
    rounding, and holds of the code where no operation involved rounds
    (comparisons, integers a [float] holds exactly, defaults). *)

Definition Qtrunc (q : Q) : Z := Z.quot (Qnum q) (Z.pos (Qden q)).

Definition Qgt_bool (a b : Q) : bool := negb (Qle_bool a b).

#[export] Instance ExactFloat : FloatOps := {|
  flt := Q;
  dbl := Q;
  flt_of_int := inject_Z;
  dbl_of_flt := fun q => q;
  flt_of_dbl := fun q => q;
  long_of_flt := fun q => wrap64 (Qtrunc q);
  int_of_dbl := fun q => wrap32 (Qtrunc q);
  int_of_flt := fun q => wrap32 (Qtrunc q);
  fadd := Qplus;
  fsub := Qminus;
  fmul := Qmult;
  fdiv := Qdiv;
  fabsf := Qabs;
  fgt := Qgt_bool;
  fge := fun a b => Qle_bool b a;
  fle := Qle_bool;
  fnonzero := fun q => negb (Qeq_bool q 0);
  dadd := Qplus;
  dsub := Qminus;
  dmul := Qmult;
  ddiv := Qdiv;
  fabs := Qabs;
  FLT_MIN := (1 # 85070591730234615865843651857942052864)%Q;
  FLT_MAX := (340282346638528859811704183484516925440 # 1)%Q;
  f_half := (1 # 2)%Q;
  f_one := 1%Q;
  d_one := 1%Q;
  d_quarter := (1 # 4)%Q;
  d_tenth := (1 # 10)%Q;
  d_margin := (11 # 10)%Q
|}.

(** ** IEEE 754 arithmetic

    The arithmetic of the code: [float] is binary32 (24 bits of precision),
    [double] is binary64 (53 bits), every operation rounds to nearest, ties
    to even, as the Standard Library specifies them ([SpecFloat]), and an
    expression is evaluated in the type of its operands
    ([FLT_EVAL_METHOD] 0).  A value is kept in its canonical form, so that
    equal values are equal terms. *)

(** The [float] and the [double] nearest to [m * 2^e]. *)
Definition b32 (m e : Z) : spec_float := binary_normalize 24 128 m e false.
Definition b64 (m e : Z) : spec_float := binary_normalize 53 1024 m e false.

(** [(float) d] and [(double) f]. *)
Definition to_b32 (x : spec_float) : spec_float :=
  match x with
  | S754_finite s m e => binary_normalize 24 128 (cond_Zopp s (Z.pos m)) e s
  | _ => x
  end.

Definition to_b64 (x : spec_float) : spec_float :=
  match x with
  | S754_finite s m e => binary_normalize 53 1024 (cond_Zopp s (Z.pos m)) e s
  | _ => x
  end.

(** The integer part of a finite value (toward zero). *)
Definition SFtrunc (x : spec_float) : option Z :=
  match x with
  | S754_zero _ => Some 0
  | S754_finite s m e =>
      Some (cond_Zopp s (if e <? 0 then Z.shiftr (Z.pos m) (- e)
                         else Z.shiftl (Z.pos m) e))
  | _ => None
  end.

(** A cast to an integer type of [bits] bits.  For a value outside the
    range of the type, an infinity or a NaN the C standard leaves the
    result undefined; the value given here is the one the conversion
    instructions of x86-64 deliver. *)
Definition cast_int (bits : Z) (x : spec_float) : Z :=
  match SFtrunc x with
  | Some z => if (- 2 ^ (bits - 1) <=? z) && (z <? 2 ^ (bits - 1)) then z
              else - 2 ^ (bits - 1)
  | None => - 2 ^ (bits - 1)
  end.

(** [if (x)], [!x] and [x ? x : d] on a [float] test [x != 0], which is
    true of a NaN.  The constants are [FLT_MIN] = 2^-126, [FLT_MAX] =
    (2^24 - 1) 2^104, [0.5f], [1.0f], and the [double] literals [1.0],
    [0.25], [0.1] and [1.1]. *)
Definition Binary32 : FloatOps := {|
  flt := spec_float;
  dbl := spec_float;
  flt_of_int := fun z => b32 z 0;
  dbl_of_flt := to_b64;
  flt_of_dbl := to_b32;
  long_of_flt := cast_int 64;
  int_of_dbl := cast_int 32;
  int_of_flt := cast_int 32;
  fadd := SFadd 24 128;
  fsub := SFsub 24 128;
  fmul := SFmul 24 128;
  fdiv := SFdiv 24 128;
  fabsf := SFabs;
  fgt := fun a b => SFltb b a;
  fge := fun a b => SFleb b a;
  fle := SFleb;
  fnonzero := fun x => negb (SFeqb x (S754_zero false));
  dadd := SFadd 53 1024;
  dsub := SFsub 53 1024;
  dmul := SFmul 53 1024;
  ddiv := SFdiv 53 1024;
  fabs := SFabs;
  FLT_MIN := b32 1 (-126);
  FLT_MAX := b32 16777215 104;
  f_half := b32 1 (-1);
  f_one := b32 1 0;
  d_one := b64 1 0;
  d_quarter := b64 1 (-2);
  d_tenth := b64 7205759403792794 (-56);
  d_margin := b64 4953959590107546 (-52)
|}.

(** ** The rendezvous as an interleaving of atomic operations

    [fzsync_pair_wait(our_cntr, other_cntr, spins)] run by two threads:
    thread A calls it with [(&a_cntr, &b_cntr)], thread B with
    [(&b_cntr, &a_cntr)].  Every sequentially consistent atomic operation is
    one step; a step of one thread is followed by a step of either thread.
    A thread outside the call is at [Idle] and its next step enters the call
    (the calls are issued unconditionally). *)

Module Barrier.

Inductive tid : Type := TA | TB.

Definition peer (t : tid) : tid := match t with TA => TB | TB => TA end.

(** Program points of [fzsync_pair_wait].  The condition of the first
    wrap-around loop loads [our_cntr] twice, the condition of the ordinary
    loop loads [our_cntr] and then [other_cntr]. *)
Inductive pc : Type :=
| Idle                 (* outside the call; next: fzsync_atomic_inc(other_cntr) *)
| WrapTest1            (* while (load(our_cntr) > 0 ...            *)
| WrapTest2            (*        ... && load(our_cntr) < INT_MAX)  *)
| WrapStore            (* fzsync_atomic_store(0, other_cntr)       *)
| WrapWait             (* while (load(our_cntr) > 1)               *)
| LoadOur              (* while (load(our_cntr) ...                *)
| LoadOther (our : Z). (*        ... < load(other_cntr))           *)

(** One atomic step at program point [p], with the current values of the
    two counters: the new value of [*other_cntr], whether the body of a
    counting loop ran (spin counter incremented, [fzsync_yield()]), and the next point. *)
Definition wait_step (our other : Z) (p : pc) : Z * bool * pc :=
  match p with
  | Idle =>
      let v := wrap32 (other + 1) in
      (v, false, if v =? INT_MAX then WrapTest1 else LoadOur)
  | WrapTest1 =>
      (other, false, if our >? 0 then WrapTest2 else WrapStore)
  | WrapTest2 =>
      if our <? INT_MAX then (other, true, WrapTest1)
      else (other, false, WrapStore)
  | WrapStore => (0, false, WrapWait)
  | WrapWait =>
      (other, false, if our >? 1 then WrapWait else Idle)
  | LoadOur => (other, false, LoadOther our)
  | LoadOther v =>
      if v <? other then (other, true, LoadOur) else (other, false, Idle)
  end.

(** A thread: where it is, whether its current call was given a spin
    counter, and how many calls it has started so far (the last one is a
    ghost field: the code has no such variable). *)
Record thread : Type := mk_thread {
  t_pc : pc;
  t_count : bool;
  t_calls : Z
}.

Record state : Type := mk_state {
  a_cntr : Z;
  b_cntr : Z;
  spins : Z;
  thr_a : thread;
  thr_b : thread
}.

Definition entering (th : thread) : bool :=
  match t_pc th with Idle => true | _ => false end.

Definition thread_step (count : bool) (our other : Z) (th : thread)
  : Z * bool * thread :=
  let '(other', spun, pc') := wait_step our other (t_pc th) in
  let cnt := if entering th then count else t_count th in
  (other', spun && cnt,
   mk_thread pc' cnt (if entering th then t_calls th + 1 else t_calls th)).

Definition count_spin (spun : bool) (n : Z) : Z :=
  if spun then wrap32 (n + 1) else n.

(** One step of thread [t]; [count] is used only when the step enters a
    call and tells whether that call passes a spin counter. *)
Definition step (t : tid) (count : bool) (s : state) : state :=
  match t with
  | TA =>
      let '(o, spun, th) :=
        thread_step count (a_cntr s) (b_cntr s) (thr_a s) in
      mk_state (a_cntr s) o (count_spin spun (spins s)) th (thr_b s)
  | TB =>
      let '(o, spun, th) :=
        thread_step count (b_cntr s) (a_cntr s) (thr_b s) in
      mk_state o (b_cntr s) (count_spin spun (spins s)) (thr_a s) th
  end.

Fixpoint run (sched : list (tid * bool)) (s : state) : state :=
  match sched with
  | [] => s
  | (t, c) :: sched' => run sched' (step t c s)
  end.

(** After [fzsync_pair_reset]: both counters zero, nobody in a call. *)
Definition init : state :=
  mk_state 0 0 0 (mk_thread Idle false 0) (mk_thread Idle false 0).

Inductive reachable : state -> Prop :=
| reach_init : reachable init
| reach_step s t c : reachable s -> reachable (step t c s).

(** The thread's view of the state. *)
Definition thr (t : tid) (s : state) : thread :=
  match t with TA => thr_a s | TB => thr_b s end.

Definition our (t : tid) (s : state) : Z :=
  match t with TA => a_cntr s | TB => b_cntr s end.

Definition other (t : tid) (s : state) : Z :=
  match t with TA => b_cntr s | TB => a_cntr s end.

Definition calls (t : tid) (s : state) : Z := t_calls (thr t s).

Definition at_pc (t : tid) (s : state) : pc := t_pc (thr t s).

Definition in_call (t : tid) (s : state) : bool := negb (entering (thr t s)).

(** Calls from which the thread has returned. *)
Definition returns (t : tid) (s : state) : Z :=
  if in_call t s then calls t s - 1 else calls t s.

(** The thread is in one of the three wait loops and the condition of
    that loop holds for the present values of the counters: run alone, it
    spins. *)
Definition waiting (t : tid) (s : state) : bool :=
  match at_pc t s with
  | LoadOur | LoadOther _ => our t s <? other t s
  | WrapTest1 | WrapTest2 => (our t s >? 0) && (our t s <? INT_MAX)
  | WrapWait => our t s >? 1
  | Idle | WrapStore => false
  end.

(** The thread has entered a rendezvous that its peer has not entered. *)
Definition ahead (t : tid) (s : state) : Prop :=
  calls t s = calls (peer t) s + 1.

(** Both threads are in the same rendezvous and exactly one of them has
    stored zero into its peer's counter. *)
Definition reset_window (s : state) : Prop :=
  calls TA s = calls TB s /\
  ((a_cntr s = INT_MAX /\ b_cntr s = 0) \/ (a_cntr s = 0 /\ b_cntr s = INT_MAX)).

(** The rendezvous number within the present cycle of the counters: call
    number [n] finds the counter at [pos n] after its increment. *)
Definition pos (n : Z) : Z :=
  if n <=? 0 then 0 else (n - 1) mod INT_MAX + 1.

(** The invariant of the transition system.  [out] is the counter the
    thread writes ([*other_cntr]). *)
Definition linv (th : thread) (out : Z) : Prop :=
  0 <= t_calls th /\
  match t_pc th with
  | Idle =>
      out = (if pos (t_calls th) =? INT_MAX then 0 else pos (t_calls th))
  | LoadOur | LoadOther _ =>
      1 <= pos (t_calls th) < INT_MAX /\ out = pos (t_calls th)
  | WrapTest1 | WrapTest2 | WrapStore =>
      pos (t_calls th) = INT_MAX /\ out = INT_MAX
  | WrapWait => pos (t_calls th) = INT_MAX /\ out = 0
  end.

Definition cinv (x : thread) (outx : Z) (y : thread) (outy : Z) : Prop :=
  t_calls x <= t_calls y + 1 /\
  (t_calls x = t_calls y + 1 ->
     outy = pos (t_calls x) - 1 /\
     match t_pc x with
     | Idle | WrapStore | WrapWait => False
     | LoadOther v => v < pos (t_calls x)
     | _ => True
     end) /\
  (t_calls x = t_calls y -> t_pc x = Idle -> outy = outx).

Definition inv (s : state) : Prop :=
  linv (thr_a s) (b_cntr s) /\ linv (thr_b s) (a_cntr s) /\
  cinv (thr_a s) (b_cntr s) (thr_b s) (a_cntr s) /\
  cinv (thr_b s) (a_cntr s) (thr_a s) (b_cntr s).

(** Both threads outside the call after [k] rendezvous of the present
    cycle, [n] calls in all. *)
Definition synced (k n : Z) : state :=
  mk_state k k 0 (mk_thread Idle false n) (mk_thread Idle false n).

(** The schedule of one uncontended rendezvous. *)
Definition one_round : list (tid * bool) :=
  [(TA, false); (TB, false); (TA, false); (TA, false); (TB, false); (TB, false)].

(** [s'] is reached from [s] by steps that leave thread [t]'s call
    count, its own counter and its peer alone. *)
Definition solo (t : tid) (s s' : state) : Prop :=
  (exists sched, s' = run sched s) /\
  calls t s' = calls t s /\ our t s' = our t s /\
  thr (peer t) s' = thr (peer t) s.

(** Thread [t] can be brought to return from the call it is in. *)
Definition can_return (t : tid) (s : state) : Prop :=
  exists sched,
    at_pc t (run sched s) = Idle /\ calls t (run sched s) = calls t s.

(** The schedule that takes the threads from the last rendezvous before
    the maximum into the wrap-around path, up to thread A's store. *)
Definition window_sched : list (tid * bool) :=
  [(TA, false); (TB, false); (TA, false); (TA, false); (TA, false)].

(** The state it leads to: thread A has reset [b_cntr] and spins on
    [a_cntr], which thread B has not reset yet. *)
Definition window_state : state :=
  mk_state INT_MAX 0 0 (mk_thread WrapWait false INT_MAX)
           (mk_thread WrapTest1 false INT_MAX).


(** The schedule of the rendezvous that takes the counters through the
    maximum: both threads arrive, A tests and stores, B tests and stores,
    both leave. *)
Definition wrap_round : list (tid * bool) :=
  [(TA, false); (TB, false); (TA, false); (TA, false); (TA, false);
   (TB, false); (TB, false); (TA, false); (TB, false)].

End Barrier.

(** ** Sample values (exact arithmetic) *)

Definition ts0 : timespec := mk_timespec 0 0.

Definition stat0 : fzsync_stat := mk_stat 0%Q 0%Q 0%Q.

(** A pair as static storage holds it before any call: all bits zero. *)
Definition pair0 : fzsync_pair :=
  mk_pair 0%Q ts0 ts0 ts0 ts0 stat0 stat0 stat0 stat0 0 stat0 0 0 0 0 0%Q
          0 0 0 0%Q ts0 0 0 0.

Definition os0 : os_env := mk_os_env 0 0 1 0 ts0.

Definition rv0 : rendezvous := mk_rendezvous 0 0 0.


(** A run in which nothing ever takes time: default configuration except
    for twenty mandatory samples, reset without thread B, then twenty
    updates over time stamps that are all equal. *)
Definition quiet_run : option (fzsync_pair * list msg) :=
  match fzsync_pair_init (set_min_samples 20 pair0) with
  | Some p =>
      exec_ops (repeat (OpBody (OpUpdate 0%Q)) 20)
               (fst (fzsync_pair_reset p false os0))
  | None => None
  end.

Definition quiet_pair : fzsync_pair :=
  Eval vm_compute in
    match quiet_run with Some (p, _) => p | None => pair0 end.

(** The pair of the delay-range example: end skew 1000 ns, A 500 ns,
    B 300 ns, 100 spins, sampling just done. *)
Definition range_pair : fzsync_pair :=
  mk_pair (1 # 4)%Q ts0 ts0 ts0 ts0
          (mk_stat 0%Q 0%Q 0%Q) (mk_stat 500%Q 0%Q 0%Q) (mk_stat 300%Q 0%Q 0%Q)
          (mk_stat 1000%Q 0%Q 0%Q) 0 (mk_stat 100%Q 0%Q 0%Q)
          0 0 0 1024 (1 # 10)%Q 0 0 0 150%Q ts0 3000000 0 0.


(** The budget that is left, in nanoseconds, at the clock reading [now]
    (exact arithmetic): the configured time less the time since the start. *)
Definition budget_left_ns (p : fzsync_pair) (now : timespec) : Q :=
  (exec_time p * 1000000000
   - inject_Z ((tv_sec now - tv_sec (exec_time_start p)) * 1000000000
               + (tv_nsec now - tv_nsec (exec_time_start p))))%Q.

(** A budget of 150 s that started at 0.9 s. *)
Definition late_start_pair : fzsync_pair :=
  set_exec_time_start (mk_timespec 0 900000000) (set_exec_time 150%Q pair0).

(** A budget of 150 s that started at 0 s. *)
Definition early_start_pair : fzsync_pair :=
  set_exec_time_start (mk_timespec 0 0) (set_exec_time 150%Q pair0).


(** The configurations [fzsync_pair_init] lets through (exact arithmetic):
    every parameter is unset (zero) or within the bounds of its [CHK]. *)
Definition accepted (p : fzsync_pair) : Prop :=
  (avg_alpha p == 0 \/ FLT_MIN <= avg_alpha p <= 1)%Q /\
  (min_samples p = 0 \/ 20 <= min_samples p <= INT_MAX) /\
  (max_dev_ratio p == 0 \/ FLT_MIN <= max_dev_ratio p <= 1)%Q /\
  (exec_time p == 0 \/ 1 <= exec_time p <= FLT_MAX)%Q /\
  (exec_loops p = 0 \/ 20 <= exec_loops p <= INT_MAX).

(** The configurations the documentation allows: decay rate and stability
    ratio in (0,1], time budget at least 1, the two counts in [20,INT_MAX];
    zero stands for unset. *)
Definition documented (p : fzsync_pair) : Prop :=
  (avg_alpha p == 0 \/ 0 < avg_alpha p <= 1)%Q /\
  (min_samples p = 0 \/ 20 <= min_samples p <= INT_MAX) /\
  (max_dev_ratio p == 0 \/ 0 < max_dev_ratio p <= 1)%Q /\
  (exec_time p == 0 \/ 1 <= exec_time p)%Q /\
  (exec_loops p = 0 \/ 20 <= exec_loops p <= INT_MAX).

(** Every parameter set, none zero. *)
Definition all_set (p : fzsync_pair) : Prop :=
  ~ (avg_alpha p == 0)%Q /\ min_samples p <> 0 /\
  ~ (max_dev_ratio p == 0)%Q /\ ~ (exec_time p == 0)%Q /\ exec_loops p <> 0.

(** The default configuration but for a decay rate of 2^-127. *)
Definition tiny_alpha_pair : fzsync_pair :=
  set_avg_alpha (1 # 170141183460469231731687303715884105728)%Q
    (set_min_samples 1024 (set_max_dev_ratio (1 # 10)%Q
      (set_exec_time 150%Q (set_exec_loops 3000000 pair0)))).


(** A pair whose iteration budget is the largest [int], a second after
    the start of a 150 s time budget. *)
Definition max_loops_pair : fzsync_pair :=
  set_exec_loops INT_MAX (set_exec_time 150%Q pair0).

Definition one_second_in : iter_input :=
  mk_iter_input (mk_os_env 0 0 0 0 (mk_timespec 1 0)) rv0 [].




(** ** The delay loops

    [fzsync_start_race_a] copies [pair->delay] into a local [volatile int]
    and runs [while (delay < 0) delay++;], [fzsync_start_race_b] runs
    [while (delay > 0) delay--;].  The functions below give the number of
    iterations, [None] if [fuel] iterations do not suffice. *)

Fixpoint delay_loop_a (fuel : nat) (delay : Z) : option Z :=
  if delay <? 0 then
    match fuel with
    | O => None
    | S fuel' => option_map (Z.add 1) (delay_loop_a fuel' (wrap32 (delay + 1)))
    end
  else Some 0.

Fixpoint delay_loop_b (fuel : nat) (delay : Z) : option Z :=
  if delay >? 0 then
    match fuel with
    | O => None
    | S fuel' => option_map (Z.add 1) (delay_loop_b fuel' (wrap32 (delay - 1)))
    end
  else Some 0.


(** A time stamp as the clock delivers it, within the range in which the
    difference of two in nanoseconds fits a [long]. *)
Definition ts_ok (t : timespec) : Prop :=
  0 <= tv_sec t <= 9223372035 /\ 0 <= tv_nsec t < 1000000000.



(** A pair in the sampling phase with five mandatory samples left. *)
Definition five_left_pair : fzsync_pair := set_sampling 5 pair0.

(** A pair with a thread B. *)
Definition threaded_pair : fzsync_pair := set_thread_b 5 pair0.

(** Eighty seconds into the budget of [late_start_pair]. *)
Definition eighty_seconds_in : os_env :=
  mk_os_env 0 0 0 0 (mk_timespec 80 0).

(** ** Sample values (binary32) *)

Definition zero32 : spec_float := S754_zero false.

Definition stat32 (a d r : spec_float) : @fzsync_stat Binary32 :=
  @mk_stat Binary32 a d r.



(** A pair as static storage holds it before any call: all bits zero. *)
Definition pair32 : @fzsync_pair Binary32 :=
  @mk_pair Binary32 zero32 ts0 ts0 ts0 ts0
    (stat32 zero32 zero32 zero32) (stat32 zero32 zero32 zero32)
    (stat32 zero32 zero32 zero32) (stat32 zero32 zero32 zero32) 0
    (stat32 zero32 zero32 zero32) 0 0 0 0 zero32 0 0 0 zero32 ts0 0 0 0.

(** Five mandatory samples left of a run with a budget of 150 s, decay
    rate 0.25 and stability ratio [(float)0.1], the start skew carrying the
    ratio 1 of an earlier run ([fzsync_pair_reset] leaves the ratios). *)
Definition stale_ratio_pair : @fzsync_pair Binary32 :=
  @set_diff_ss Binary32 (stat32 (b32 8 0) (b32 2 0) (b32 1 0))
    (@set_sampling Binary32 5
      (@set_avg_alpha Binary32 (b32 1 (-2))
        (@set_max_dev_ratio Binary32 (to_b32 (b64 7205759403792794 (-56)))
          (@set_exec_time Binary32 (b32 150 0)
            (@set_exec_loops Binary32 3000000 pair32))))).

(** The pair that [fzsync_run_a] leaves when it finds, eighty seconds
    into the budget, that more than half of it is gone. *)
Definition cut_off_pair : @fzsync_pair Binary32 :=
  match @fzsync_run_a Binary32 stale_ratio_pair eighty_seconds_in rv0 with
  | Some (p, _, _) => p
  | None => stale_ratio_pair
  end.

(** Whether binary32 holds the count [r] of seconds exactly enough for
    [fzsync_run_a]: the test [exec_time * 0.5f > (float)r] is [2 r < T]
    and [(float)r] is zero only for [r = 0]. *)
Definition seconds_exact (exec_time : spec_float) (T r : Z) : bool :=
  Bool.eqb (@fgt Binary32 (@fmul Binary32 exec_time (@f_half Binary32))
                          (@flt_of_int Binary32 r))
           (2 * r <? T)
  && Bool.eqb (@fnonzero Binary32 (@flt_of_int Binary32 r)) (negb (r =? 0)).

(** The integers from 0 to [n - 1]. *)
Definition upto (n : nat) : list Z := map Z.of_nat (seq 0 n).

(** * Properties *)

Lemma wrap32_small z : INT_MIN <= z <= INT_MAX -> wrap32 z = z.
Proof.
  unfold wrap32, INT_MIN, INT_MAX. intros H.
  rewrite Z.mod_small; lia.
Qed.

Lemma wrap64_small z :
  -9223372036854775808 <= z <= 9223372036854775807 -> wrap64 z = z.
Proof.
  unfold wrap64. intros H. rewrite Z.mod_small; lia.
Qed.

Lemma wrap32_range z : INT_MIN <= wrap32 z <= INT_MAX.
Proof.
  unfold wrap32, INT_MIN, INT_MAX.
  pose proof (Z.mod_pos_bound (z + 2147483648) 4294967296 ltac:(lia)). lia.
Qed.

(** ** Thread-B teardown and reset *)

Section Lifecycle.
Context {FO : FloatOps}.

Lemma cleanup_thread_b (p : fzsync_pair) (j : Z) :
  thread_b (fst (fzsync_pair_cleanup p j)) = 0.
Proof.
  unfold fzsync_pair_cleanup.
  destruct (thread_b p =? 0) eqn:E; simpl.
  - now apply Z.eqb_eq.
  - reflexivity.
Qed.

(** C8.  [fzsync_pair_cleanup] on a pair without thread B (handle 0)
    returns 0 and gives back the very same pair; and whatever the pair,
    a second call right after a first one returns 0 and gives back the pair
    the first call left. *)
Theorem cleanup_noop_and_idempotent :
  forall (p : fzsync_pair) (j1 j2 : Z),
    (thread_b p = 0 -> fzsync_pair_cleanup p j1 = (p, 0)) /\
    fzsync_pair_cleanup (fst (fzsync_pair_cleanup p j1)) j2
    = (fst (fzsync_pair_cleanup p j1), 0).
Proof.
  intros p j1 j2. split.
  - intros H. unfold fzsync_pair_cleanup. rewrite H. reflexivity.
  - pose proof (cleanup_thread_b p j1) as H.
    unfold fzsync_pair_cleanup at 1. rewrite H. reflexivity.
Qed.

Lemma cleanup_frame (p : fzsync_pair) (j : Z) :
  let p' := fst (fzsync_pair_cleanup p j) in
  stats p' = stats p /\ delay_bias p' = delay_bias p /\
  avg_alpha p' = avg_alpha p /\ min_samples p' = min_samples p /\
  max_dev_ratio p' = max_dev_ratio p /\ exec_time p' = exec_time p /\
  exec_loops p' = exec_loops p /\ sampling p' = sampling p /\
  exec_loop p' = exec_loop p /\ delay p' = delay p /\
  exec_time_start p' = exec_time_start p.
Proof.
  unfold fzsync_pair_cleanup.
  destruct (thread_b p =? 0); [|destruct (exit p =? 0)]; cbn;
    repeat split; reflexivity.
Qed.

(** C10 (amended).  [fzsync_pair_reset] zeroes [avg] and [avg_dev] of the
    five statistics and leaves their [dev_ratio] as it was; it zeroes the
    delay, the iteration counter, both rendezvous counters and the exit
    flag, sets [sampling] to [min_samples], and leaves [delay_bias] and the
    five configuration fields unchanged. *)
Theorem reset_effect :
  forall (p : fzsync_pair) (run_b : bool) (os : os_env),
    let p' := fst (fzsync_pair_reset p run_b os) in
    (forall f : fzsync_pair -> fzsync_stat,
        In f [diff_ss; diff_sa; diff_sb; diff_ab; spins_avg] ->
        avg (f p') = flt_of_int 0 /\ avg_dev (f p') = flt_of_int 0 /\
        dev_ratio (f p') = dev_ratio (f p)) /\
    delay p' = 0 /\ exec_loop p' = 0 /\ a_cntr p' = 0 /\ b_cntr p' = 0 /\
    exit p' = 0 /\ sampling p' = min_samples p /\
    delay_bias p' = delay_bias p /\ avg_alpha p' = avg_alpha p /\
    min_samples p' = min_samples p /\ max_dev_ratio p' = max_dev_ratio p /\
    exec_time p' = exec_time p /\ exec_loops p' = exec_loops p.
Proof.
  intros p run_b os.
  destruct (cleanup_frame p (join_result os))
    as (Hst & Hb & Ha & Hm & Hr & Ht & Hl & _).
  unfold stats in Hst. injection Hst as H1 H2 H3 H4 H5.
  unfold fzsync_pair_reset.
  set (q := fst (fzsync_pair_cleanup p (join_result os))) in *.
  cbv zeta.
  destruct run_b; [destruct (create_result os =? 0)|]; simpl;
    (split; [intros f Hf; simpl in Hf;
             repeat (destruct Hf as [<-|Hf]; [simpl; rewrite ?H1, ?H2, ?H3, ?H4, ?H5; auto|]);
             contradiction
            | repeat split; auto]).
Qed.

End Lifecycle.

(** C8, at the all-zero pair. *)
Lemma cleanup_noop_and_idempotent_witness :
  fzsync_pair_cleanup pair0 7 = (pair0, 0).
Proof.
  apply (proj1 (cleanup_noop_and_idempotent pair0 7 7)). reflexivity.
Defined.

(** C10, as the claim has it, fails: a stability ratio survives the reset. *)
Lemma reset_keeps_dev_ratio :
  let p := set_diff_ss (mk_stat 0%Q 0%Q 1%Q) pair0 in
  dev_ratio (diff_ss (fst (fzsync_pair_reset p false os0))) = 1%Q /\
  diff_ss (fst (fzsync_pair_reset p false os0)) <> mk_stat 0%Q 0%Q 0%Q.
Proof.
  split; [reflexivity | discriminate].
Qed.

(** C10 (amended), at a pair with a stale ratio. *)
Lemma reset_effect_witness :
  let p := set_diff_ss (mk_stat 5%Q 2%Q (2 # 5)%Q) pair0 in
  avg (diff_ss (fst (fzsync_pair_reset p false os0))) = 0%Q /\
  dev_ratio (diff_ss (fst (fzsync_pair_reset p false os0))) = (2 # 5)%Q.
Proof.
  intros p.
  destruct (reset_effect p false os0) as (H & _).
  destruct (H diff_ss) as (H1 & _ & H3); [simpl; auto|].
  split; [exact H1 | exact H3].
Defined.

(** ** The sampling state along a run *)

Ltac break_if :=
  match goal with
  | |- context [if ?c then _ else _] => destruct c eqn:?
  end.

Ltac break_ifs := repeat (break_if; cbn [fst snd] in * ).

Section Sampling.
Context {FO : FloatOps}.

Lemma pair_wait_done_frame (p : fzsync_pair) (c : bool) (rv : rendezvous) :
  let p' := pair_wait_done p c rv in
  stats p' = stats p /\ sampling p' = sampling p /\
  delay_bias p' = delay_bias p /\ delay p' = delay p /\
  exec_loop p' = exec_loop p /\ exec_loops p' = exec_loops p /\
  exec_time p' = exec_time p /\ exec_time_start p' = exec_time_start p /\
  max_dev_ratio p' = max_dev_ratio p /\ exit p' = exit p /\
  thread_b p' = thread_b p.
Proof.
  unfold pair_wait_done. destruct c; cbn; repeat split; reflexivity.
Qed.

(** What [fzsync_pair_update] does to the fields that steer it. *)
Lemma update_sampling_branch (p : fzsync_pair) (draw : dbl) :
  (sampling p >? 0) || over_max_dev p = true ->
  let p' := fst (fzsync_pair_update p draw) in
  sampling p' = (if sampling p >? 0 then wrap32 (sampling p - 1) else sampling p)
  /\ delay p' = delay_bias p /\ delay_bias p' = delay_bias p
  /\ (forall m, In m (snd (fzsync_pair_update p draw)) -> is_transition m = false).
Proof.
  intros H. unfold fzsync_pair_update, over_max_dev in *. cbn in *.
  rewrite H. cbn.
  destruct (sampling p >? 0) eqn:E; cbn.
  - destruct (wrap32 (sampling p - 1) =? 0); cbn; repeat split; auto;
      intros m Hm; cbn in Hm; intuition (subst; reflexivity).
  - repeat split; auto. intros m [].
Qed.

Lemma update_frozen_branch (p : fzsync_pair) (draw : dbl) :
  (sampling p >? 0) || over_max_dev p = false ->
  let p' := fst (fzsync_pair_update p draw) in
  stats p' = stats p /\ max_dev_ratio p' = max_dev_ratio p /\
  sampling p' = (if sampling p =? 0 then -1 else sampling p) /\
  delay_bias p' = delay_bias p /\
  delay p' = (if fge (fabsf (avg (diff_ab p))) (flt_of_int 1)
              then wrap32 (delay_bias p + spin_delay p draw)
              else delay_bias p).
Proof.
  intros H. unfold fzsync_pair_update, over_max_dev in *. cbn in *.
  rewrite H. cbn.
  destruct (fge (fabsf (avg (diff_ab p))) (flt_of_int 1));
    destruct (sampling p =? 0); cbn; repeat split; reflexivity.
Qed.

Lemma update_sampling_nonpos (p : fzsync_pair) (draw : dbl) :
  sampling p <= 0 -> sampling (fst (fzsync_pair_update p draw)) <= 0.
Proof.
  intros H.
  destruct ((sampling p >? 0) || over_max_dev p) eqn:E.
  - destruct (update_sampling_branch p draw E) as (-> & _).
    destruct (Z.gtb_spec (sampling p) 0); lia.
  - destruct (update_frozen_branch p draw E) as (_ & _ & -> & _).
    destruct (sampling p =? 0); lia.
Qed.

Lemma start_race_a_update (p : fzsync_pair) draw rv now :
  let p' := fst (fzsync_start_race_a p draw rv now) in
  let u := fst (fzsync_pair_update p draw) in
  stats p' = stats u /\ sampling p' = sampling u /\
  delay_bias p' = delay_bias u /\ delay p' = delay u /\
  max_dev_ratio p' = max_dev_ratio u /\
  snd (fzsync_start_race_a p draw rv now) = snd (fzsync_pair_update p draw).
Proof.
  unfold fzsync_start_race_a.
  destruct (fzsync_pair_update p draw) as [u log]. cbn.
  repeat split; reflexivity.
Qed.

Lemma add_bias_frame (p : fzsync_pair) (change : Z) :
  let p' := fzsync_pair_add_bias p change in
  stats p' = stats p /\ sampling p' = sampling p /\
  max_dev_ratio p' = max_dev_ratio p /\ exec_loop p' = exec_loop p /\
  exec_loops p' = exec_loops p /\ exec_time p' = exec_time p /\
  exec_time_start p' = exec_time_start p.
Proof.
  unfold fzsync_pair_add_bias.
  destruct (sampling p >? 0); cbn; repeat split; reflexivity.
Qed.

Lemma add_bias_ignored (p : fzsync_pair) (change : Z) :
  sampling p <= 0 -> fzsync_pair_add_bias p change = p.
Proof.
  intros H. unfold fzsync_pair_add_bias.
  destruct (Z.gtb_spec (sampling p) 0); [lia | reflexivity].
Qed.

Lemma body_op_sampling_nonpos (o : body_op) (p : fzsync_pair) :
  sampling p <= 0 -> sampling (fst (exec_body_op o p)) <= 0.
Proof.
  intros H. destruct o; cbn.
  - now apply update_sampling_nonpos.
  - destruct (start_race_a_update p draw rv now) as (_ & -> & _).
    now apply update_sampling_nonpos.
  - exact H.
  - exact H.
  - exact H.
  - exact H.
  - exact H.
  - exact H.
  - destruct (add_bias_frame p change) as (_ & -> & _). exact H.
  - destruct (cleanup_frame p join_rv) as (_ & _ & _ & _ & _ & _ & _ & -> & _).
    exact H.
Qed.

(** What [fzsync_run_a] does to the fields that steer the statistics. *)
Lemma run_a_frame (p p' : fzsync_pair) os rv r log :
  fzsync_run_a p os rv = Some (p', r, log) ->
  stats p' = stats p /\ max_dev_ratio p' = max_dev_ratio p /\
  delay_bias p' = delay_bias p /\
  (sampling p' = sampling p \/ (sampling p > 0 /\ sampling p' = 0)) /\
  (forall m, In m log -> is_transition m = false).
Proof.
  unfold fzsync_run_a.
  destruct (fzsync_timeout_remaining p (clock_now os)) as [rem|]; [|discriminate].
  set (c1 := fgt _ _ && _).
  assert (Hc1 : c1 = true -> sampling p > 0).
  { unfold c1. intros H. apply andb_prop in H as [_ H].
    now apply Z.gtb_lt, Z.lt_gt in H. }
  destruct c1; destruct (negb (fnonzero (flt_of_int rem))); cbn;
    break_ifs; intros H; inversion H; subst; clear H;
    try match goal with
        | |- context [fzsync_pair_cleanup ?q ?j] =>
            destruct (cleanup_frame q j)
              as (-> & -> & _ & _ & -> & _ & _ & -> & _)
        end;
    unfold stats; cbn; repeat split; try reflexivity.
  all: try (intros m Hm; cbn in Hm; intuition (subst; reflexivity)).
  all: try (right; split; [apply Hc1; reflexivity | reflexivity]).
  all: left; reflexivity.
Qed.

Lemma op_sampling_nonpos (o : op) (p p' : fzsync_pair) log :
  exec_op o p = Some (p', log) -> sampling p <= 0 -> sampling p' <= 0.
Proof.
  destruct o; cbn.
  - intros H Hs. inversion H; subst.
    assert (Hx := body_op_sampling_nonpos o p Hs).
    now rewrite H1 in Hx.
  - destruct (fzsync_run_a p os rv) as [[[q r] l]|] eqn:E; [|discriminate].
    intros H Hs. inversion H; subst.
    destruct (run_a_frame _ _ _ E) as (_ & _ & _ & [->|[? ->]] & _); lia.
Qed.

End Sampling.

(** ** Delay bias *)

Section Bias.
Context {FO : FloatOps}.

Lemma exec_ops_skip_bias (os : list op) :
  forall p : fzsync_pair,
    sampling p <= 0 -> exec_ops os p = exec_ops (filter not_add_bias os) p.
Proof.
  induction os as [|o os IH]; intros p Hs; [reflexivity|].
  destruct (not_add_bias o) eqn:E.
  - cbn [filter]. rewrite E. cbn [exec_ops].
    destruct (exec_op o p) as [[p1 l1]|] eqn:Eo; [|reflexivity].
    rewrite (IH p1); [reflexivity|].
    eapply op_sampling_nonpos; eauto.
  - cbn [filter]. rewrite E.
    destruct o as [[]|]; try discriminate.
    cbn [exec_ops exec_op exec_body_op].
    rewrite add_bias_ignored by exact Hs.
    rewrite <- (IH p Hs).
    destruct (exec_ops os p) as [[p2 l2]|]; reflexivity.
Qed.

(** C3 (amended).  [fzsync_pair_add_bias] takes effect exactly while
    mandatory samples are left ([sampling > 0]): then it adds [change] to
    [delay_bias] (as an [int] addition, exact when the sum is
    representable) and the delay that the next [fzsync_pair_update]
    computes is the new bias.  With no mandatory sample left
    ([sampling <= 0]) any number of calls leaves the pair as it is, and a
    run gives the same pairs and output with or without the
    [fzsync_pair_add_bias] calls in it.  That is so once Converged or
    DelayUnavailable ([sampling = -1]), and also in the rest of the
    Sampling phase, where the counter is at zero and a ratio is still over
    the maximum. *)
Theorem add_bias_only_with_samples_left :
  forall p : fzsync_pair,
    (sampling p > 0 -> forall change : Z,
        let p' := fzsync_pair_add_bias p change in
        delay_bias p' = wrap32 (delay_bias p + change) /\
        (in_int (delay_bias p + change) ->
         delay_bias p' = delay_bias p + change) /\
        forall draw, delay (fst (fzsync_pair_update p' draw)) = delay_bias p')
    /\
    (sampling p <= 0 ->
        (forall changes, fold_left fzsync_pair_add_bias changes p = p) /\
        (forall os, exec_ops os p = exec_ops (filter not_add_bias os) p)).
Proof.
  intros p. split.
  - intros Hs change p'.
    assert (E : (sampling p >? 0) = true) by (apply Z.gtb_lt; lia).
    assert (Hb : delay_bias p' = wrap32 (delay_bias p + change)).
    { unfold p', fzsync_pair_add_bias. rewrite E. reflexivity. }
    split; [exact Hb|]. split.
    + intros Hr. rewrite Hb. now apply wrap32_small.
    + intros draw.
      assert (E' : (sampling p' >? 0) || over_max_dev p' = true).
      { destruct (add_bias_frame p change) as (_ & Hsam & _).
        fold p' in Hsam. rewrite Hsam, E. reflexivity. }
      now destruct (update_sampling_branch p' draw E') as (_ & -> & _).
  - intros Hs. split.
    + induction changes as [|c cs IH]; [reflexivity|].
      cbn. rewrite add_bias_ignored by exact Hs. exact IH.
    + intros os. now apply exec_ops_skip_bias.
Qed.

End Bias.

(** C3 (amended), at a pair with five mandatory samples left and at a
    converged one (binary32). *)
Lemma add_bias_only_with_samples_left_witness :
  delay_bias (fzsync_pair_add_bias stale_ratio_pair 3) = 3 /\
  fold_left fzsync_pair_add_bias [3; -7] (@set_sampling Binary32 (-1) pair32)
  = @set_sampling Binary32 (-1) pair32.
Proof.
  split.
  - destruct (@add_bias_only_with_samples_left Binary32 stale_ratio_pair)
      as [H _].
    destruct (H ltac:(reflexivity) 3) as (_ & H2 & _).
    apply H2. unfold in_int, INT_MIN, INT_MAX. cbn. lia.
  - destruct (@add_bias_only_with_samples_left Binary32
                (@set_sampling Binary32 (-1) pair32)) as [_ H].
    destruct H as [H _]; [cbn; lia|]. apply H.
Defined.

(** C3, as the claim has it, fails (binary32).  Eighty seconds into a
    budget of 150 s [fzsync_run_a] cuts the mandatory samples off and goes
    on.  The pair is still in the Sampling phase: its start-skew ratio is
    over the maximum, so the next [fzsync_pair_update] folds the samples
    into the statistics (the average goes from 8 to 6), prints nothing and
    leaves [sampling] at zero.  Yet [fzsync_pair_add_bias] leaves the bias
    as it is. *)
Lemma add_bias_ignored_while_sampling :
  option_map (fun x => snd (fst x))
    (@fzsync_run_a Binary32 stale_ratio_pair eighty_seconds_in rv0) = Some 1 /\
  sampling cut_off_pair = 0 /\ is_sampling cut_off_pair /\
  over_max_dev cut_off_pair = true /\
  avg (diff_ss cut_off_pair) = b32 8 0 /\
  avg (diff_ss (fst (fzsync_pair_update cut_off_pair zero32))) = b32 6 0 /\
  sampling (fst (fzsync_pair_update cut_off_pair zero32)) = 0 /\
  snd (fzsync_pair_update cut_off_pair zero32) = [] /\
  delay_bias (fzsync_pair_add_bias cut_off_pair 3) = delay_bias cut_off_pair /\
  delay_bias cut_off_pair + 3 <> delay_bias cut_off_pair.
Proof.
  repeat split; try (vm_compute; reflexivity).
  - vm_compute. discriminate.
  - vm_compute. discriminate.
Qed.

(** ** Convergence *)

Section Convergence.
Context {FO : FloatOps}.

Lemma over_max_dev_ext (p q : fzsync_pair) :
  stats q = stats p -> max_dev_ratio q = max_dev_ratio p ->
  over_max_dev q = over_max_dev p.
Proof.
  unfold stats, over_max_dev. intros H Hm.
  injection H as -> -> -> -> ->. now rewrite Hm.
Qed.

(** The output of [fzsync_pair_update] outside its sampling branch. *)
Lemma update_frozen_log (p : fzsync_pair) (draw : dbl) :
  (sampling p >? 0) || over_max_dev p = false ->
  snd (fzsync_pair_update p draw) =
    if sampling p =? 0 then
      if fge (fabsf (avg (diff_ab p))) (flt_of_int 1)
      then [MsgConverged;
            delay_range_msg
              (set_delay (wrap32 (delay_bias p
                 + spin_delay (set_delay (delay_bias p) p) draw))
                 (set_delay (delay_bias p) p));
            MsgInfo]
      else [MsgNoDelay; MsgInfo]
    else [].
Proof.
  intros H. unfold fzsync_pair_update, over_max_dev in *. cbn in *.
  rewrite H. cbn.
  destruct (fge (fabsf (avg (diff_ab p))) (flt_of_int 1));
    destruct (sampling p =? 0); reflexivity.
Qed.

Lemma update_max_dev_ratio (p : fzsync_pair) (draw : dbl) :
  max_dev_ratio (fst (fzsync_pair_update p draw)) = max_dev_ratio p.
Proof.
  unfold fzsync_pair_update. cbn. break_ifs; reflexivity.
Qed.

Lemma sampling_done_branch (p : fzsync_pair) :
  sampling_done p -> (sampling p >? 0) || over_max_dev p = false.
Proof. intros [-> ->]. reflexivity. Qed.

(** A log either holds no transition message, or it is the log of the call
    at which sampling is done and holds exactly one. *)
Lemma update_transitions (p : fzsync_pair) (draw : dbl) :
  (sampling_done p /\
   length (transitions (snd (fzsync_pair_update p draw))) = 1%nat) \/
  (~ sampling_done p /\ transitions (snd (fzsync_pair_update p draw)) = []).
Proof.
  destruct ((sampling p >? 0) || over_max_dev p) eqn:E.
  - right. split.
    + intros [H1 H2]. rewrite H1, H2 in E. discriminate.
    + destruct (update_sampling_branch p draw E) as (_ & _ & _ & H).
      unfold transitions.
      induction (snd (fzsync_pair_update p draw)) as [|m l IH]; [reflexivity|].
      cbn. rewrite (H m) by (left; reflexivity).
      apply IH. intros m' Hm'. apply H. now right.
  - rewrite (update_frozen_log p draw E).
    apply orb_false_elim in E as [E1 E2].
    destruct (Z.eqb_spec (sampling p) 0) as [Hz|Hz].
    + left. split; [split; assumption|].
      destruct (fge _ _); reflexivity.
    + right. split; [intros [H _]; contradiction | reflexivity].
Qed.

Lemma transitions_app (l1 l2 : list msg) :
  transitions (l1 ++ l2) = transitions l1 ++ transitions l2.
Proof. apply filter_app. Qed.

Lemma transitions_nil_iff (l : list msg) :
  transitions l = [] <-> forall m, In m l -> is_transition m = false.
Proof.
  unfold transitions. induction l as [|m l IH]; cbn.
  - split; [intros _ m' [] | reflexivity].
  - destruct (is_transition m) eqn:E.
    + split; [discriminate|]. intros H. specialize (H m (or_introl eq_refl)).
      congruence.
    + rewrite IH. split.
      * intros H m' [<-|Hm']; auto.
      * intros H m' Hm'. apply H. now right.
Qed.

Lemma frozen_branch (p : fzsync_pair) :
  frozen p -> (sampling p >? 0) || over_max_dev p = false.
Proof. intros [-> ->]. reflexivity. Qed.

Lemma frozen_update (p : fzsync_pair) (draw : dbl) :
  frozen p ->
  let p' := fst (fzsync_pair_update p draw) in
  stats p' = stats p /\ max_dev_ratio p' = max_dev_ratio p /\
  sampling p' = -1 /\ snd (fzsync_pair_update p draw) = [].
Proof.
  intros Hf. pose proof (frozen_branch Hf) as E. destruct Hf as [Hs Ho].
  destruct (update_frozen_branch p draw E) as (H1 & H2 & H3 & _).
  rewrite (update_frozen_log p draw E). rewrite Hs in *. cbn in *.
  repeat split; assumption.
Qed.

Lemma frozen_body_op (o : body_op) (p : fzsync_pair) :
  frozen p ->
  let p' := fst (exec_body_op o p) in
  stats p' = stats p /\ max_dev_ratio p' = max_dev_ratio p /\
  sampling p' = -1 /\ snd (exec_body_op o p) = [].
Proof.
  intros Hf. pose proof Hf as [Hs Ho]. destruct o; cbn.
  - now apply frozen_update.
  - destruct (start_race_a_update p draw rv now)
      as (-> & -> & _ & _ & -> & ->).
    now apply frozen_update.
  - repeat split; assumption.
  - repeat split; assumption.
  - repeat split; assumption.
  - repeat split; assumption.
  - repeat split; assumption.
  - repeat split; assumption.
  - destruct (add_bias_frame p change) as (-> & -> & -> & _).
    repeat split; assumption.
  - destruct (cleanup_frame p join_rv)
      as (-> & _ & _ & _ & -> & _ & _ & -> & _).
    repeat split; assumption.
Qed.

Lemma frozen_op (o : op) (p q : fzsync_pair) (l : list msg) :
  frozen p -> exec_op o p = Some (q, l) ->
  stats q = stats p /\ frozen q /\ transitions l = [].
Proof.
  intros Hf. pose proof Hf as [Hs Ho]. destruct o; cbn.
  - intros H.
    destruct (frozen_body_op o Hf) as (F1 & F2 & F3 & F4).
    destruct (exec_body_op o p) as [q' l']. cbn in *.
    inversion H; subst.
    repeat split; auto.
    rewrite (over_max_dev_ext F1 F2). exact Ho.
  - destruct (fzsync_run_a p os rv) as [[[q' r] l']|] eqn:E; [|discriminate].
    intros H. inversion H; subst.
    destruct (run_a_frame _ _ _ E) as (H1 & H2 & _ & H4 & H5).
    assert (sampling q = -1) by (destruct H4 as [->|[? _]]; lia).
    repeat split; auto.
    + rewrite (over_max_dev_ext H1 H2). exact Ho.
    + now apply transitions_nil_iff.
Qed.

Lemma frozen_run (os : list op) :
  forall (p q : fzsync_pair) (l : list msg),
    frozen p -> exec_ops os p = Some (q, l) ->
    stats q = stats p /\ frozen q /\ transitions l = [].
Proof.
  induction os as [|o os IH]; intros p q l Hf; cbn.
  - intros H. inversion H; subst. split; [reflexivity|]. split; [exact Hf|reflexivity].
  - destruct (exec_op o p) as [[p1 l1]|] eqn:E1; [|discriminate].
    destruct (exec_ops os p1) as [[p2 l2]|] eqn:E2; [|discriminate].
    intros H. inversion H; subst.
    destruct (frozen_op _ Hf E1) as (Ha & Hb & Hc).
    destruct (IH _ _ _ Hb E2) as (Ha' & Hb' & Hc').
    rewrite transitions_app, Hc, Hc'.
    split; [congruence|]. split; [exact Hb'|reflexivity].
Qed.

Lemma sampling_done_update (p : fzsync_pair) (draw : dbl) :
  sampling_done p ->
  stats (fst (fzsync_pair_update p draw)) = stats p /\
  frozen (fst (fzsync_pair_update p draw)).
Proof.
  intros Hd. pose proof (sampling_done_branch Hd) as E.
  destruct Hd as [Hs Ho].
  destruct (update_frozen_branch p draw E) as (H1 & H2 & H3 & _).
  rewrite Hs in H3. cbn in H3.
  repeat split; auto.
  rewrite (over_max_dev_ext H1 H2). exact Ho.
Qed.

(** In any run the log of one library call holds at most one transition
    message, and if it holds one the pair is frozen afterwards. *)
Lemma op_transitions (o : op) (p q : fzsync_pair) (l : list msg) :
  exec_op o p = Some (q, l) ->
  transitions l = [] \/ (length (transitions l) = 1%nat /\ frozen q).
Proof.
  destruct o as [o|os rv]; cbn.
  - intros H. injection H as H.
    assert (Hq : q = fst (exec_body_op o p)) by now rewrite H.
    assert (Hl : l = snd (exec_body_op o p)) by now rewrite H.
    subst q l. clear H.
    assert (Hu : forall draw,
      transitions (snd (fzsync_pair_update p draw)) = [] \/
      (length (transitions (snd (fzsync_pair_update p draw))) = 1%nat /\
       stats (fst (fzsync_pair_update p draw)) = stats p /\
       frozen (fst (fzsync_pair_update p draw)))).
    { intros draw.
      destruct (update_transitions p draw) as [[Hd Hl]|[_ Hn]]; [right|now left].
      split; [exact Hl|]. now apply sampling_done_update. }
    destruct o; cbn; try (now left).
    + destruct (Hu draw) as [H|(K1 & _ & K2)]; [now left | now right].
    + destruct (start_race_a_update p draw rv now)
        as (Hst & Hsa & _ & _ & Hmx & ->).
      destruct (Hu draw) as [H|(K1 & K2 & [K3 K4])]; [now left | right].
      split; [exact K1|]. split; [congruence|].
      rewrite (over_max_dev_ext Hst Hmx). exact K4.
  - destruct (fzsync_run_a p os rv) as [[[q' r] l']|] eqn:E; [|discriminate].
    intros H. inversion H; subst. left.
    destruct (run_a_frame _ _ _ E) as (_ & _ & _ & _ & H5).
    now apply transitions_nil_iff.
Qed.

Lemma run_transitions_once (os : list op) :
  forall (p q : fzsync_pair) (l : list msg),
    exec_ops os p = Some (q, l) -> (length (transitions l) <= 1)%nat.
Proof.
  induction os as [|o os IH]; intros p q l; cbn.
  - intros H. inversion H; subst. cbn. lia.
  - destruct (exec_op o p) as [[p1 l1]|] eqn:E1; [|discriminate].
    destruct (exec_ops os p1) as [[p2 l2]|] eqn:E2; [|discriminate].
    intros H. inversion H; subst.
    rewrite transitions_app, length_app.
    destruct (op_transitions _ _ E1) as [H1|[H1 Hf]].
    + rewrite H1. cbn. eapply IH; eauto.
    + destruct (frozen_run _ Hf E2) as (_ & _ & H2).
      rewrite H1, H2. cbn. lia.
Qed.

End Convergence.

Section ConvergenceClaim.
Context {FO : FloatOps}.

(** C4 (amended).  The call of [fzsync_pair_update] that finds the
    mandatory-sample counter at zero and all five ratios within the maximum
    ends sampling: [sampling] becomes -1 and the statistics are left alone.
    It announces Converged when [|diff_ab.avg| >= 1] and DelayUnavailable
    otherwise (then the delay is the bias).  Whatever is called afterwards in
    the run, the five statistics keep their values and no further
    transition is announced; a call that does not meet the condition
    announces none; so a run announces at most one. *)
Theorem sampling_ends_once_then_frozen :
  (forall (p : fzsync_pair) (draw : dbl),
     let p' := fst (fzsync_pair_update p draw) in
     let log := snd (fzsync_pair_update p draw) in
     (sampling_done p ->
        sampling p' = -1 /\ stats p' = stats p /\
        (fge (fabsf (avg (diff_ab p))) (flt_of_int 1) = true ->
           transitions log = [MsgConverged]) /\
        (fge (fabsf (avg (diff_ab p))) (flt_of_int 1) = false ->
           log = [MsgNoDelay; MsgInfo] /\ delay p' = delay_bias p) /\
        forall os q l, exec_ops os p' = Some (q, l) ->
           stats q = stats p /\ sampling q = -1 /\ transitions l = []) /\
     (~ sampling_done p -> transitions log = []))
  /\
  (forall os (p q : fzsync_pair) l,
     exec_ops os p = Some (q, l) -> (length (transitions l) <= 1)%nat).
Proof.
  split; [|intros os p q l; apply run_transitions_once].
  intros p draw p' log. split.
  - intros Hd. pose proof (sampling_done_branch Hd) as E.
    destruct (sampling_done_update draw Hd) as [Hst Hfr].
    pose proof (update_frozen_log p draw E) as Hlog.
    pose proof Hd as [Hs Ho]. rewrite Hs in Hlog. cbn in Hlog.
    fold p' in Hst, Hfr. fold log in Hlog.
    split; [apply Hfr|]. split; [exact Hst|]. split; [|split].
    + intros Hge. rewrite Hlog, Hge. reflexivity.
    + intros Hge. rewrite Hlog, Hge. split; [reflexivity|].
      destruct (update_frozen_branch p draw E) as (_ & _ & _ & _ & Hdl).
      fold p' in Hdl. rewrite Hdl, Hge. reflexivity.
    + intros os q l Hrun.
      destruct (frozen_run _ Hfr Hrun) as (H1 & [H2 _] & H3).
      split; [congruence|]. split; assumption.
  - intros Hn.
    destruct (update_transitions p draw) as [[Hd _]|[_ H]];
      [contradiction | exact H].
Qed.

End ConvergenceClaim.

(** C4, as the claim has it, fails: in the quiet run sampling is done
    but the call that finds it so announces DelayUnavailable, not Converged. *)
Lemma sampling_done_without_convergence :
  option_map fst quiet_run = Some quiet_pair /\
  sampling_done quiet_pair /\
  snd (fzsync_pair_update quiet_pair 0%Q) = [MsgNoDelay; MsgInfo] /\
  ~ In MsgConverged (snd (fzsync_pair_update quiet_pair 0%Q)).
Proof.
  split; [reflexivity|].
  split; [split; vm_compute; reflexivity|].
  split; [vm_compute; reflexivity|].
  vm_compute. intros [H|[H|[]]]; discriminate.
Qed.

(** C4 (amended), at the pair of the delay-range example and at the end
    of the quiet run. *)
Lemma sampling_ends_once_then_frozen_witness :
  transitions (snd (fzsync_pair_update range_pair (1 # 2)%Q)) = [MsgConverged]
  /\ delay (fst (fzsync_pair_update quiet_pair 0%Q)) = delay_bias quiet_pair.
Proof.
  destruct sampling_ends_once_then_frozen as [H _].
  split.
  - destruct (H range_pair (1 # 2)%Q) as [H1 _].
    destruct H1 as (_ & _ & H2 & _); [split; reflexivity|].
    apply H2. reflexivity.
  - destruct (H quiet_pair 0%Q) as [H1 _].
    destruct H1 as (_ & _ & _ & H2 & _); [split; vm_compute; reflexivity|].
    apply H2. vm_compute. reflexivity.
Defined.

(** ** The time budget *)

(** C2, where the code departs from it.  With 0.8 s of a 150 s budget
    left, [fzsync_timeout_remaining] returns 0; one nanosecond after the
    budget has run out it returns 1.  (When the whole seconds are used up
    the function returns 1 exactly if the nanosecond field of the clock is
    ahead of that of the start, which is when the budget is overdrawn.) *)
Theorem timeout_remaining_last_second :
  (budget_left_ns late_start_pair (mk_timespec 150 100000000)
     == 800000000)%Q /\
  fzsync_timeout_remaining late_start_pair (mk_timespec 150 100000000)
    = Some 0 /\
  (budget_left_ns early_start_pair (mk_timespec 150 1) == - (1))%Q /\
  fzsync_timeout_remaining early_start_pair (mk_timespec 150 1) = Some 1.
Proof.
  repeat split; vm_compute; reflexivity.
Qed.

(** ** Configuration *)

Lemma Qeq_bool_false (a b : Q) : Qeq_bool a b = false <-> ~ (a == b)%Q.
Proof.
  split.
  - intros H E. apply Qeq_bool_iff in E. congruence.
  - intros H. destruct (Qeq_bool a b) eqn:E; [|reflexivity].
    apply Qeq_bool_iff in E. contradiction.
Qed.

Lemma Qle_bool_false (a b : Q) : Qle_bool a b = false <-> (b < a)%Q.
Proof.
  split.
  - intros H. apply Qnot_le_lt. intros E. apply Qle_bool_iff in E. congruence.
  - intros H. destruct (Qle_bool a b) eqn:E; [|reflexivity].
    apply Qle_bool_iff in E. apply Qle_not_lt in E. contradiction.
Qed.

(** The two assertions of a [CHK] on a [float] parameter with a [double]
    default that lies within the bounds. *)
Lemma chk_flt_d_asserts (v def lo hi : Q) :
  (lo <= def <= hi)%Q ->
  Qle_bool lo (chk_flt_d v def) && Qle_bool (chk_flt_d v def) hi = true
  <-> (v == 0 \/ lo <= v <= hi)%Q.
Proof.
  intros [Hlo Hhi]. unfold chk_flt_d. cbn.
  rewrite andb_true_iff, !Qle_bool_iff.
  destruct (Qeq_bool v 0) eqn:E; cbn.
  - apply Qeq_bool_iff in E. tauto.
  - apply Qeq_bool_false in E. tauto.
Qed.

Lemma chk_flt_i_asserts (v lo hi : Q) (def : Z) :
  (lo <= inject_Z def <= hi)%Q ->
  Qle_bool lo (chk_flt_i v def) && Qle_bool (chk_flt_i v def) hi = true
  <-> (v == 0 \/ lo <= v <= hi)%Q.
Proof.
  intros [Hlo Hhi]. unfold chk_flt_i. cbn.
  rewrite andb_true_iff, !Qle_bool_iff.
  destruct (Qeq_bool v 0) eqn:E; cbn.
  - apply Qeq_bool_iff in E. tauto.
  - apply Qeq_bool_false in E. tauto.
Qed.

Lemma chk_int_asserts (v def : Z) :
  20 <= def <= INT_MAX ->
  (chk_int v def >=? 20) && (chk_int v def <=? INT_MAX) = true
  <-> (v = 0 \/ 20 <= v <= INT_MAX).
Proof.
  intros H. unfold chk_int.
  rewrite andb_true_iff, Z.geb_le, Z.leb_le.
  destruct (Z.eqb_spec v 0); lia.
Qed.

(** [fzsync_pair_init] as one test. *)
Lemma init_unfold (p : fzsync_pair) :
  fzsync_pair_init p =
    if (Qle_bool FLT_MIN (chk_flt_d (avg_alpha p) d_quarter)
        && Qle_bool (chk_flt_d (avg_alpha p) d_quarter) 1)
       && ((chk_int (min_samples p) 1024 >=? 20)
           && (chk_int (min_samples p) 1024 <=? INT_MAX))
       && (Qle_bool FLT_MIN (chk_flt_d (max_dev_ratio p) d_tenth)
           && Qle_bool (chk_flt_d (max_dev_ratio p) d_tenth) 1)
       && (Qle_bool 1 (chk_flt_i (exec_time p) 150)
           && Qle_bool (chk_flt_i (exec_time p) 150) FLT_MAX)
       && ((chk_int (exec_loops p) 3000000 >=? 20)
           && (chk_int (exec_loops p) 3000000 <=? INT_MAX))
    then Some (with_defaults p) else None.
Proof.
  unfold fzsync_pair_init, with_defaults, assert.
  cbn [avg_alpha min_samples max_dev_ratio exec_time exec_loops
       set_avg_alpha set_min_samples set_max_dev_ratio set_exec_time
       set_exec_loops fge fle flt_of_int ExactFloat].
  change (inject_Z 1) with 1%Q.
  repeat match goal with
         | |- context [Qle_bool ?a ?b] =>
             let b' := fresh "b" in
             set (b' := Qle_bool a b); destruct b'; cbn [andb]
         | |- context [?a >=? ?b] =>
             let b' := fresh "b" in
             set (b' := a >=? b); destruct b'; cbn [andb]
         | |- context [?a <=? ?b] =>
             let b' := fresh "b" in
             set (b' := a <=? b); destruct b'; cbn [andb]
         end; reflexivity.
Qed.

Lemma init_accepts_iff (p : fzsync_pair) :
  fzsync_pair_init p = Some (with_defaults p) <-> accepted p.
Proof.
  rewrite init_unfold. unfold accepted.
  pose proof (@chk_flt_d_asserts (avg_alpha p) (@d_quarter ExactFloat)
                (@FLT_MIN ExactFloat) 1%Q) as H1.
  pose proof (@chk_int_asserts (min_samples p) 1024) as H2.
  pose proof (@chk_flt_d_asserts (max_dev_ratio p) (@d_tenth ExactFloat)
                (@FLT_MIN ExactFloat) 1%Q) as H3.
  pose proof (@chk_flt_i_asserts (exec_time p) 1%Q (@FLT_MAX ExactFloat) 150)
    as H4.
  pose proof (@chk_int_asserts (exec_loops p) 3000000) as H5.
  rewrite <- H1, <- H2, <- H3, <- H4, <- H5;
    try (split; unfold Qle; cbn; lia); try (unfold INT_MAX; lia).
  match goal with
  | |- _ <-> (?a = true /\ ?b = true /\ ?c = true /\ ?d = true /\ ?e = true) =>
      destruct a, b, c, d, e
  end; cbn; intuition discriminate.
Qed.

Lemma init_rejects (p : fzsync_pair) :
  ~ accepted p -> fzsync_pair_init p = None.
Proof.
  intros H. destruct (fzsync_pair_init p) as [q|] eqn:E; [|reflexivity].
  exfalso. apply H. apply init_accepts_iff.
  rewrite init_unfold in *.
  match goal with |- (if ?b then _ else _) = _ => destruct b end;
    [reflexivity | discriminate].
Qed.

Lemma accepted_documented (p : fzsync_pair) : accepted p -> documented p.
Proof.
  unfold accepted, documented.
  change FLT_MIN with (1 # 85070591730234615865843651857942052864)%Q.
  intros (Ha & Hm & Hr & Ht & Hl).
  repeat split; try assumption.
  - destruct Ha as [Ha|Ha]; [now left | right; lra].
  - destruct Hr as [Hr|Hr]; [now left | right; lra].
  - destruct Ht as [Ht|Ht]; [now left | right; lra].
Qed.

(** C9 (amended).  [fzsync_pair_init] accepts a configuration exactly
    when each parameter is zero or within the bounds of its [CHK]:
    [FLT_MIN <= avg_alpha <= 1], [20 <= min_samples <= INT_MAX],
    [FLT_MIN <= max_dev_ratio <= 1], [1 <= exec_time <= FLT_MAX],
    [20 <= exec_loops <= INT_MAX]; otherwise an assertion fails, in
    particular whenever a parameter is outside its documented range.  On
    success each zero parameter holds its default (0.25, 1024, 0.1, 150,
    3000000) and nothing else has changed; a configuration with every
    parameter set is returned as it was. *)
Theorem init_defaults_and_ranges :
  forall p : fzsync_pair,
    (accepted p -> fzsync_pair_init p = Some (with_defaults p)) /\
    (~ accepted p -> fzsync_pair_init p = None) /\
    (~ documented p -> fzsync_pair_init p = None) /\
    ((avg_alpha p == 0)%Q -> avg_alpha (with_defaults p) = (1 # 4)%Q) /\
    (min_samples p = 0 -> min_samples (with_defaults p) = 1024) /\
    ((max_dev_ratio p == 0)%Q -> max_dev_ratio (with_defaults p) = (1 # 10)%Q) /\
    ((exec_time p == 0)%Q -> exec_time (with_defaults p) = 150%Q) /\
    (exec_loops p = 0 -> exec_loops (with_defaults p) = 3000000) /\
    (all_set p -> with_defaults p = p).
Proof.
  intros p.
  split; [apply init_accepts_iff|].
  split; [apply init_rejects|].
  split; [intros H; apply init_rejects; intros Ha; apply H;
          now apply accepted_documented|].
  unfold with_defaults, chk_flt_d, chk_flt_i, chk_int. cbn.
  repeat split.
  - intros H. apply Qeq_bool_iff in H. now rewrite H.
  - intros ->. reflexivity.
  - intros H. apply Qeq_bool_iff in H. now rewrite H.
  - intros H. apply Qeq_bool_iff in H. now rewrite H.
  - intros ->. reflexivity.
  - intros (Ha & Hm & Hr & Ht & Hl).
    apply Qeq_bool_false in Ha, Hr, Ht. rewrite Ha, Hr, Ht. cbn.
    apply Z.eqb_neq in Hm, Hl. rewrite Hm, Hl.
    destruct p; reflexivity.
Qed.

(** C9, as the claim has it, fails: a decay rate of 2^-127 lies in (0,1]
    and every other parameter holds its default, yet the assertion
    [avg_alpha >= FLT_MIN] fails. *)
Lemma init_rejects_tiny_alpha :
  documented tiny_alpha_pair /\ all_set tiny_alpha_pair /\
  (0 < avg_alpha tiny_alpha_pair <= 1)%Q /\
  fzsync_pair_init tiny_alpha_pair = None.
Proof.
  split; [|split; [|split]].
  - unfold documented. cbn. repeat split;
      try (right; split; [reflexivity | discriminate]);
      try (right; unfold INT_MAX; lia);
      try (right; discriminate).
  - unfold all_set. cbn. repeat split; discriminate.
  - cbn. split; [reflexivity | discriminate].
  - reflexivity.
Qed.

(** C9 (amended), at the all-zero pair and at the default configuration. *)
Lemma init_defaults_and_ranges_witness :
  fzsync_pair_init pair0 = Some (with_defaults pair0) /\
  avg_alpha (with_defaults pair0) = (1 # 4)%Q /\
  with_defaults (with_defaults pair0) = with_defaults pair0.
Proof.
  destruct (init_defaults_and_ranges pair0) as (H1 & _ & _ & H4 & _).
  destruct (init_defaults_and_ranges (with_defaults pair0))
    as (_ & _ & _ & _ & _ & _ & _ & _ & H9).
  split; [|split].
  - apply H1. unfold accepted. cbn. repeat split; left; reflexivity.
  - apply H4. reflexivity.
  - apply H9. unfold all_set. cbn. repeat split; discriminate.
Defined.

(** ** The delay range (exact arithmetic) *)

Lemma MAX_exact (a b : Q) : (b < a)%Q -> (MAX a b == a)%Q.
Proof.
  intros H. unfold MAX. cbn. unfold Qgt_bool.
  destruct (Qle_bool a b) eqn:E; cbn; [|reflexivity].
  apply Qle_bool_iff in E. lra.
Qed.

Lemma spin_delay_set_delay (p : fzsync_pair) (v : Z) (draw : Q) :
  spin_delay (set_delay v p) draw = spin_delay p draw.
Proof. reflexivity. Qed.

(** C5.  With end-skew average 1000, A-duration average 500, B-duration
    average 300 and spin average 100, [per_spin_time] is 10 and, for every
    draw in [0,1), [time_delay / per_spin_time] lies in [-30, 50].  In the
    Converged branch [fzsync_pair_update] stores the bias plus
    [(int)(1.1 * time_delay / per_spin_time)] computed from these two. *)
Theorem delay_range_example :
  forall p : fzsync_pair,
    (avg (diff_ab p) == 1000)%Q -> (avg (diff_sa p) == 500)%Q ->
    (avg (diff_sb p) == 300)%Q -> (avg (spins_avg p) == 100)%Q ->
    (per_spin_time p == 10)%Q /\
    (forall draw : Q, (0 <= draw < 1)%Q ->
       (- (30) <= time_delay p draw / per_spin_time p <= 50)%Q) /\
    (sampling p <= 0 -> over_max_dev p = false -> forall draw : Q,
       delay (fst (fzsync_pair_update p draw))
       = wrap32 (delay_bias p + spin_delay p draw)).
Proof.
  intros p Hab Hsa Hsb Hsp.
  assert (Hpst : (per_spin_time p == 10)%Q).
  { unfold per_spin_time. cbn.
    rewrite (@MAX_exact (avg (spins_avg p)) 1%Q) by lra.
    rewrite Hab, Hsp. reflexivity. }
  split; [exact Hpst|]. split.
  - intros draw [H0 H1]. rewrite Hpst.
    unfold time_delay. cbn. rewrite Hsa, Hsb.
    unfold Qdiv. change (/ 10)%Q with (1 # 10)%Q. lra.
  - intros Hs Ho draw.
    assert (E : (sampling p >? 0) || over_max_dev p = false).
    { rewrite Ho, orb_false_r, Z.gtb_ltb. apply Z.ltb_ge. lia. }
    destruct (update_frozen_branch p draw E) as (_ & _ & _ & _ & Hd).
    rewrite Hd.
    assert (Hge : fge (fabsf (avg (diff_ab p))) (flt_of_int 1) = true).
    { cbn. apply Qle_bool_iff. rewrite Hab. discriminate. }
    rewrite Hge. reflexivity.
Qed.

(** C5, at the pair of the example with the draw 1/2. *)
Lemma delay_range_example_witness :
  (per_spin_time range_pair == 10)%Q /\
  (- (30) <= time_delay range_pair (1 # 2) / per_spin_time range_pair <= 50)%Q.
Proof.
  destruct (delay_range_example range_pair) as (H1 & H2 & _);
    try reflexivity.
  split; [exact H1|].
  apply H2. split; [discriminate | reflexivity].
Defined.

(** ** The moving average under a constant sample *)

Lemma upd_stat_at_avg (s : fzsync_stat) (alpha sample : Q) :
  (sample == avg s)%Q ->
  (avg (fzsync_upd_stat s alpha sample) == avg s)%Q /\
  (avg_dev (fzsync_upd_stat s alpha sample) == (1 - alpha) * avg_dev s)%Q.
Proof.
  intros H. unfold fzsync_upd_stat, fzsync_exp_moving_avg.
  cbn [avg avg_dev dev_ratio flt_of_dbl dbl_of_flt fmul fsub dadd dmul dsub
       fabs d_one ExactFloat].
  assert (Ha : (alpha * sample + (1 - alpha) * avg s == avg s)%Q)
    by (rewrite H; ring).
  split; [exact Ha|].
  assert (Hz : (alpha * sample + (1 - alpha) * avg s - sample == 0)%Q)
    by (rewrite H; ring).
  rewrite Hz. change (Qabs 0) with 0%Q. ring.
Qed.

Lemma feed_avg (s : fzsync_stat) (alpha sample : Q) (n : nat) :
  (sample == avg s)%Q -> (avg (feed alpha sample n s) == avg s)%Q.
Proof.
  intros H. induction n as [|n IH]; [reflexivity|].
  cbn. fold (@feed ExactFloat alpha sample n s).
  destruct (@upd_stat_at_avg (@feed ExactFloat alpha sample n s) alpha sample) as [Ha _].
  - now rewrite IH.
  - now rewrite Ha.
Qed.

Lemma feed_avg_dev_step (s : fzsync_stat) (alpha sample : Q) (n : nat) :
  (sample == avg s)%Q ->
  (avg_dev (feed alpha sample (S n) s)
   == (1 - alpha) * avg_dev (feed alpha sample n s))%Q.
Proof.
  intros H. cbn. fold (@feed ExactFloat alpha sample n s).
  apply upd_stat_at_avg. now rewrite feed_avg.
Qed.

Lemma Qabs_scale (c d : Q) : (0 <= c)%Q -> (Qabs (c * d) == c * Qabs d)%Q.
Proof.
  intros H. rewrite Qabs_Qmult, (Qabs_pos c) by exact H. reflexivity.
Qed.

Lemma feed_avg_dev_bound (s : fzsync_stat) (alpha sample : Q) (n : nat) :
  (0 < alpha <= 1)%Q -> (sample == avg s)%Q ->
  (Qabs (avg_dev (feed alpha sample n s))
   * (1 + inject_Z (Z.of_nat n) * alpha) <= Qabs (avg_dev s))%Q.
Proof.
  intros [Ha0 Ha1] H. induction n as [|n IH].
  - cbn. ring_simplify. apply Qle_refl.
  - rewrite (@feed_avg_dev_step s alpha sample n H).
    rewrite Qabs_scale by lra.
    rewrite Nat2Z.inj_succ, <- Z.add_1_r, inject_Z_plus.
    set (m := inject_Z (Z.of_nat n)) in *.
    assert (Hm : (0 <= m)%Q).
    { unfold m. change 0%Q with (inject_Z 0). rewrite <- Zle_Qle. lia. }
    set (x := Qabs (avg_dev (@feed ExactFloat alpha sample n s))) in *.
    assert (Hx : (0 <= x)%Q) by apply Qabs_nonneg.
    eapply Qle_trans; [|exact IH].
    assert (E : (x * (1 + m * alpha)
                 - (1 - alpha) * x * (1 + (m + inject_Z 1) * alpha)
                 == x * ((m + 1) * (alpha * alpha)))%Q)
      by (change (inject_Z 1) with 1%Q; ring).
    assert (Hp : (0 <= x * ((m + 1) * (alpha * alpha)))%Q).
    { apply Qmult_le_0_compat; [exact Hx|].
      apply Qmult_le_0_compat; [lra|].
      apply Qmult_le_0_compat; lra. }
    lra.
Qed.

(** Without rounding (exact arithmetic): for [alpha] in (0,1] an update
    with [sample = avg] leaves [avg] at its value and multiplies [avg_dev]
    by [1 - alpha]; repeated, [avg] stays, [|avg_dev|] never grows, is at
    most [|avg_dev| / (1 + n alpha)] after [n] updates, and so falls below
    every positive bound. *)
Lemma ema_without_rounding :
  forall (s : fzsync_stat) (alpha sample : Q),
    (0 < alpha <= 1)%Q -> (sample == avg s)%Q ->
    (avg (fzsync_upd_stat s alpha sample) == avg s)%Q /\
    (avg_dev (fzsync_upd_stat s alpha sample) == (1 - alpha) * avg_dev s)%Q /\
    (forall n : nat,
       (avg (feed alpha sample n s) == avg s)%Q /\
       (avg_dev (feed alpha sample (S n) s)
        == (1 - alpha) * avg_dev (feed alpha sample n s))%Q /\
       (Qabs (avg_dev (feed alpha sample (S n) s))
        <= Qabs (avg_dev (feed alpha sample n s)))%Q /\
       (Qabs (avg_dev (feed alpha sample n s))
        * (1 + inject_Z (Z.of_nat n) * alpha) <= Qabs (avg_dev s))%Q) /\
    (forall eps : Q, (0 < eps)%Q ->
       exists N : nat, forall n : nat, (N <= n)%nat ->
         (Qabs (avg_dev (feed alpha sample n s)) < eps)%Q).
Proof.
  intros s alpha sample Ha H.
  destruct (@upd_stat_at_avg s alpha sample H) as [H1 H2].
  split; [exact H1|]. split; [exact H2|]. split.
  - intros n. split; [now apply feed_avg|].
    split; [now apply feed_avg_dev_step|].
    split; [|now apply feed_avg_dev_bound].
    rewrite (@feed_avg_dev_step s alpha sample n H).
    rewrite Qabs_scale by lra.
    pose proof (Qabs_nonneg (avg_dev (@feed ExactFloat alpha sample n s))) as Hx.
    set (x := Qabs (avg_dev (@feed ExactFloat alpha sample n s))) in *.
    assert (Hp : (0 <= alpha * x)%Q) by (apply Qmult_le_0_compat; lra).
    assert (E : ((1 - alpha) * x == x - alpha * x)%Q) by ring.
    lra.
  - intros eps Heps.
    set (d := Qabs (avg_dev s)).
    assert (Hd : (0 <= d)%Q) by apply Qabs_nonneg.
    set (x := (d / (eps * alpha))%Q).
    exists (Z.to_nat (Qceiling x)). intros n Hn.
    pose proof (@feed_avg_dev_bound s alpha sample n Ha H) as Hb. fold d in Hb.
    set (y := Qabs (avg_dev (@feed ExactFloat alpha sample n s))) in *.
    assert (Hy : (0 <= y)%Q) by apply Qabs_nonneg.
    set (m := inject_Z (Z.of_nat n)) in *.
    assert (Hxm : (x <= m)%Q).
    { eapply Qle_trans; [apply Qle_ceiling|].
      unfold m. rewrite <- Zle_Qle. lia. }
    assert (Hea : (0 < eps * alpha)%Q) by (apply Qmult_lt_0_compat; lra).
    assert (Hdm : (d <= m * (eps * alpha))%Q).
    { assert (E : (d == x * (eps * alpha))%Q).
      { unfold x. field. repeat split; lra. }
      rewrite E. apply Qmult_le_compat_r; [exact Hxm | lra]. }
    assert (Hm : (0 <= m)%Q).
    { unfold m. change 0%Q with (inject_Z 0). rewrite <- Zle_Qle. lia. }
    assert (Hpos : (0 < 1 + m * alpha)%Q).
    { assert (0 <= m * alpha)%Q by (apply Qmult_le_0_compat; lra). lra. }
    apply Qnot_le_lt. intros Hle.
    assert (Hc : (eps * (1 + m * alpha) <= y * (1 + m * alpha))%Q)
      by (apply Qmult_le_compat_r; [exact Hle | lra]).
    assert (E : (eps * (1 + m * alpha) == eps + m * (eps * alpha))%Q) by ring.
    lra.
Qed.

Section EmaGeneric.
Context {FO : FloatOps}.



End EmaGeneric.




(** ** The iteration budget *)

Section Loops.
Context {FO : FloatOps}.

Lemma update_loop_fields (p : fzsync_pair) (draw : dbl) :
  loop_frame p (fst (fzsync_pair_update p draw)) /\
  exec_loop (fst (fzsync_pair_update p draw)) = exec_loop p.
Proof.
  unfold loop_frame, fzsync_pair_update. cbn.
  break_ifs; cbn; repeat split; reflexivity.
Qed.

Lemma body_op_loop_fields (o : body_op) (p : fzsync_pair) :
  loop_frame p (fst (exec_body_op o p)) /\
  exec_loop (fst (exec_body_op o p)) = exec_loop p.
Proof.
  destruct o; cbn.
  1: apply update_loop_fields.
  1: { unfold fzsync_start_race_a.
       pose proof (update_loop_fields p draw) as H.
       destruct (fzsync_pair_update p draw) as [u l]. exact H. }
  all: unfold loop_frame, fzsync_end_race_a, fzsync_end_race_b,
         fzsync_start_race_b, fzsync_wait_a, fzsync_wait_b, fzsync_run_b,
         pair_wait_done, fzsync_pair_add_bias, fzsync_pair_cleanup;
       break_ifs; cbn; repeat split; reflexivity.
Qed.

Lemma loop_frame_trans (p q r : fzsync_pair) :
  loop_frame p q -> loop_frame q r -> loop_frame p r.
Proof. unfold loop_frame. intuition congruence. Qed.

Lemma body_loop_fields (os : list body_op) :
  forall p : fzsync_pair,
    loop_frame p (exec_body os p) /\ exec_loop (exec_body os p) = exec_loop p.
Proof.
  induction os as [|o os IH]; intros p; cbn.
  - unfold loop_frame. repeat split; reflexivity.
  - destruct (body_op_loop_fields o p) as [H1 H2].
    destruct (IH (fst (exec_body_op o p))) as [H3 H4].
    split; [eapply loop_frame_trans; eauto | congruence].
Qed.

Lemma budget_left_frame (p q : fzsync_pair) (now : timespec) :
  loop_frame p q -> budget_left p now -> budget_left q now.
Proof.
  unfold loop_frame, budget_left, fzsync_timeout_remaining.
  intros (_ & -> & ->) H. exact H.
Qed.

(** One call of [fzsync_run_a] while time is left: it goes on exactly
    when the incremented loop index does not exceed [exec_loops]. *)
Lemma run_a_step (p : fzsync_pair) (os : os_env) (rv : rendezvous) :
  budget_left p (clock_now os) ->
  exists (q : fzsync_pair) (log : list msg),
    fzsync_run_a p os rv
    = Some (q, (if wrap32 (exec_loop p + 1) >? exec_loops p then 0 else 1), log)
    /\ loop_frame p q /\ exec_loop q = wrap32 (exec_loop p + 1).
Proof.
  intros (r & Hr & Hnz). unfold fzsync_run_a. rewrite Hr, Hnz. cbn.
  set (c1 := fgt _ _ && _).
  destruct c1; cbn;
    destruct (wrap32 (exec_loop p + 1) >? exec_loops p) eqn:E; cbn;
    eexists; eexists; (split; [reflexivity|]);
    unfold loop_frame, fzsync_pair_cleanup; cbn;
    break_ifs; cbn; repeat split; reflexivity.
Qed.

Lemma calls_a_S (inp : nat -> iter_input) (k i : nat) (p : fzsync_pair) :
  calls_a (S k) i inp p =
    match fzsync_run_a p (it_os (inp i)) (it_rv (inp i)) with
    | Some (p1, r, _) =>
        if r =? 0 then Some (p1, [r])
        else
          match calls_a k (S i) inp (exec_body (it_body (inp i)) p1) with
          | Some (p2, rs) => Some (p2, r :: rs)
          | None => None
          end
    | None => None
    end.
Proof. reflexivity. Qed.

(** While the loop index stays below the budget every call goes on. *)
Lemma calls_a_continue (inp : nat -> iter_input) (k : nat) :
  forall (i : nat) (p : fzsync_pair),
    (forall j, budget_left p (clock_now (it_os (inp j)))) ->
    exec_loop p = Z.of_nat i ->
    Z.of_nat (i + k) <= exec_loops p -> exec_loops p <= INT_MAX ->
    exists q : fzsync_pair,
      calls_a k i inp p = Some (q, repeat 1 k) /\
      loop_frame p q /\ exec_loop q = Z.of_nat (i + k).
Proof.
  induction k as [|k IH]; intros i p Hb Hi Hk Hmax.
  - exists p. cbn. rewrite Nat.add_0_r.
    unfold loop_frame. repeat split; auto.
  - destruct (@run_a_step p (it_os (inp i)) (it_rv (inp i)) (Hb i))
      as (q & log & Hrun & Hfr & Hl).
    assert (Hw : wrap32 (exec_loop p + 1) = Z.of_nat (S i)).
    { rewrite Hi. rewrite wrap32_small; unfold INT_MIN, INT_MAX in *; lia. }
    rewrite Hw in *.
    assert (E : (Z.of_nat (S i) >? exec_loops p) = false)
      by (rewrite Z.gtb_ltb; apply Z.ltb_ge; lia).
    rewrite E in Hrun.
    destruct (body_loop_fields (it_body (inp i)) q) as [Hfr' Hl'].
    pose proof (@loop_frame_trans _ _ _ Hfr Hfr') as Hfr2.
    destruct (IH (S i) (exec_body (it_body (inp i)) q)) as (q' & Hc & Hf & He).
    + intros j. eapply budget_left_frame; [exact Hfr2 | apply Hb].
    + congruence.
    + destruct Hfr2 as (-> & _). lia.
    + destruct Hfr2 as (-> & _). exact Hmax.
    + exists q'. cbn [calls_a]. rewrite Hrun. cbn. rewrite Hc.
      split; [reflexivity|]. split.
      * eapply loop_frame_trans; eauto.
      * rewrite He. f_equal. lia.
Qed.

(** The claim of C7 for every budget below the largest [int]: the first
    [N] calls go on and call [N+1] stops. *)
Lemma run_a_stops_after_budget (inp : nat -> iter_input) (p : fzsync_pair)
  (n : nat) :
  (forall j, budget_left p (clock_now (it_os (inp j)))) ->
  exec_loop p = 0 -> exec_loops p = Z.of_nat n -> 20 <= Z.of_nat n < INT_MAX ->
  exists q : fzsync_pair,
    calls_a (S n) 0 inp p = Some (q, repeat 1 n ++ [0]).
Proof.
  intros Hb H0 Hn Hr.
  assert (forall (k i : nat) (p : fzsync_pair),
    (forall j, budget_left p (clock_now (it_os (inp j)))) ->
    exec_loop p = Z.of_nat i -> exec_loops p = Z.of_nat (i + k) ->
    Z.of_nat (i + k) < INT_MAX ->
    exists q, calls_a (S k) i inp p = Some (q, repeat 1 k ++ [0])) as G.
  { clear. induction k as [|k IH]; intros i p Hb Hi Hn Hr.
    - destruct (@run_a_step p (it_os (inp i)) (it_rv (inp i)) (Hb i))
        as (q & log & Hrun & Hfr & Hl).
      rewrite Hi, wrap32_small in Hrun
        by (unfold INT_MIN, INT_MAX in *; lia).
      assert (E : (Z.of_nat i + 1 >? exec_loops p) = true)
        by (apply Z.gtb_lt; lia).
      rewrite E in Hrun. exists q. cbn. rewrite Hrun. reflexivity.
    - destruct (@run_a_step p (it_os (inp i)) (it_rv (inp i)) (Hb i))
        as (q & log & Hrun & Hfr & Hl).
      rewrite Hi, wrap32_small in Hrun, Hl
        by (unfold INT_MIN, INT_MAX in *; lia).
      assert (E : (Z.of_nat i + 1 >? exec_loops p) = false)
        by (rewrite Z.gtb_ltb; apply Z.ltb_ge; lia).
      rewrite E in Hrun.
      destruct (body_loop_fields (it_body (inp i)) q) as [Hfr' Hl'].
      pose proof (@loop_frame_trans _ _ _ Hfr Hfr') as Hfr2.
      destruct (IH (S i) (exec_body (it_body (inp i)) q)) as (q' & Hc).
      + intros j. eapply budget_left_frame; [exact Hfr2 | apply Hb].
      + rewrite Hl', Hl. lia.
      + destruct Hfr2 as (-> & _). rewrite Hn. f_equal. lia.
      + lia.
      + exists q'. rewrite calls_a_S, Hrun. cbn -[calls_a]. rewrite Hc.
        reflexivity. }
  apply G; auto. lia.
Qed.

(** C7, where the code departs from it.  With [exec_loops = INT_MAX] and
    time never running out, the first [INT_MAX] calls of [fzsync_run_a] go
    on, and so does call [INT_MAX + 1]: its increment takes the loop index
    from [INT_MAX] to [INT_MIN], which does not exceed [exec_loops]. *)
Theorem run_a_past_int_max :
  forall (inp : nat -> iter_input) (p : fzsync_pair) (n : nat),
    (forall j, budget_left p (clock_now (it_os (inp j)))) ->
    exec_loop p = 0 -> exec_loops p = INT_MAX -> Z.of_nat n = INT_MAX ->
    exists q : fzsync_pair,
      calls_a (S n) 0 inp p = Some (q, repeat 1 (S n)) /\
      exec_loop q = INT_MIN.
Proof.
  intros inp p n Hb H0 Hmax Hn.
  destruct (@calls_a_continue inp n 0%nat p Hb) as (q & Hc & Hfr & Hl);
    [exact H0 | lia | lia |].
  assert (forall (k i : nat) (p q : fzsync_pair) (rs : list Z),
    calls_a k i inp p = Some (q, rs) -> ~ In 0 rs ->
    forall q' r,
      calls_a 1 (i + k) inp q = Some (q', [r]) ->
      calls_a (S k) i inp p = Some (q', rs ++ [r])) as Happ.
  { clear. induction k as [|k IH]; intros i p q rs Hc Hz q' r H1.
    - cbn in Hc. inversion Hc; subst. rewrite Nat.add_0_r in H1. exact H1.
    - rewrite calls_a_S in Hc. rewrite (calls_a_S inp (S k) i p).
      destruct (fzsync_run_a p (it_os (inp i)) (it_rv (inp i)))
        as [[[p1 r1] l1]|]; [|discriminate].
      destruct (r1 =? 0) eqn:E.
      + inversion Hc; subst. apply Z.eqb_eq in E. subst.
        exfalso. apply Hz. now left.
      + destruct (calls_a k (S i) inp (exec_body (it_body (inp i)) p1))
          as [[p2 rs2]|] eqn:E2; [|discriminate].
        inversion Hc; subst.
        rewrite (IH (S i) _ _ _ E2) with (q' := q') (r := r).
        * reflexivity.
        * intros Hin. apply Hz. now right.
        * replace (S i + k)%nat with (i + S k)%nat by lia. exact H1. }
  assert (Hb' : budget_left q (clock_now (it_os (inp n))))
    by (eapply budget_left_frame; [exact Hfr | apply Hb]).
  destruct (@run_a_step q (it_os (inp n)) (it_rv (inp n)) Hb')
    as (q' & log & Hrun & Hfr' & Hl').
  cbn [Nat.add] in Hl. rewrite Hl, Hn in Hrun, Hl'.
  change (wrap32 (INT_MAX + 1)) with INT_MIN in Hrun, Hl'.
  destruct Hfr as (He & _). rewrite He, Hmax in Hrun.
  change (INT_MIN >? INT_MAX) with false in Hrun.
  exists (exec_body (it_body (inp n)) q'). split.
  2: { destruct (body_loop_fields (it_body (inp n)) q') as [_ Hx].
       now rewrite Hx. }
  replace (repeat 1 (S n)) with (repeat 1 n ++ [1]).
  - eapply Happ; [exact Hc | | ].
    + intros Hin. apply repeat_spec in Hin. discriminate.
    + cbn. rewrite Hrun. reflexivity.
  - change [1] with (repeat 1 1). rewrite <- repeat_app.
    f_equal. lia.
Qed.

End Loops.

(** C7's departure, one second into a budget of 150 s at every call. *)
Lemma run_a_past_int_max_witness :
  exists q : fzsync_pair,
    calls_a (S (Z.to_nat INT_MAX)) 0 (fun _ => one_second_in) max_loops_pair
    = Some (q, repeat 1 (S (Z.to_nat INT_MAX))) /\
    exec_loop q = INT_MIN.
Proof.
  apply run_a_past_int_max.
  - intros j. exists 149. split; reflexivity.
  - reflexivity.
  - reflexivity.
  - apply Z2Nat.id. discriminate.
Defined.

(** ** The rendezvous *)

Module BarrierFacts.
Import Barrier.

Local Unset Implicit Arguments.

Lemma pos_0 : pos 0 = 0.
Proof. reflexivity. Qed.

Lemma pos_range (n : Z) :
  0 <= n -> 0 <= pos n <= INT_MAX /\ (1 <= n -> 1 <= pos n).
Proof.
  intros H. unfold pos, INT_MAX.
  destruct (Z.leb_spec n 0).
  - lia.
  - pose proof (Z.mod_pos_bound (n - 1) 2147483647 ltac:(lia)). lia.
Qed.

Lemma pos_succ (n : Z) :
  0 <= n -> pos (n + 1) = if pos n =? INT_MAX then 1 else pos n + 1.
Proof.
  intros H. unfold pos, INT_MAX.
  destruct (Z.leb_spec (n + 1) 0); [lia|].
  destruct (Z.leb_spec n 0).
  - assert (n = 0) by lia. subst. reflexivity.
  - replace (n + 1 - 1) with (n - 1 + 1) by lia.
    pose proof (Z.mod_pos_bound (n - 1) 2147483647 ltac:(lia)).
    destruct (Z.eqb_spec ((n - 1) mod 2147483647 + 1) 2147483647) as [E|E].
    + rewrite <- Z.add_mod_idemp_l by lia.
      replace ((n - 1) mod 2147483647) with 2147483646 by lia.
      reflexivity.
    + rewrite <- Z.add_mod_idemp_l by lia.
      rewrite Z.mod_small by lia. reflexivity.
Qed.

(** A step seen from the thread that takes it. *)
Lemma step_view (t : tid) (c : bool) (s : state) :
  thr t (step t c s)
    = snd (thread_step c (our t s) (other t s) (thr t s)) /\
  other t (step t c s)
    = fst (fst (thread_step c (our t s) (other t s) (thr t s))) /\
  our t (step t c s) = our t s /\
  thr (peer t) (step t c s) = thr (peer t) s.
Proof.
  destruct t; unfold step; cbn;
    match goal with
    | |- context [thread_step ?a ?b ?d ?e] =>
        destruct (thread_step a b d e) as [[o spun] th]
    end; cbn; repeat split; reflexivity.
Qed.

Lemma inv_view (t : tid) (s : state) :
  inv s <->
  linv (thr t s) (other t s) /\ linv (thr (peer t) s) (our t s) /\
  cinv (thr t s) (other t s) (thr (peer t) s) (our t s) /\
  cinv (thr (peer t) s) (our t s) (thr t s) (other t s).
Proof. destruct t; unfold inv; cbn; tauto. Qed.

Ltac inv_prep :=
  repeat match goal with
    | H : _ -> Idle = Idle -> _ |- _ => specialize (fun h => H h eq_refl)
    | H : _ -> _ = Idle -> _ |- _ => clear H
    | H : _ /\ _ |- _ => destruct H
    | H : context [if ?b =? ?c then _ else _] |- _ =>
        destruct (Z.eqb_spec b c)
    | |- context [if ?b =? ?c then _ else _] => destruct (Z.eqb_spec b c)
    | |- context [if ?b >? ?c then _ else _] => destruct (Z.gtb_spec b c)
    | |- context [if ?b <? ?c then _ else _] => destruct (Z.ltb_spec b c)
    end.

Ltac inv_close :=
  cbn [t_pc t_calls t_count fst snd] in *;
  repeat match goal with
    | |- _ /\ _ => split
    | |- _ -> _ => intro
    end;
  try discriminate; try exact I; try lia;
  try (match goal with H : ?a = ?b :> Z |- _ => is_var a; is_var b; subst a end;
       lia).

(** The invariant is kept by a step of either thread. *)
Lemma thread_step_inv (c : bool) (x y : thread) (outx outy : Z) :
  linv x outx -> linv y outy ->
  cinv x outx y outy -> cinv y outy x outx ->
  linv (snd (thread_step c outy outx x))
       (fst (fst (thread_step c outy outx x))) /\
  cinv (snd (thread_step c outy outx x))
       (fst (fst (thread_step c outy outx x))) y outy /\
  cinv y outy (snd (thread_step c outy outx x))
       (fst (fst (thread_step c outy outx x))).
Proof.
  destruct x as [pcx cx nx], y as [pcy cy ny].
  unfold linv, cinv, thread_step, entering. cbn [t_pc t_calls t_count].
  intros [Hnx Lx] [Hny Ly] (C1 & C2 & C3) (D1 & D2 & D3).
  pose proof (pos_range nx Hnx) as [Rx Rx1].
  pose proof (pos_range ny Hny) as [Ry Ry1].
  pose proof (pos_succ nx Hnx) as Sx.
  pose proof (pos_succ ny Hny) as Sy.
  assert (Hw : 0 <= outx < INT_MAX -> wrap32 (outx + 1) = outx + 1).
  { intros Hr. apply wrap32_small. unfold INT_MIN, INT_MAX in *. lia. }
  destruct pcx; cbn [wait_step fst snd t_pc t_calls t_count] in *;
    try (rewrite Hw by (inv_prep; unfold INT_MAX in *; lia));
    destruct pcy; inv_prep; unfold INT_MAX in *; inv_close.
Qed.

Lemma inv_init : inv init.
Proof.
  unfold inv, linv, cinv, init. cbn.
  repeat split; try lia; intros; try discriminate; try reflexivity.
Qed.

Lemma inv_step (t : tid) (c : bool) (s : state) : inv s -> inv (step t c s).
Proof.
  intros H. apply (inv_view t) in H. destruct H as (L1 & L2 & C1 & C2).
  apply (inv_view t).
  destruct (step_view t c s) as (E1 & E2 & E3 & E4).
  rewrite E1, E2, E3, E4.
  destruct (thread_step_inv c _ _ _ _ L1 L2 C1 C2) as (A & B & C).
  split; [exact A | split; [exact L2 | split; [exact B | exact C]]].
Qed.

Lemma inv_run (sched : list (tid * bool)) :
  forall s : state, inv s -> inv (run sched s).
Proof.
  induction sched as [|[t c] sched IH]; intros s H; cbn; [exact H|].
  apply IH, inv_step, H.
Qed.

Lemma inv_reachable (s : state) : reachable s -> inv s.
Proof.
  induction 1 as [|s t c _ IH]; [apply inv_init | apply inv_step, IH].
Qed.

Lemma reachable_run (sched : list (tid * bool)) :
  forall s : state, reachable s -> reachable (run sched s).
Proof.
  induction sched as [|[t c] sched IH]; intros s H; cbn; [exact H|].
  apply IH, reach_step, H.
Qed.

Lemma run_app (s1 s2 : list (tid * bool)) (s : state) :
  run (s1 ++ s2) s = run s2 (run s1 s).
Proof.
  revert s. induction s1 as [|[t c] s1 IH]; intros s; cbn; [reflexivity|].
  apply IH.
Qed.

(** The counter a thread writes, by the number of its calls. *)
Lemma linv_out (x : thread) (out : Z) :
  linv x out ->
  0 <= t_calls x /\
  ((pos (t_calls x) < INT_MAX /\ out = pos (t_calls x)) \/
   (pos (t_calls x) = INT_MAX /\ (out = 0 \/ out = INT_MAX))) /\
  (t_pc x = Idle \/ 1 <= pos (t_calls x)).
Proof.
  destruct x as [pcx cx nx]. unfold linv. cbn [t_pc t_calls].
  intros [Hn L]. pose proof (pos_range nx Hn) as [R _].
  destruct pcx; inv_prep; unfold INT_MAX in *;
    (split; [lia|]); (split; [lia|]);
    first [left; reflexivity | right; lia].
Qed.

(** A thread that is one call ahead of its peer. *)
Lemma cinv_ahead (x y : thread) (outx outy : Z) :
  linv x outx -> cinv x outx y outy -> t_calls x = t_calls y + 1 ->
  outy = pos (t_calls x) - 1 /\ outx = pos (t_calls x) /\
  match t_pc x with
  | Idle | WrapStore | WrapWait => False
  | LoadOther v => v < pos (t_calls x)
  | _ => True
  end.
Proof.
  destruct x as [pcx cx nx]. unfold linv, cinv. cbn [t_pc t_calls].
  intros [Hn L] (_ & C2 & _) E. destruct (C2 E) as [E1 E2].
  destruct pcx; inv_prep; unfold INT_MAX in *;
    repeat split; try lia; try exact I; try contradiction.
Qed.

Lemma inv_facts (t : tid) (s : state) :
  inv s ->
  0 <= our t s <= INT_MAX /\ 0 <= other t s <= INT_MAX /\
  returns t s <= calls (peer t) s /\ calls t s <= calls (peer t) s + 1 /\
  (ahead t s -> our t s < other t s) /\
  (our t s < other t s -> ahead t s \/ reset_window s).
Proof.
  intros H. apply (inv_view t) in H. destruct H as (Lx & Ly & Cx & Cy).
  pose proof (linv_out _ _ Lx) as (Hnx & Ox & Ix).
  pose proof (linv_out _ _ Ly) as (Hny & Oy & Iy).
  pose proof (cinv_ahead _ _ _ _ Lx Cx) as Ax.
  pose proof (cinv_ahead _ _ _ _ Ly Cy) as Ay.
  destruct Cx as (C1 & _ & C3). destruct Cy as (D1 & _ & D3).
  unfold ahead, reset_window, returns, in_call, calls, entering.
  assert (Hw : (a_cntr s = our t s /\ b_cntr s = other t s /\
                t_calls (thr TA s) = t_calls (thr t s) /\
                t_calls (thr TB s) = t_calls (thr (peer t) s)) \/
               (a_cntr s = other t s /\ b_cntr s = our t s /\
                t_calls (thr TA s) = t_calls (thr (peer t) s) /\
                t_calls (thr TB s) = t_calls (thr t s)))
    by (destruct t; cbn; tauto).
  revert Hw Ox Ix Oy Iy Ax Ay C1 C3 D1 D3 Hnx Hny.
  generalize (a_cntr s) (b_cntr s) (t_calls (thr TA s)) (t_calls (thr TB s)).
  generalize (our t s) (other t s).
  destruct (thr t s) as [pcx cx nx], (thr (peer t) s) as [pcy cy ny].
  cbn [t_pc t_calls]. clear.
  intros our other a b na nb Hw Ox Ix Oy Iy Ax Ay C1 C3 D1 D3 Hnx Hny.
  pose proof (pos_range nx Hnx) as [Rx Rx1].
  pose proof (pos_range ny Hny) as [Ry Ry1].
  pose proof (pos_succ nx Hnx) as Sx.
  pose proof (pos_succ ny Hny) as Sy.
  assert (G1 : nx = ny -> pos nx = pos ny) by congruence.
  assert (G2 : nx + 1 = ny -> pos (nx + 1) = pos ny) by congruence.
  assert (G3 : ny + 1 = nx -> pos (ny + 1) = pos nx) by congruence.
  assert (Ax' : nx = ny + 1 -> other = pos nx /\ our = pos nx - 1 /\ pcx <> Idle).
  { intros E. destruct (Ax E) as (? & ? & K). repeat split; try lia.
    intros ->. exact K. }
  assert (Ay' : ny = nx + 1 -> our = pos ny /\ other = pos ny - 1).
  { intros E. destruct (Ay E) as (? & ? & K). lia. }
  clear Ax Ay.
  assert (C3' : nx = ny -> pcx = Idle -> our = other) by exact C3.
  clear C3 D3.
  assert (Hcase : nx = ny + 1 \/ nx = ny \/ ny = nx + 1) by lia.
  unfold INT_MAX in *.
  split; [clear - Oy Ry; lia|]. split; [clear - Ox Rx; lia|].
  split.
  { destruct pcx; cbn [negb]; try lia.
    assert (nx <> ny + 1) by (intros E; apply Ax' in E; tauto). lia. }
  split; [exact C1|]. split.
  { intros E. destruct (Ax' E) as (-> & -> & _). lia. }
  intros Hlt. destruct Hcase as [E|[E|E]].
  - now left.
  - right. specialize (G1 E). subst ny.
    assert (na = nb) by (clear - Hw; lia). split; [assumption|].
    clear - Hw Ox Oy G1 Hlt Rx. lia.
  - exfalso. destruct (Ay' E) as (-> & ->). lia.
Qed.

Lemma peer_peer (t : tid) : peer (peer t) = t.
Proof. destruct t; reflexivity. Qed.

Lemma our_peer (t : tid) (s : state) : our (peer t) s = other t s.
Proof. destruct t; reflexivity. Qed.

Lemma other_peer (t : tid) (s : state) : other (peer t) s = our t s.
Proof. destruct t; reflexivity. Qed.

(** A spinning thread is ahead of its peer, or it is in the last loop of
    the wrap-around path while its peer has not yet stored zero. *)
Lemma waiting_facts (t : tid) (s : state) :
  inv s -> waiting t s = true ->
  (ahead t s /\ our t s < other t s) \/
  (at_pc t s = WrapWait /\ calls t s = calls (peer t) s /\
   our t s = INT_MAX /\ other t s = 0).
Proof.
  intros H Hw.
  destruct (inv_facts t s H) as (_ & _ & _ & _ & Hah & Hlt).
  apply (inv_view t) in H. destruct H as (Lx & Ly & Cx & Cy).
  pose proof (linv_out _ _ Ly) as (Hny & Oy & _).
  pose proof (cinv_ahead _ _ _ _ Lx Cx) as Ax.
  pose proof (cinv_ahead _ _ _ _ Ly Cy) as Ay.
  destruct Cx as (C1 & _ & _). destruct Cy as (D1 & _ & _).
  unfold waiting, at_pc, ahead, reset_window, calls in *.
  assert (Hab : (a_cntr s = our t s /\ b_cntr s = other t s) \/
                (a_cntr s = other t s /\ b_cntr s = our t s))
    by (destruct t; cbn; tauto).
  destruct (thr t s) as [pcx cx nx] eqn:Ex.
  unfold linv in Lx. cbn [t_pc t_calls] in *.
  destruct Lx as [Hnx Lx].
  pose proof (pos_range nx Hnx) as [Rx _].
  assert (G1 : nx = t_calls (thr (peer t) s) ->
               pos nx = pos (t_calls (thr (peer t) s))) by congruence.
  unfold INT_MAX in *.
  destruct pcx; try discriminate.
  - (* WrapTest1 *)
    apply andb_prop in Hw as [H1 H2].
    apply Z.gtb_lt in H1. apply Z.ltb_lt in H2.
    left. destruct Lx as [Lp Lo].
    destruct (Hlt ltac:(lia)) as [E|[_ E]]; [split; [exact E | lia] | lia].
  - (* WrapTest2 *)
    apply andb_prop in Hw as [H1 H2].
    apply Z.gtb_lt in H1. apply Z.ltb_lt in H2.
    left. destruct Lx as [Lp Lo].
    destruct (Hlt ltac:(lia)) as [E|[_ E]]; [split; [exact E | lia] | lia].
  - (* WrapWait *)
    apply Z.gtb_lt in Hw. right. destruct Lx as [Lp Lo].
    split; [reflexivity|].
    assert (nx <> t_calls (thr (peer t) s) + 1)
      by (intros E; destruct (Ax E) as (_ & _ & [])).
    assert (t_calls (thr (peer t) s) <> nx + 1).
    { intros E. destruct (Ay E) as (E1 & E2 & _). lia. }
    assert (E : nx = t_calls (thr (peer t) s)) by lia.
    specialize (G1 E). split; [exact E|]. lia.
  - (* LoadOur *)
    apply Z.ltb_lt in Hw. left. destruct Lx as [Lp Lo].
    destruct (Hlt Hw) as [E|[_ E]]; [split; [exact E | lia] | lia].
  - (* LoadOther *)
    apply Z.ltb_lt in Hw. left. destruct Lx as [Lp Lo].
    destruct (Hlt Hw) as [E|[_ E]]; [split; [exact E | lia] | lia].
Qed.

(** A step, by the program point of the thread that takes it. *)
Lemma step_pc (t : tid) (c : bool) (s : state) :
  our t (step t c s) = our t s /\
  thr (peer t) (step t c s) = thr (peer t) s /\
  match at_pc t s with
  | Idle =>
      calls t (step t c s) = calls t s + 1 /\
      other t (step t c s) = wrap32 (other t s + 1) /\
      at_pc t (step t c s)
      = (if wrap32 (other t s + 1) =? INT_MAX then WrapTest1 else LoadOur)
  | WrapTest1 =>
      calls t (step t c s) = calls t s /\
      other t (step t c s) = other t s /\
      at_pc t (step t c s) = (if our t s >? 0 then WrapTest2 else WrapStore)
  | WrapTest2 =>
      calls t (step t c s) = calls t s /\
      other t (step t c s) = other t s /\
      at_pc t (step t c s)
      = (if our t s <? INT_MAX then WrapTest1 else WrapStore)
  | WrapStore =>
      calls t (step t c s) = calls t s /\
      other t (step t c s) = 0 /\ at_pc t (step t c s) = WrapWait
  | WrapWait =>
      calls t (step t c s) = calls t s /\
      other t (step t c s) = other t s /\
      at_pc t (step t c s) = (if our t s >? 1 then WrapWait else Idle)
  | LoadOur =>
      calls t (step t c s) = calls t s /\
      other t (step t c s) = other t s /\
      at_pc t (step t c s) = LoadOther (our t s)
  | LoadOther v =>
      calls t (step t c s) = calls t s /\
      other t (step t c s) = other t s /\
      at_pc t (step t c s) = (if v <? other t s then LoadOur else Idle)
  end.
Proof.
  destruct (step_view t c s) as (E1 & E2 & E3 & E4).
  split; [exact E3|]. split; [exact E4|].
  unfold at_pc, calls. rewrite E1, E2.
  destruct (thr t s) as [pcx cx nx]. unfold thread_step, entering.
  cbn [t_pc t_calls t_count].
  destruct pcx; cbn [wait_step fst snd t_pc t_calls];
    repeat match goal with
      | |- context [if ?b then _ else _] => destruct b
      end; cbn; repeat split; reflexivity.
Qed.

Lemma solo_refl (t : tid) (s : state) : solo t s s.
Proof. split; [exists []; reflexivity | repeat split]. Qed.

Lemma solo_trans (t : tid) (s1 s2 s3 : state) :
  solo t s1 s2 -> solo t s2 s3 -> solo t s1 s3.
Proof.
  intros ([k1 ->] & A1 & A2 & A3) ([k2 ->] & B1 & B2 & B3).
  split; [exists (k1 ++ k2); now rewrite run_app|].
  repeat split; congruence.
Qed.

Lemma solo_step (t : tid) (s : state) :
  at_pc t s <> Idle -> solo t s (step t false s).
Proof.
  intros H. destruct (step_pc t false s) as (E1 & E2 & E3).
  split; [exists [(t, false)]; reflexivity|].
  split; [|split; assumption].
  destruct (at_pc t s); try contradiction; apply E3.
Qed.

(** The ordinary loop ends once the peer has caught up. *)
Lemma solo_load (t : tid) (s : state) :
  (at_pc t s = LoadOur \/ exists v, at_pc t s = LoadOther v) ->
  other t s <= our t s ->
  exists s', solo t s s' /\ at_pc t s' = Idle.
Proof.
  intros Hpc Hle.
  assert (G : forall s0, at_pc t s0 = LoadOur -> other t s0 <= our t s0 ->
              exists s', solo t s0 s' /\ at_pc t s' = Idle).
  { clear. intros s0 Hpc Hle.
    pose proof (solo_step t s0 ltac:(rewrite Hpc; discriminate)) as S1.
    destruct (step_pc t false s0) as (E1 & _ & E3). rewrite Hpc in E3.
    destruct E3 as (_ & E4 & E5).
    set (s1 := step t false s0) in *.
    pose proof (solo_step t s1 ltac:(rewrite E5; discriminate)) as S2.
    destruct (step_pc t false s1) as (_ & _ & F3). rewrite E5 in F3.
    destruct F3 as (_ & _ & F5).
    assert (E : (our t s0 <? other t s1) = false)
      by (apply Z.ltb_ge; rewrite E4; exact Hle).
    rewrite E in F5.
    exists (step t false s1). split; [eapply solo_trans; eauto | exact F5]. }
  destruct Hpc as [Hpc|[v Hpc]]; [now apply G|].
  pose proof (solo_step t s ltac:(rewrite Hpc; discriminate)) as S1.
  destruct (step_pc t false s) as (E1 & _ & E3). rewrite Hpc in E3.
  destruct E3 as (_ & E4 & E5).
  destruct (v <? other t s).
  - destruct (G (step t false s) E5) as (s' & S2 & Hs');
      [rewrite E1, E4; exact Hle|].
    exists s'. split; [eapply solo_trans; eauto | exact Hs'].
  - exists (step t false s). split; assumption.
Qed.

(** The last loop of the wrap-around path ends once the peer's store
    has been seen. *)
Lemma solo_wrap_wait (t : tid) (s : state) :
  at_pc t s = WrapWait -> our t s <= 1 ->
  exists s', solo t s s' /\ at_pc t s' = Idle.
Proof.
  intros Hpc Hle.
  pose proof (solo_step t s ltac:(rewrite Hpc; discriminate)) as S1.
  destruct (step_pc t false s) as (_ & _ & E3). rewrite Hpc in E3.
  destruct E3 as (_ & _ & E5).
  assert (E : (our t s >? 1) = false) by (rewrite Z.gtb_ltb; apply Z.ltb_ge; lia).
  rewrite E in E5. exists (step t false s). split; assumption.
Qed.

(** The first loop of the wrap-around path ends, and the store follows,
    once the peer's counter is at zero or at the maximum. *)
Lemma solo_wrap_store (t : tid) (s : state) :
  (at_pc t s = WrapTest1 \/ at_pc t s = WrapTest2 \/ at_pc t s = WrapStore) ->
  (our t s = 0 \/ our t s = INT_MAX) ->
  exists s', solo t s s' /\ at_pc t s' = WrapWait /\ other t s' = 0.
Proof.
  intros Hpc Hour.
  assert (G3 : forall s0, at_pc t s0 = WrapStore ->
              exists s', solo t s0 s' /\ at_pc t s' = WrapWait /\ other t s' = 0).
  { clear. intros s0 Hpc.
    pose proof (solo_step t s0 ltac:(rewrite Hpc; discriminate)) as S1.
    destruct (step_pc t false s0) as (_ & _ & E3). rewrite Hpc in E3.
    destruct E3 as (_ & E4 & E5).
    exists (step t false s0). repeat split; assumption || apply S1. }
  assert (G2 : forall s0, at_pc t s0 = WrapTest2 -> our t s0 = INT_MAX ->
              exists s', solo t s0 s' /\ at_pc t s' = WrapWait /\ other t s' = 0).
  { clear - G3. intros s0 Hpc Ho.
    pose proof (solo_step t s0 ltac:(rewrite Hpc; discriminate)) as S1.
    destruct (step_pc t false s0) as (_ & _ & E3). rewrite Hpc in E3.
    destruct E3 as (_ & _ & E5). rewrite Ho in E5. cbn in E5.
    destruct (G3 _ E5) as (s' & S2 & Hs').
    exists s'. split; [eapply solo_trans; eauto | exact Hs']. }
  assert (G1 : forall s0, at_pc t s0 = WrapTest1 ->
              (our t s0 = 0 \/ our t s0 = INT_MAX) ->
              exists s', solo t s0 s' /\ at_pc t s' = WrapWait /\ other t s' = 0).
  { clear - G2 G3. intros s0 Hpc Ho.
    pose proof (solo_step t s0 ltac:(rewrite Hpc; discriminate)) as S1.
    destruct (step_pc t false s0) as (E1 & _ & E3). rewrite Hpc in E3.
    destruct E3 as (_ & _ & E5).
    destruct Ho as [Ho|Ho]; rewrite Ho in E5; cbn in E5.
    - destruct (G3 _ E5) as (s' & S2 & Hs').
      exists s'. split; [eapply solo_trans; eauto | exact Hs'].
    - destruct (G2 _ E5) as (s' & S2 & Hs'); [now rewrite E1|].
      exists s'. split; [eapply solo_trans; eauto | exact Hs']. }
  destruct Hpc as [Hpc|[Hpc|Hpc]]; [now apply G1 | | now apply G3].
  destruct Hour as [Ho|Ho]; [|now apply G2].
  pose proof (solo_step t s ltac:(rewrite Hpc; discriminate)) as S1.
  destruct (step_pc t false s) as (E1 & _ & E3). rewrite Hpc in E3.
  destruct E3 as (_ & _ & E5). rewrite Ho in E5. cbn in E5.
  destruct (G1 _ E5) as (s' & S2 & Hs'); [left; now rewrite E1|].
  exists s'. split; [eapply solo_trans; eauto | exact Hs'].
Qed.

Lemma solo_can_return (t : tid) (s s' : state) :
  solo t s s' -> at_pc t s' = Idle -> can_return t s.
Proof.
  intros ([k ->] & E & _) H. exists k. split; assumption.
Qed.

Lemma solo_inv (t : tid) (s s' : state) : solo t s s' -> inv s -> inv s'.
Proof. intros ([k ->] & _) H. now apply inv_run. Qed.

(** The peer is one call ahead: the thread leaves its call on its own. *)
Lemma progress_behind (t : tid) (s : state) :
  inv s -> in_call t s = true -> calls (peer t) s = calls t s + 1 ->
  exists s', solo t s s' /\ at_pc t s' = Idle.
Proof.
  intros H Hin Hc.
  apply (inv_view t) in H. destruct H as (Lx & Ly & Cx & Cy).
  destruct (cinv_ahead _ _ _ _ Ly Cy Hc) as (E1 & E2 & _).
  pose proof (linv_out _ _ Ly) as (Hny & _).
  pose proof (pos_range _ Hny) as [Ry _].
  unfold in_call, entering, calls in *.
  assert (Hpc : at_pc t s = t_pc (thr t s)) by reflexivity.
  destruct (thr t s) as [pcx cx nx]. unfold linv in Lx.
  cbn [t_pc t_calls] in *. destruct Lx as [_ Lx].
  unfold INT_MAX in *.
  destruct pcx; try discriminate.
  - lia.
  - lia.
  - lia.
  - apply solo_wrap_wait; [exact Hpc | lia].
  - apply solo_load; [now left | lia].
  - apply solo_load; [right; eexists; exact Hpc | lia].
Qed.

(** Both threads are in the same rendezvous. *)
Lemma progress_equal (t : tid) (s : state) :
  inv s -> in_call t s = true -> calls t s = calls (peer t) s ->
  can_return t s.
Proof.
  intros H Hin Hc.
  assert (W : forall s0, inv s0 -> at_pc t s0 = WrapWait ->
                calls t s0 = calls (peer t) s0 -> can_return t s0).
  { clear. intros s H Hpc Hc.
    pose proof H as H0.
    apply (inv_view t) in H. destruct H as (Lx & Ly & Cx & Cy).
    pose proof (linv_out _ _ Ly) as (Hny & Oy & _).
    unfold calls, at_pc in *.
    assert (Hpos : pos (t_calls (thr t s)) = INT_MAX).
    { destruct (thr t s) as [pcx cx nx]. cbn in Hpc. subst pcx.
      destruct Lx as [_ [Lx _]]. exact Lx. }
    rewrite <- Hc, Hpos in Oy.
    destruct Oy as [[Oy _]|[_ [Oy|Oy]]]; [lia | |].
    - destruct (solo_wrap_wait t s Hpc ltac:(lia)) as (s' & S & Hs').
      eapply solo_can_return; eauto.
    - assert (Hy : at_pc (peer t) s = WrapTest1 \/ at_pc (peer t) s = WrapTest2
                   \/ at_pc (peer t) s = WrapStore).
      { unfold at_pc. destruct (thr (peer t) s) as [pcy cy ny].
        unfold linv in Ly. cbn [t_pc t_calls] in *. destruct Ly as [_ Ly].
        rewrite <- Hc, Hpos in Ly. unfold INT_MAX in *.
        destruct pcy; try tauto; cbn in Ly; lia. }
      assert (Hox : other t s = 0).
      { destruct (thr t s) as [pcx cx nx]. cbn in Hpc. subst pcx.
        destruct Lx as [_ [_ Lx]]. exact Lx. }
      destruct (solo_wrap_store (peer t) s Hy) as (s1 & S1 & _ & Ho1).
      { left. rewrite our_peer. exact Hox. }
      pose proof S1 as (K1 & _ & _ & K4). rewrite peer_peer in K4.
      rewrite other_peer in Ho1.
      destruct (solo_wrap_wait t s1) as (s2 & S2 & Hs2).
      { unfold at_pc. rewrite K4. exact Hpc. }
      { lia. }
      destruct K1 as [k1 ->]. destruct S2 as ([k2 ->] & L1 & _).
      exists (k1 ++ k2). rewrite run_app. split; [exact Hs2|].
      rewrite L1. unfold calls. now rewrite K4. }
  pose proof H as H0.
  apply (inv_view t) in H. destruct H as (Lx & Ly & Cx & Cy).
  pose proof (linv_out _ _ Ly) as (Hny & Oy & _).
  unfold in_call, entering, calls in *.
  assert (Hpc : at_pc t s = t_pc (thr t s)) by reflexivity.
  assert (Hcl : calls t s = t_calls (thr t s)) by reflexivity.
  destruct (thr t s) as [pcx cx nx] eqn:Ex. unfold linv in Lx.
  cbn [t_pc t_calls] in *. destruct Lx as [_ Lx]. rewrite <- Hc in Oy.
  assert (Wpre : pos nx = INT_MAX ->
                 (at_pc t s = WrapTest1 \/ at_pc t s = WrapTest2 \/
                  at_pc t s = WrapStore) -> can_return t s).
  { intros Hp Hpre.
    destruct (solo_wrap_store t s Hpre) as (s1 & S1 & Hs1 & _).
    { unfold INT_MAX in *. lia. }
    pose proof S1 as (K1 & K2 & _ & K4).
    destruct (W s1 (solo_inv _ _ _ S1 H0) Hs1) as (k2 & L1 & L2).
    { unfold calls in K2. rewrite K2, K4, Ex. exact Hc. }
    destruct K1 as [k1 ->].
    exists (k1 ++ k2). rewrite run_app. split; [exact L1 | congruence]. }
  unfold INT_MAX in *.
  destruct pcx; try discriminate.
  - apply Wpre; [apply Lx | now left].
  - apply Wpre; [apply Lx | right; now left].
  - apply Wpre; [apply Lx | right; now right].
  - apply W; [exact H0 | exact Hpc |].
    unfold calls. rewrite Ex. exact Hc.
  - destruct (solo_load t s) as (s' & S & Hs'); [now left | lia |].
    eapply solo_can_return; eauto.
  - destruct (solo_load t s) as (s' & S & Hs');
      [right; eexists; exact Hpc | lia |].
    eapply solo_can_return; eauto.
Qed.

(** No deadlock: a thread inside the call can always be brought to return
    from it. *)
Lemma progress (t : tid) (s : state) :
  inv s -> in_call t s = true -> can_return t s.
Proof.
  intros H Hin.
  destruct (inv_facts t s H) as (_ & _ & _ & Hle & _).
  destruct (inv_facts (peer t) s H) as (_ & _ & _ & Hle' & _).
  rewrite peer_peer in Hle'.
  assert (Hcase : calls (peer t) s = calls t s + 1 \/
                  calls t s = calls (peer t) s \/
                  calls t s = calls (peer t) s + 1) by lia.
  destruct Hcase as [E|[E|E]].
  - destruct (progress_behind t s H Hin E) as (s' & S & Hs').
    eapply solo_can_return; eauto.
  - now apply progress_equal.
  - (* the peer first leaves its call, if it is in one, then enters the next *)
    assert (P : exists s1, solo (peer t) s s1 /\ at_pc (peer t) s1 = Idle).
    { destruct (in_call (peer t) s) eqn:Hp.
      - apply progress_behind; [exact H | exact Hp |].
        rewrite peer_peer. exact E.
      - exists s. split; [apply solo_refl|].
        unfold in_call, entering, at_pc in *.
        destruct (t_pc (thr (peer t) s)); try discriminate; reflexivity. }
    destruct P as (s1 & S1 & Hs1).
    pose proof S1 as (K1 & K2 & _ & K4). rewrite peer_peer in K4.
    set (s2 := step (peer t) false s1).
    destruct (step_pc (peer t) false s1) as (_ & F2 & F3).
    rewrite Hs1 in F3. destruct F3 as (F3 & _). rewrite peer_peer in F2.
    fold s2 in F2, F3.
    assert (I2 : inv s2) by (apply inv_step; eapply solo_inv; eauto).
    destruct (progress_equal t s2 I2) as (k3 & L1 & L2).
    + unfold in_call. rewrite F2, K4. exact Hin.
    + rewrite F3, K2. unfold calls. rewrite F2, K4. exact E.
    + destruct K1 as [k1 ->].
      exists (k1 ++ (peer t, false) :: k3).
      rewrite run_app. cbn [run]. fold s2. split; [exact L1|].
      rewrite L2. unfold calls. now rewrite F2, K4.
Qed.

Lemma not_both_waiting (t : tid) (s : state) :
  inv s -> ~ (waiting t s = true /\ waiting (peer t) s = true).
Proof.
  intros H [W1 W2].
  destruct (inv_facts t s H) as (_ & _ & _ & _ & _ & _).
  apply (waiting_facts t s H) in W1.
  apply (waiting_facts (peer t) s H) in W2.
  rewrite peer_peer, our_peer, other_peer in W2.
  unfold ahead in *. rewrite peer_peer in W2. unfold INT_MAX in *.
  destruct W1 as [[A1 B1]|(_ & A1 & B1 & C1)],
           W2 as [[A2 B2]|(_ & A2 & B2 & C2)]; lia.
Qed.

(** One step from a state that is written out. *)
Ltac one_step :=
  match goal with
  | |- context [step ?t ?c (mk_state ?a ?b ?sp ?ta ?tb)] =>
      let s := eval cbv beta iota zeta delta
                 [step thread_step entering count_spin wait_step
                  a_cntr b_cntr spins thr_a thr_b t_pc t_count t_calls
                  andb fst snd]
               in (step t c (mk_state a b sp ta tb)) in
      change (step t c (mk_state a b sp ta tb)) with s
  end.

(** One uncontended rendezvous below the maximum. *)
Lemma run_one_round (k n : Z) :
  0 <= k -> k + 1 < INT_MAX ->
  run one_round (synced k n) = synced (k + 1) (n + 1).
Proof.
  intros H0 H1.
  assert (Hw : wrap32 (k + 1) = k + 1)
    by (apply wrap32_small; unfold INT_MIN, INT_MAX in *; lia).
  assert (He : (k + 1 =? INT_MAX) = false)
    by (apply Z.eqb_neq; unfold INT_MAX in *; lia).
  unfold one_round, synced. cbn [run].
  one_step. rewrite Hw, He.
  one_step. rewrite Hw, He.
  one_step. one_step. rewrite Z.ltb_irrefl.
  one_step. one_step. rewrite Z.ltb_irrefl.
  reflexivity.
Qed.

(** The rendezvous that takes the counters through the maximum. *)
Lemma run_wrap_round (n : Z) :
  run wrap_round (synced 2147483646 n) = synced 0 (n + 1).
Proof.
  unfold wrap_round, synced. cbn [run].
  do 9 (one_step; cbn [wrap32 Z.add Z.eqb Z.gtb Z.ltb Z.compare Z.modulo
                        Z.div_eucl Z.pos_div_eucl Z.sub Z.opp Z.succ_double
                        Z.pred_double Z.double Z.leb Z.mul Z.pos_sub
                        Pos.add Pos.succ Pos.compare Pos.compare_cont
                        Pos.eqb Pos.mul Pos.pred_double Pos.add_carry
                        INT_MAX]).
  reflexivity.
Qed.

Lemma reachable_synced (k : Z) :
  0 <= k -> k < INT_MAX -> reachable (synced k k).
Proof.
  intros H. revert k H.
  apply (natlike_ind (fun k => k < INT_MAX -> reachable (synced k k))).
  - intros _. apply reach_init.
  - intros k Hk IH Hlt. unfold Z.succ.
    rewrite <- run_one_round by (unfold INT_MAX in *; lia).
    apply reachable_run, IH. unfold INT_MAX in *; lia.
Qed.

Lemma reachable_window : reachable window_state.
Proof.
  change window_state
    with (run window_sched (synced 2147483646 2147483646)).
  apply reachable_run, reachable_synced; unfold INT_MAX; lia.
Qed.

(** X1.  In every reachable state of the two threads a call of
    [fzsync_pair_wait] has returned only if the peer has entered the same
    rendezvous, and no thread is more than one call ahead of its peer. *)
Theorem rendezvous_paired :
  forall (s : state) (t : tid),
    reachable s ->
    returns t s <= calls (peer t) s /\ calls t s <= calls (peer t) s + 1.
Proof.
  intros s t H.
  destruct (inv_facts t s (inv_reachable s H)) as (_ & _ & H1 & H2 & _).
  split; assumption.
Qed.

(** X1, after thread A has entered its first call and gone through the
    loop condition once. *)
Lemma rendezvous_paired_witness :
  returns TA (run [(TA, false); (TA, false); (TA, false)] init)
  <= calls TB (run [(TA, false); (TA, false); (TA, false)] init).
Proof.
  apply (rendezvous_paired _ TA).
  apply reachable_run, reach_init.
Defined.

(** X2.  The two counters stay within [0, INT_MAX] in every reachable
    state, and a thread about to enter the call finds the counter it will
    increment below [INT_MAX]: [fzsync_atomic_inc] never overflows. *)
Theorem counters_in_range :
  forall (s : state) (t : tid),
    reachable s ->
    0 <= a_cntr s <= INT_MAX /\ 0 <= b_cntr s <= INT_MAX /\
    (at_pc t s = Idle -> other t s < INT_MAX).
Proof.
  intros s t H. pose proof (inv_reachable s H) as I.
  destruct (inv_facts TA s I) as (H1 & H2 & _).
  split; [exact H1|]. split; [exact H2|].
  intros Hpc. apply (inv_view t) in I. destruct I as (Lx & _).
  unfold at_pc in Hpc. destruct (thr t s) as [pcx cx nx].
  cbn in Hpc. subst pcx. destruct Lx as [Hn Lx]. cbn [t_pc t_calls] in Lx.
  pose proof (pos_range nx Hn) as [R _]. unfold INT_MAX in *.
  destruct (Z.eqb_spec (pos nx) 2147483647); lia.
Qed.

(** X2, in the state reached when thread A has stored zero on the
    wrap-around path. *)
Lemma counters_in_range_witness :
  0 <= a_cntr window_state <= INT_MAX /\ 0 <= b_cntr window_state <= INT_MAX.
Proof.
  destruct (counters_in_range window_state TA reachable_window) as (H1 & H2 & _).
  split; assumption.
Defined.

(** X3.  No deadlock: from every reachable state a thread that is inside
    [fzsync_pair_wait] can be brought to return from that call by some
    continuation of the schedule, and the two threads are never both in a
    wait loop whose condition holds. *)
Theorem no_deadlock :
  forall (s : state) (t : tid),
    reachable s ->
    (in_call t s = true -> can_return t s) /\
    ~ (waiting t s = true /\ waiting (peer t) s = true).
Proof.
  intros s t H. pose proof (inv_reachable s H) as I. split.
  - now apply progress.
  - now apply not_both_waiting.
Qed.

(** X3, for thread A spinning on the wrap-around path. *)
Lemma no_deadlock_witness : can_return TA window_state.
Proof.
  destruct (no_deadlock window_state TA reachable_window) as [H _].
  apply H. reflexivity.
Defined.

(** X4.  In every reachable state a thread that has entered a rendezvous
    its peer has not entered sees its own counter below the other; a thread
    whose own counter is below the other is in that position, unless the
    threads are in the reset window of the wrap-around (same rendezvous,
    one counter already zero, the other still [INT_MAX]); and a thread that
    spins is in that position or spins in the last wrap-around loop with its
    own counter at [INT_MAX] and the other at zero. *)
Theorem behind_waits_outside_reset_window :
  forall (s : state) (t : tid),
    reachable s ->
    (ahead t s -> our t s < other t s) /\
    (our t s < other t s -> ahead t s \/ reset_window s) /\
    (waiting t s = true ->
       (ahead t s /\ our t s < other t s) \/
       (at_pc t s = WrapWait /\ calls t s = calls (peer t) s /\
        our t s = INT_MAX /\ other t s = 0)).
Proof.
  intros s t H. pose proof (inv_reachable s H) as I.
  destruct (inv_facts t s I) as (_ & _ & _ & _ & H1 & H2).
  split; [exact H1|]. split; [exact H2|].
  now apply waiting_facts.
Qed.

(** X4, for thread A waiting in its first call for thread B. *)
Lemma behind_waits_outside_reset_window_witness :
  our TA (step TA false init) < other TA (step TA false init).
Proof.
  destruct (behind_waits_outside_reset_window (step TA false init) TA)
    as (H & _).
  - apply reach_step, reach_init.
  - apply H. reflexivity.
Defined.

(** X5.  The reset window is reached: after [INT_MAX - 1] rendezvous a
    schedule leads to a state in which thread A spins in the last
    wrap-around loop although its own counter ([INT_MAX]) is above the
    other (zero), while thread B, whose own counter is the smaller one,
    is neither ahead nor spinning. *)
Theorem reset_window_reached :
  reachable window_state /\ reset_window window_state /\
  waiting TA window_state = true /\
  other TA window_state < our TA window_state /\
  our TB window_state < other TB window_state /\
  waiting TB window_state = false /\ ~ ahead TB window_state.
Proof.
  split; [exact reachable_window|].
  split; [split; [reflexivity | left; split; reflexivity]|].
  split; [reflexivity|]. split; [reflexivity|]. split; [reflexivity|].
  split; [reflexivity|]. unfold ahead. cbn. unfold INT_MAX. lia.
Qed.

(** X6.  The counters run in a cycle of length [INT_MAX]: from the state
    with both threads outside the call and both counters at [k], a
    schedule of one rendezvous leads to the like state with both counters
    at [(k + 1) mod INT_MAX], one more call made by each thread and no spin
    counted. *)
Theorem counters_cycle :
  forall k n : Z,
    0 <= k < INT_MAX ->
    exists sched,
      run sched (synced k n) = synced ((k + 1) mod INT_MAX) (n + 1).
Proof.
  intros k n [H0 H1].
  destruct (Z.eq_dec k 2147483646) as [->|Hk].
  - exists wrap_round. apply run_wrap_round.
  - exists one_round. unfold INT_MAX in *.
    rewrite Z.mod_small by lia. apply run_one_round; unfold INT_MAX; lia.
Qed.

(** X6, at the first rendezvous and at the one through the maximum. *)
Lemma counters_cycle_witness :
  (exists sched, run sched (synced 0 0) = synced 1 1) /\
  (exists sched, run sched (synced 2147483646 2147483646)
                 = synced 0 2147483647).
Proof.
  split.
  - apply (counters_cycle 0 0). unfold INT_MAX. lia.
  - apply (counters_cycle 2147483646 2147483646). unfold INT_MAX. lia.
Defined.

(** A thread that has entered a rendezvous alone is in a wait loop whose
    condition holds. *)
Lemma ahead_waiting (t : tid) (s : state) :
  inv s -> ahead t s -> waiting t s = true.
Proof.
  intros I Ha. pose proof I as I'.
  apply (inv_view t) in I'. destruct I' as (Lx & Ly & Cx & Cy).
  unfold ahead, calls in Ha.
  destruct (cinv_ahead _ _ _ _ Lx Cx Ha) as (Ho & Hx & Hpc).
  unfold waiting, at_pc.
  destruct Lx as [Hn Lx].
  pose proof (pos_range (t_calls (thr t s)) Hn) as [R1 R2].
  unfold INT_MAX in *.
  destruct (t_pc (thr t s)) eqn:E; try contradiction.
  - destruct Lx as [Lx _]. apply andb_true_iff. split.
    + apply Z.gtb_lt. lia.
    + apply Z.ltb_lt. lia.
  - destruct Lx as [Lx _]. apply andb_true_iff. split.
    + apply Z.gtb_lt. lia.
    + apply Z.ltb_lt. lia.
  - apply Z.ltb_lt. lia.
  - apply Z.ltb_lt. lia.
Qed.

(** C1 (amended).  In every state that the two threads reach by paired,
    unconditional calls of [fzsync_pair_wait]: a call has returned only if
    the peer has entered the same rendezvous, and the peer is at most one
    call ahead, so that each call returns once per iteration; a thread
    inside the call can be brought to return from it by some continuation
    of the schedule (no deadlock), across the wrap-around at [INT_MAX] as
    anywhere else; and outside the reset window of the wrap-around (both
    threads in the same rendezvous, one counter reset to zero, the other
    still [INT_MAX]) the thread whose counter is behind is the one in a
    wait loop whose condition holds, and it is the thread that has
    entered the rendezvous alone. *)
Theorem paired_waits_return :
  forall (s : state) (t : tid),
    reachable s ->
    (returns t s <= calls (peer t) s /\ calls (peer t) s <= calls t s + 1) /\
    (in_call t s = true -> can_return t s) /\
    (~ reset_window s ->
     (our t s < other t s <-> waiting t s = true) /\
     (waiting t s = true -> ahead t s)).
Proof.
  intros s t H. pose proof (inv_reachable s H) as I.
  destruct (inv_facts t s I) as (_ & _ & H1 & _ & H3 & H4).
  destruct (inv_facts (peer t) s I) as (_ & _ & _ & H2 & _).
  rewrite peer_peer in H2.
  split; [split; assumption|]. split; [now apply progress|].
  intros Hw.
  assert (G : waiting t s = true -> ahead t s /\ our t s < other t s).
  { intros W. destruct (waiting_facts t s I W) as [G|(_ & Hc & Ho & Hz)];
      [exact G|].
    exfalso. apply Hw. unfold reset_window.
    destruct t; cbn in *; (split; [lia|]); [left | right]; split;
      assumption. }
  split; [split|].
  - intros Hlt. destruct (H4 Hlt) as [Ha|Hr]; [|contradiction].
    now apply ahead_waiting.
  - intros W. now destruct (G W).
  - intros W. now destruct (G W).
Qed.

(** C1 (amended), for thread A waiting in its first call for thread B. *)
Lemma paired_waits_return_witness :
  waiting TA (step TA false init) = true.
Proof.
  destruct (paired_waits_return (step TA false init) TA) as (_ & _ & H).
  - apply reach_step, reach_init.
  - destruct H as [[H _] _].
    + unfold reset_window. cbn. intros [E _]. discriminate.
    + apply H. reflexivity.
Defined.

(** C1, as the claim has it, fails: in the reset window, which is reached
    after [INT_MAX - 1] rendezvous, thread B's counter (zero) is behind
    yet thread B is not waiting, and thread A waits although its counter
    ([INT_MAX]) is ahead. *)
Lemma behind_not_waiting_in_reset_window :
  reachable window_state /\
  our TB window_state < other TB window_state /\
  waiting TB window_state = false /\
  other TA window_state < our TA window_state /\
  waiting TA window_state = true.
Proof.
  split; [exact reachable_window|].
  repeat split; reflexivity.
Qed.

End BarrierFacts.

(** * Further properties of the sequential functions *)

(** ** Integer helpers *)



(** ** Clock differences *)

(** X11.  For two time stamps in the range of the clock (seconds below
    9223372036, nanoseconds below 10^9) [fzsync_diff_ns] does not wrap
    around: it is the difference of the two in nanoseconds.  Swapping the
    arguments negates it, it is zero only for equal time stamps, and it is
    positive exactly when the first time stamp is the later one. *)
Theorem diff_ns_exact :
  forall t1 t2 : timespec,
    ts_ok t1 -> ts_ok t2 ->
    fzsync_diff_ns t1 t2
    = (tv_sec t1 - tv_sec t2) * 1000000000 + (tv_nsec t1 - tv_nsec t2) /\
    fzsync_diff_ns t2 t1 = - fzsync_diff_ns t1 t2 /\
    (fzsync_diff_ns t1 t2 = 0 <-> t1 = t2) /\
    (0 < fzsync_diff_ns t1 t2 <->
     tv_sec t2 < tv_sec t1 \/
     (tv_sec t2 = tv_sec t1 /\ tv_nsec t2 < tv_nsec t1)).
Proof.
  intros [s1 n1] [s2 n2] [Hs1 Hn1] [Hs2 Hn2]. cbn in *.
  assert (E : forall a b c d,
             0 <= a <= 9223372035 -> 0 <= b < 1000000000 ->
             0 <= c <= 9223372035 -> 0 <= d < 1000000000 ->
             fzsync_diff_ns (mk_timespec a b) (mk_timespec c d)
             = (a - c) * 1000000000 + (b - d)).
  { intros a b c d Ha Hb Hc Hd. unfold fzsync_diff_ns. cbn.
    rewrite (@wrap64_small (a - c)) by lia.
    rewrite (@wrap64_small ((a - c) * 1000000000)) by lia.
    rewrite (@wrap64_small (b - d)) by lia.
    apply wrap64_small. lia. }
  rewrite !E by assumption.
  split; [reflexivity|]. split; [lia|]. split; [split|split].
  - intros H. assert (s1 = s2) by lia. assert (n1 = n2) by lia. congruence.
  - intros H. inversion H; subst. lia.
  - intros H. lia.
  - intros H. lia.
Qed.

(** X11, for 2.000000005 s and 1.999999999 s. *)
Lemma diff_ns_exact_witness :
  fzsync_diff_ns (mk_timespec 2 5) (mk_timespec 1 999999999) = 6 /\
  fzsync_diff_ns (mk_timespec 1 999999999) (mk_timespec 2 5) = - 6.
Proof.
  destruct (@diff_ns_exact (mk_timespec 2 5) (mk_timespec 1 999999999))
    as (H1 & H2 & _).
  - unfold ts_ok. cbn. lia.
  - unfold ts_ok. cbn. lia.
  - split; [exact H1 | exact H2].
Defined.

(** ** The delay loops *)

Lemma delay_loop_a_count (fuel : nat) :
  forall d : Z,
    in_int d -> - d <= Z.of_nat fuel ->
    delay_loop_a fuel d = Some (Z.max 0 (- d)).
Proof.
  induction fuel as [|fuel IH]; intros d Hd Hf; cbn [delay_loop_a];
    destruct (Z.ltb_spec d 0) as [Hlt|Hge].
  - lia.
  - f_equal. lia.
  - rewrite wrap32_small by (unfold in_int, INT_MIN, INT_MAX in *; lia).
    rewrite IH by (unfold in_int, INT_MIN, INT_MAX in *; lia).
    cbn [option_map]. f_equal. lia.
  - f_equal. lia.
Qed.

Lemma delay_loop_b_count (fuel : nat) :
  forall d : Z,
    in_int d -> d <= Z.of_nat fuel ->
    delay_loop_b fuel d = Some (Z.max 0 d).
Proof.
  induction fuel as [|fuel IH]; intros d Hd Hf; cbn [delay_loop_b];
    destruct (Z.gtb_spec d 0) as [Hlt|Hge].
  - lia.
  - f_equal. lia.
  - rewrite wrap32_small by (unfold in_int, INT_MIN, INT_MAX in *; lia).
    rewrite IH by (unfold in_int, INT_MIN, INT_MAX in *; lia).
    cbn [option_map]. f_equal. lia.
  - f_equal. lia.
Qed.

(** X12.  The delay loops of [fzsync_start_race_a] and
    [fzsync_start_race_b] end: for a delay [d] within [int], thread A
    makes [max 0 (-d)] iterations and thread B [max 0 d].  At most one of
    the two threads is held back, and the iterations add up to [|d|]. *)
Theorem delay_loops_terminate :
  forall (d : Z) (fuel : nat),
    in_int d -> Z.abs d <= Z.of_nat fuel ->
    delay_loop_a fuel d = Some (Z.max 0 (- d)) /\
    delay_loop_b fuel d = Some (Z.max 0 d) /\
    (delay_loop_a fuel d = Some 0 \/ delay_loop_b fuel d = Some 0) /\
    Z.max 0 (- d) + Z.max 0 d = Z.abs d.
Proof.
  intros d fuel Hd Hf.
  rewrite delay_loop_a_count, delay_loop_b_count by (auto; lia).
  repeat split; try lia.
  destruct (Z.le_ge_cases 0 d); [left | right]; f_equal; lia.
Qed.

(** X12, for a delay of -3. *)
Lemma delay_loops_terminate_witness :
  delay_loop_a 3 (- 3) = Some 3 /\ delay_loop_b 3 (- 3) = Some 0.
Proof.
  destruct (@delay_loops_terminate (- 3) 3%nat) as (H1 & H2 & _).
  - unfold in_int, INT_MIN, INT_MAX. lia.
  - cbn. lia.
  - split; [exact H1 | exact H2].
Defined.

(** ** Life cycle and time budget *)

Section MoreSequential.
Context {FO : FloatOps}.

(** X7.  [fzsync_pair_cleanup] on a pair with a thread B returns what
    [pthread_join] returned, leaves the handle at zero and the exit flag
    set (to 1 if it was clear, as it was otherwise), and touches no other
    field. *)
Theorem cleanup_effect :
  forall (p : fzsync_pair) (j : Z),
    thread_b p <> 0 ->
    fzsync_pair_cleanup p j
    = (set_thread_b 0 (if exit p =? 0 then set_exit 1 p else p), j) /\
    thread_b (fst (fzsync_pair_cleanup p j)) = 0 /\
    exit (fst (fzsync_pair_cleanup p j)) = (if exit p =? 0 then 1 else exit p) /\
    exit (fst (fzsync_pair_cleanup p j)) <> 0.
Proof.
  intros p j H. unfold fzsync_pair_cleanup.
  apply Z.eqb_neq in H. rewrite H. cbn.
  destruct (Z.eqb_spec (exit p) 0); cbn; repeat split; auto; lia.
Qed.

(** X8.  [fzsync_pair_reset] without a thread function returns the result
    of the clock and leaves no thread handle; with one, it returns a
    non-zero result of [pthread_create] at once, the start time not being
    taken, and otherwise stores the new handle and returns the result of the
    clock.  In no case does it touch the spin counter or the four time
    stamps of the last iteration. *)
Theorem reset_result :
  forall (p : fzsync_pair) (run_b : bool) (os : os_env),
    let p' := fst (fzsync_pair_reset p run_b os) in
    let r := snd (fzsync_pair_reset p run_b os) in
    (run_b = false ->
       r = clock_result os /\ thread_b p' = 0 /\
       exec_time_start p' = clock_now os) /\
    (run_b = true -> create_result os <> 0 ->
       r = create_result os /\ exec_time_start p' = exec_time_start p) /\
    (run_b = true -> create_result os = 0 ->
       r = clock_result os /\ thread_b p' = create_handle os /\
       exec_time_start p' = clock_now os) /\
    spins p' = spins p /\ a_start p' = a_start p /\ b_start p' = b_start p /\
    a_end p' = a_end p /\ b_end p' = b_end p.
Proof.
  intros p run_b os p' r. subst p' r. unfold fzsync_pair_reset.
  pose proof (cleanup_thread_b p (join_result os)) as Ht.
  assert (Hf : let q := fst (fzsync_pair_cleanup p (join_result os)) in
               spins q = spins p /\ a_start q = a_start p /\
               b_start q = b_start p /\ a_end q = a_end p /\
               b_end q = b_end p /\ exec_time_start q = exec_time_start p).
  { unfold fzsync_pair_cleanup.
    destruct (thread_b p =? 0); [|destruct (exit p =? 0)]; cbn;
      repeat split; reflexivity. }
  set (q := fst (fzsync_pair_cleanup p (join_result os))) in *.
  cbv zeta in Hf. destruct Hf as (H1 & H2 & H3 & H4 & H5 & H6).
  destruct run_b; [destruct (Z.eqb_spec (create_result os) 0)|]; cbn;
    repeat split; intros; try discriminate; try congruence; auto.
Qed.

Lemma cleanup_exit (q : fzsync_pair) (j : Z) :
  exit q <> 0 -> exit (fst (fzsync_pair_cleanup q j)) = exit q.
Proof.
  intros H. unfold fzsync_pair_cleanup. apply Z.eqb_neq in H.
  destruct (thread_b q =? 0); cbn; [reflexivity|].
  rewrite H. reflexivity.
Qed.

(** The pair [fzsync_run_a] hands to [fzsync_pair_cleanup] or returns. *)
Lemma run_a_shape (p p' : fzsync_pair) os rv r log :
  fzsync_run_a p os rv = Some (p', r, log) ->
  exists q : fzsync_pair,
    (r = 0 \/ r = 1) /\ exit q = 1 - r /\ thread_b q = thread_b p /\
    p' = (if r =? 0 then fst (fzsync_pair_cleanup q (join_result os)) else q).
Proof.
  unfold fzsync_run_a.
  destruct (fzsync_timeout_remaining p (clock_now os)) as [x|]; [|discriminate].
  set (c1 := fgt _ _ && _). destruct c1;
    destruct (negb (fnonzero (flt_of_int x))); cbn;
    break_ifs; intros H; inversion H; subst; clear H;
    try discriminate;
    eexists; (split; [|split; [|split; [|reflexivity]]]);
    cbn; auto.
Qed.

(** X9.  [fzsync_run_a] fails its assertion exactly when the clock reads
    a second before the start of the budget.  When it returns, its result
    is 0 or 1 and the exit flag it leaves is the opposite; on 0 thread B
    has been joined (no handle is left), on 1 the handle is untouched; and
    a call of [fzsync_run_b] that follows returns what [fzsync_run_a]
    returned. *)
Theorem run_a_exit_coherent :
  forall (p : fzsync_pair) (os : os_env) (rv : rendezvous),
    (fzsync_run_a p os rv = None <->
     tv_sec (clock_now os) < tv_sec (exec_time_start p)) /\
    forall p' r log,
      fzsync_run_a p os rv = Some (p', r, log) ->
      (r = 0 \/ r = 1) /\ exit p' = 1 - r /\
      (r = 0 -> thread_b p' = 0) /\ (r = 1 -> thread_b p' = thread_b p) /\
      forall rv', snd (fzsync_run_b p' rv') = r.
Proof.
  intros p os rv. split.
  - assert (Hrem : (tv_sec (clock_now os) < tv_sec (exec_time_start p) /\
                    fzsync_timeout_remaining p (clock_now os) = None) \/
                   (tv_sec (exec_time_start p) <= tv_sec (clock_now os) /\
                    exists x, fzsync_timeout_remaining p (clock_now os) = Some x)).
    { unfold fzsync_timeout_remaining, assert.
      destruct (Z.geb_spec (tv_sec (clock_now os)) (tv_sec (exec_time_start p))).
      - right. split; [lia|]. break_ifs; eexists; reflexivity.
      - left. split; [lia | reflexivity]. }
    unfold fzsync_run_a.
    destruct Hrem as [[Hlt ->]|[Hge [x ->]]].
    + split; [intros _; exact Hlt | reflexivity].
    + split; [|lia]. break_ifs; discriminate.
  - intros p' r log H.
    pose proof H as Hs. apply run_a_shape in Hs. destruct Hs as (q & Hr & He & Ht & ->).
    assert (Hexit : exit (if r =? 0
                          then fst (fzsync_pair_cleanup q (join_result os))
                          else q) = 1 - r).
    { destruct (r =? 0) eqn:E; [|exact He].
      apply Z.eqb_eq in E. subst r. rewrite cleanup_exit; lia. }
    split; [exact Hr|]. split; [exact Hexit|]. split; [|split].
    + intros ->. cbn. apply cleanup_thread_b.
    + intros ->. cbn. exact Ht.
    + intros rv'. unfold fzsync_run_b, fzsync_wait_b, pair_wait_done. cbn.
      rewrite Hexit. destruct Hr as [-> | ->]; reflexivity.
Qed.


(** [fzsync_timeout_remaining] without the wrap-around, for time stamps
    and a budget within the range of the clock. *)
Lemma timeout_remaining_cases (p : fzsync_pair) (now : timespec) :
  ts_ok now -> ts_ok (exec_time_start p) ->
  0 <= long_of_flt (exec_time p) <= 9223372035 ->
  fzsync_timeout_remaining p now
  = let L := long_of_flt (exec_time p) in
    let d := tv_sec now - tv_sec (exec_time_start p) in
    if d <? 0 then None
    else if d <? L then Some (L - d)
    else if L <? d then Some 0
    else Some (if tv_nsec (exec_time_start p) <? tv_nsec now then 1 else 0).
Proof.
  intros [Hs1 Hn1] [Hs2 Hn2] HL. cbv zeta.
  set (L := long_of_flt (exec_time p)) in *.
  set (d := tv_sec now - tv_sec (exec_time_start p)).
  unfold fzsync_timeout_remaining, assert. fold L.
  rewrite (@wrap64_small (tv_sec now - tv_sec (exec_time_start p))) by lia.
  rewrite (@wrap64_small (tv_nsec now - tv_nsec (exec_time_start p))) by lia.
  fold d.
  destruct (Z.geb_spec (tv_sec now) (tv_sec (exec_time_start p)));
    destruct (Z.ltb_spec d 0); try (unfold d in *; lia); [|reflexivity].
  rewrite (@wrap64_small (L - d)) by (unfold d in *; lia).
  destruct (Z.gtb_spec (L - d) 0); destruct (Z.ltb_spec d L); try lia;
    [reflexivity|].
  destruct (Z.ltb_spec (L - d) 0); destruct (Z.ltb_spec L d); try lia;
    [reflexivity|].
  destruct (Z.gtb_spec (tv_nsec now - tv_nsec (exec_time_start p)) 0);
    destruct (Z.ltb_spec (tv_nsec (exec_time_start p)) (tv_nsec now));
    try lia; reflexivity.
Qed.

(** X10.  [fzsync_timeout_remaining] for time stamps in the range of the
    clock and a budget of [L] whole seconds, [d] being the difference of
    the seconds fields of the clock and of the start: the assertion fails
    exactly when [d < 0]; the result is [L - d] while [d < L], zero once
    [d > L], and for [d = L] it is 1 if the nanosecond field of the clock
    is ahead of that of the start and 0 if not.  It is never negative and
    never more than [max 1 L]. *)
Theorem timeout_remaining_value :
  forall (p : fzsync_pair) (now : timespec),
    ts_ok now -> ts_ok (exec_time_start p) ->
    0 <= long_of_flt (exec_time p) <= 9223372035 ->
    let L := long_of_flt (exec_time p) in
    let d := tv_sec now - tv_sec (exec_time_start p) in
    (fzsync_timeout_remaining p now = None <-> d < 0) /\
    (0 <= d < L -> fzsync_timeout_remaining p now = Some (L - d)) /\
    (d = L ->
     fzsync_timeout_remaining p now
     = Some (if tv_nsec (exec_time_start p) <? tv_nsec now then 1 else 0)) /\
    (L < d -> fzsync_timeout_remaining p now = Some 0) /\
    (forall r, fzsync_timeout_remaining p now = Some r ->
               0 <= r <= Z.max 1 L).
Proof.
  intros p now Hnow Hstart HL L d.
  rewrite (timeout_remaining_cases p Hnow Hstart HL). cbv zeta.
  fold L. fold d.
  destruct (Z.ltb_spec d 0); [|destruct (Z.ltb_spec d L);
                               [|destruct (Z.ltb_spec L d)]].
  all: repeat split; intros; try discriminate; try lia; try reflexivity.
  all: try match goal with H : Some _ = Some _ |- _ =>
             inversion H; subst; clear H end.
  all: try (unfold L in *; lia).
  all: destruct (tv_nsec (exec_time_start p) <? tv_nsec now);
    unfold L in *; lia.
Qed.

End MoreSequential.

(** X7, at a pair with thread handle 5. *)
Lemma cleanup_effect_witness :
  snd (fzsync_pair_cleanup threaded_pair 7) = 7 /\
  thread_b (fst (fzsync_pair_cleanup threaded_pair 7)) = 0 /\
  exit (fst (fzsync_pair_cleanup threaded_pair 7)) = 1.
Proof.
  destruct (@cleanup_effect ExactFloat threaded_pair 7) as (H1 & H2 & H3 & _).
  - cbn. lia.
  - split; [rewrite H1; reflexivity|]. split; [exact H2 | exact H3].
Defined.

(** X8, for a reset without a thread function. *)
Lemma reset_result_witness :
  snd (fzsync_pair_reset threaded_pair false os0) = 0 /\
  thread_b (fst (fzsync_pair_reset threaded_pair false os0)) = 0.
Proof.
  destruct (@reset_result ExactFloat threaded_pair false os0) as (H & _).
  destruct (H eq_refl) as (H1 & H2 & _).
  split; [exact H1 | exact H2].
Defined.

(** X9: one second into the budget the assertion holds. *)
Lemma run_a_exit_coherent_witness :
  fzsync_run_a max_loops_pair (it_os one_second_in) rv0 <> None.
Proof.
  intros H.
  apply (proj1 (@run_a_exit_coherent ExactFloat max_loops_pair
                  (it_os one_second_in) rv0)) in H.
  cbn in H. lia.
Defined.

(** X10: 100 s after a start at 0.9 s, 50 s of 150 s are left. *)
Lemma timeout_remaining_value_witness :
  fzsync_timeout_remaining late_start_pair (mk_timespec 100 0) = Some 50.
Proof.
  destruct (@timeout_remaining_value ExactFloat late_start_pair
              (mk_timespec 100 0)) as (_ & H & _).
  - unfold ts_ok. cbn. lia.
  - unfold ts_ok. cbn. lia.
  - split; vm_compute; discriminate.
  - apply H. split; vm_compute; [discriminate | reflexivity].
Defined.

(** ** Sampling, bias and the data of an iteration *)

Section MoreRuns.
Context {FO : FloatOps}.

Lemma body_op_keeps_sampling (o : body_op) (p : fzsync_pair) :
  is_update o = false -> sampling (fst (exec_body_op o p)) = sampling p.
Proof.
  destruct o; cbn; intros H; try discriminate.
  all: unfold fzsync_end_race_a, fzsync_end_race_b,
         fzsync_start_race_b, fzsync_wait_a, fzsync_wait_b, fzsync_run_b,
         pair_wait_done, fzsync_pair_add_bias, fzsync_pair_cleanup;
       break_ifs; cbn; reflexivity.
Qed.

Lemma body_op_update_sampling (o : body_op) (p : fzsync_pair) :
  is_update o = true -> 0 < sampling p <= INT_MAX ->
  sampling (fst (exec_body_op o p)) = sampling p - 1.
Proof.
  intros Ho Hs.
  assert (E : forall draw, sampling (fst (fzsync_pair_update p draw))
                           = sampling p - 1).
  { intros draw.
    assert (H : (sampling p >? 0) || over_max_dev p = true).
    { apply orb_true_iff. left. apply Z.gtb_lt. lia. }
    destruct (update_sampling_branch p draw H) as (-> & _).
    destruct (Z.gtb_spec (sampling p) 0); [|lia].
    apply wrap32_small. unfold INT_MIN, INT_MAX in *. lia. }
  destruct o; cbn in *; try discriminate.
  - apply E.
  - destruct (start_race_a_update p draw rv now) as (_ & -> & _). apply E.
Qed.

Lemma count_updates_cons (o : body_op) (os : list body_op) :
  count_updates (o :: os)
  = (if is_update o then 1 else 0) + count_updates os.
Proof.
  unfold count_updates. cbn [filter].
  destruct (is_update o); cbn [length]; lia.
Qed.

Lemma count_updates_nonneg (os : list body_op) : 0 <= count_updates os.
Proof. unfold count_updates. lia. Qed.

(** X13.  In the body of an iteration every call of [fzsync_pair_update]
    (made directly or by [fzsync_start_race_a]) takes one off the
    mandatory samples that are left, and no other call changes their
    number: with at least as many samples left as the body has updates,
    [sampling] ends lower by the number of updates. *)
Theorem sampling_countdown :
  forall (os : list body_op) (p : fzsync_pair),
    count_updates os <= sampling p <= INT_MAX ->
    sampling (exec_body os p) = sampling p - count_updates os.
Proof.
  induction os as [|o os IH]; intros p H.
  - cbn. unfold count_updates. cbn. lia.
  - rewrite count_updates_cons in *. cbn [exec_body].
    pose proof (count_updates_nonneg os) as Hn.
    destruct (is_update o) eqn:Ho.
    + pose proof (@body_op_update_sampling o p Ho) as E.
      rewrite IH; rewrite E; lia.
    + pose proof (@body_op_keeps_sampling o p Ho) as E.
      rewrite IH; rewrite E; lia.
Qed.



Lemma update_sampling_down (p : fzsync_pair) (draw : dbl) :
  -1 <= sampling p <= INT_MAX ->
  -1 <= sampling (fst (fzsync_pair_update p draw)) <= sampling p.
Proof.
  intros H.
  destruct ((sampling p >? 0) || over_max_dev p) eqn:E.
  - destruct (update_sampling_branch p draw E) as (-> & _).
    destruct (Z.gtb_spec (sampling p) 0); [|lia].
    rewrite wrap32_small; unfold INT_MIN, INT_MAX in *; lia.
  - destruct (update_frozen_branch p draw E) as (_ & _ & -> & _).
    destruct (Z.eqb_spec (sampling p) 0); lia.
Qed.

Lemma op_sampling_down (o : op) (p p' : fzsync_pair) (log : list msg) :
  exec_op o p = Some (p', log) -> -1 <= sampling p <= INT_MAX ->
  -1 <= sampling p' <= sampling p.
Proof.
  destruct o as [o|os rv]; cbn.
  - intros H Hs. inversion H as [H1]; clear H.
    replace p' with (fst (exec_body_op o p)) by (now rewrite H1).
    clear H1.
    destruct (is_update o) eqn:Ho.
    + destruct o; try discriminate; cbn.
      * now apply update_sampling_down.
      * destruct (start_race_a_update p draw rv now) as (_ & -> & _).
        now apply update_sampling_down.
    + rewrite body_op_keeps_sampling by exact Ho. lia.
  - destruct (fzsync_run_a p os rv) as [[[q r] l]|] eqn:E; [|discriminate].
    intros H Hs. inversion H; subst.
    destruct (@run_a_frame _ _ _ _ _ _ _ E) as (_ & _ & _ & [->|[? ->]] & _); lia.
Qed.

(** X15.  Between two resets [sampling] never goes up and never falls
    below -1, whatever the calls (updates, race marks, waits, bias changes,
    [fzsync_run_a], [fzsync_run_b], cleanup) and whatever their order. *)
Theorem sampling_never_increases :
  forall (os : list op) (p p' : fzsync_pair) (log : list msg),
    exec_ops os p = Some (p', log) ->
    -1 <= sampling p <= INT_MAX ->
    -1 <= sampling p' <= sampling p.
Proof.
  induction os as [|o os IH]; intros p p' log H Hs.
  - cbn in H. inversion H; subst. lia.
  - cbn [exec_ops] in H.
    destruct (exec_op o p) as [[p1 l1]|] eqn:E1; [|discriminate].
    destruct (exec_ops os p1) as [[p2 l2]|] eqn:E2; [|discriminate].
    inversion H; subst; clear H.
    pose proof (@op_sampling_down _ _ _ _ E1 Hs) as H1.
    assert (H2 : -1 <= sampling p' <= sampling p1) by (eapply IH; eauto; lia).
    lia.
Qed.


End MoreRuns.

(** X13, for two updates around a bias change with five samples left. *)
Lemma sampling_countdown_witness :
  sampling (exec_body [@OpUpdate ExactFloat 0%Q; OpAddBias 3; @OpUpdate ExactFloat 0%Q]
                      five_left_pair) = 3.
Proof.
  apply (@sampling_countdown ExactFloat
           [@OpUpdate ExactFloat 0%Q; OpAddBias 3; @OpUpdate ExactFloat 0%Q] five_left_pair).
  unfold count_updates, INT_MAX. cbn. lia.
Defined.


(** X15, for one update with five samples left. *)
Lemma sampling_never_increases_witness :
  -1 <= sampling (fst (fzsync_pair_update five_left_pair 0%Q)) <= 5.
Proof.
  apply (@sampling_never_increases ExactFloat
           [OpBody (@OpUpdate ExactFloat 0%Q)] five_left_pair
           (fst (fzsync_pair_update five_left_pair 0%Q))
           (snd (fzsync_pair_update five_left_pair 0%Q) ++ [])).
  - cbn [exec_ops exec_op exec_body_op].
    destruct (fzsync_pair_update five_left_pair 0%Q). reflexivity.
  - unfold INT_MAX. cbn. lia.
Defined.


(** ** The loop after a reset *)

Section MoreLoops.
Context {FO : FloatOps}.







End MoreLoops.


(** ** The time limits of the loop *)

Lemma forallb_upto (f : Z -> bool) (n : nat) :
  forallb f (upto n) = true ->
  forall r : Z, 0 <= r < Z.of_nat n -> f r = true.
Proof.
  intros H r Hr. rewrite forallb_forall in H. apply H.
  unfold upto. apply in_map_iff. exists (Z.to_nat r).
  split; [lia|]. apply in_seq. lia.
Qed.

Section TimeLimits.
Context {FO : FloatOps}.

(** X18.  The time limits of [fzsync_run_a], for a budget of [T] whole
    seconds and [d] whole seconds since the start, when [float] holds the
    budget and every smaller count of seconds exactly enough for the two
    tests of the function: [exec_time * 0.5f > (float)r] is [2 r < T] and
    [(float)r] is zero only for [r = 0], for every [r] up to [T]
    (binary32 holds the integers up to 2^24 exactly; the hypothesis is
    checked below for [T = 150] and fails for [T = 2^26]).
    While [d < T] the time limit does not stop the loop (the result is 0
    only if the iteration budget is exceeded), and sampling is cut off,
    [sampling] going to 0, exactly when more than half of the budget is
    gone ([2 d > T]) and mandatory samples are left.  Once [d > T] the
    call returns 0 and reports the time limit. *)
Theorem run_a_time_limits :
  forall (p : fzsync_pair) (os : os_env) (rv : rendezvous) (T : Z),
    long_of_flt (exec_time p) = T -> 1 <= T <= 9223372035 ->
    (forall r : Z, 0 <= r <= T ->
       fgt (fmul (exec_time p) f_half) (flt_of_int r) = (2 * r <? T) /\
       fnonzero (flt_of_int r) = negb (r =? 0)) ->
    ts_ok (clock_now os) -> ts_ok (exec_time_start p) ->
    let d := tv_sec (clock_now os) - tv_sec (exec_time_start p) in
    0 <= d ->
    exists (p' : fzsync_pair) (r : Z) (log : list msg),
      fzsync_run_a p os rv = Some (p', r, log) /\
      (d < T ->
       sampling p'
       = (if (T <? 2 * d) && (0 <? sampling p) then 0 else sampling p) /\
       r = (if wrap32 (exec_loop p + 1) >? exec_loops p then 0 else 1) /\
       ~ In MsgExceededTime log) /\
      (T < d ->
       sampling p' = Z.min (sampling p) 0 /\ r = 0 /\
       In MsgExceededTime log).
Proof.
  intros p os rv T HL HTr Hex Hnow Hstart d Hd.
  pose proof (@timeout_remaining_cases FO p (clock_now os) Hnow Hstart)
    as Hrem.
  rewrite HL in Hrem. specialize (Hrem ltac:(lia)). cbv zeta in Hrem.
  fold d in Hrem.
  destruct (Z.ltb_spec d 0) as [|_]; [lia|].
  assert (Hsamp : forall q j, sampling (fst (fzsync_pair_cleanup q j))
                              = sampling q).
  { intros q j.
    destruct (cleanup_frame q j) as (_ & _ & _ & _ & _ & _ & _ & -> & _).
    reflexivity. }
  unfold fzsync_run_a. rewrite Hrem.
  destruct (Z.ltb_spec d T) as [Hlt|Hge].
  - destruct (Hex (T - d) ltac:(lia)) as [Hh Hz]. rewrite Hh, Hz.
    destruct (Z.eqb_spec (T - d) 0) as [|_]; [lia|]. cbn [negb].
    replace (2 * (T - d) <? T) with (T <? 2 * d)
      by (destruct (Z.ltb_spec (2 * (T - d)) T), (Z.ltb_spec T (2 * d));
          try reflexivity; lia).
    replace (sampling p >? 0) with (0 <? sampling p)
      by (now rewrite Z.gtb_ltb).
    destruct ((T <? 2 * d) && (0 <? sampling p));
      cbn [exec_loop exec_loops set_sampling set_exec_loop];
      destruct (wrap32 (exec_loop p + 1) >? exec_loops p); cbn;
      eexists; eexists; eexists; (split; [reflexivity|]);
      (split; [intros _|intros; lia]);
      rewrite ?Hsamp; cbn; repeat split; try reflexivity;
      intros H; cbn in H; intuition discriminate.
  - assert (E : (if T <? d then Some 0
                 else Some (if tv_nsec (exec_time_start p)
                               <? tv_nsec (clock_now os) then 1 else 0))
                = Some (if T <? d then 0
                        else if tv_nsec (exec_time_start p)
                                <? tv_nsec (clock_now os) then 1 else 0))
      by (destruct (T <? d); reflexivity).
    rewrite E. clear E.
    set (rem := if T <? d then 0 else _).
    assert (Hr : T < d -> rem = 0)
      by (intros H; unfold rem; destruct (Z.ltb_spec T d); [reflexivity|lia]).
    assert (Hrange : 0 <= rem <= T).
    { unfold rem. destruct (T <? d); [lia|].
      destruct (tv_nsec (exec_time_start p) <? tv_nsec (clock_now os)); lia. }
    destruct (Hex rem Hrange) as [Hh Hz]. rewrite Hh, Hz.
    replace (sampling p >? 0) with (0 <? sampling p)
      by (now rewrite Z.gtb_ltb).
    destruct ((2 * rem <? T) && (0 <? sampling p)) eqn:Ec;
      destruct (rem =? 0) eqn:Ez; cbn [negb];
      cbn [exec_loop exec_loops set_sampling set_exec_loop];
      destruct (wrap32 (exec_loop p + 1) >? exec_loops p); cbn;
      eexists; eexists; eexists; (split; [reflexivity|]);
      (split; [intros; lia|intros Hgt]);
      specialize (Hr Hgt); rewrite Hr in *;
      rewrite ?Hsamp; cbn; try discriminate.
    all: repeat split; auto.
    all: try (apply andb_prop in Ec as [_ Ec]; apply Z.ltb_lt in Ec; lia).
    all: apply andb_false_iff in Ec as [Ec|Ec];
      [apply Z.ltb_ge in Ec; lia | apply Z.ltb_ge in Ec; lia].
Qed.

End TimeLimits.

(** X18, in binary32 eighty seconds into a budget of 150 s with samples
    left. *)
Lemma run_a_time_limits_witness :
  exists (p' : @fzsync_pair Binary32) (r : Z) (log : list msg),
    fzsync_run_a stale_ratio_pair eighty_seconds_in rv0
    = Some (p', r, log) /\ sampling p' = 0.
Proof.
  destruct (@run_a_time_limits Binary32 stale_ratio_pair
              eighty_seconds_in rv0 150) as (p' & r & log & Hrun & H & _).
  - vm_compute. reflexivity.
  - lia.
  - intros r Hr.
    assert (G : seconds_exact (b32 150 0) 150 r = true).
    { apply (@forallb_upto (seconds_exact (b32 150 0) 150) 151);
        [vm_compute; reflexivity | lia]. }
    unfold seconds_exact in G. apply andb_prop in G as [G1 G2].
    apply Bool.eqb_prop in G1, G2. split; [exact G1 | exact G2].
  - unfold ts_ok. cbn. lia.
  - unfold ts_ok. cbn. lia.
  - cbn. lia.
  - exists p', r, log. split; [exact Hrun|].
    destruct H as (H & _); [cbn; lia | exact H].
Defined.

(** At a budget of 2^26 s binary32 does not hold the seconds exactly
    enough: [(float)33554431] is 2^25, which is [exec_time * 0.5f]. *)
Lemma seconds_not_exact_above :
  seconds_exact (b32 1 26) 67108864 33554431 = false.
Proof. vm_compute. reflexivity. Qed.

(** ** Configuration, continued (exact arithmetic) *)

Lemma chk_flt_d_idem (v def : Q) :
  chk_flt_d (chk_flt_d v def) def = chk_flt_d v def.
Proof.
  unfold chk_flt_d. cbn [flt_of_dbl dbl_of_flt fnonzero ExactFloat].
  destruct (Qeq_bool v 0) eqn:E; cbn [negb].
  - destruct (negb (Qeq_bool def 0)); reflexivity.
  - rewrite E. reflexivity.
Qed.

Lemma chk_flt_i_idem (v : Q) (def : Z) :
  chk_flt_i (chk_flt_i v def) def = chk_flt_i v def.
Proof.
  unfold chk_flt_i. cbn [flt_of_int fnonzero ExactFloat].
  destruct (Qeq_bool v 0) eqn:E; cbn [negb].
  - destruct (negb (Qeq_bool (inject_Z def) 0)); reflexivity.
  - rewrite E. reflexivity.
Qed.

Lemma chk_int_idem (v def : Z) : chk_int (chk_int v def) def = chk_int v def.
Proof.
  unfold chk_int. destruct (Z.eqb_spec v 0) as [|H].
  - destruct (def =? 0); reflexivity.
  - apply Z.eqb_neq in H. rewrite H. reflexivity.
Qed.

(** X20.  What holds after a successful [fzsync_pair_init] (exact
    arithmetic): each of the five parameters is within the bounds of its
    [CHK], a second [fzsync_pair_init] succeeds and changes nothing, and
    the state of the pair (sampling, exit flag, thread handle, bias,
    statistics) is as it was. *)
Theorem init_postcondition :
  forall p q : fzsync_pair,
    fzsync_pair_init p = Some q ->
    (FLT_MIN <= avg_alpha q <= 1)%Q /\
    20 <= min_samples q <= INT_MAX /\
    (FLT_MIN <= max_dev_ratio q <= 1)%Q /\
    (1 <= exec_time q <= FLT_MAX)%Q /\
    20 <= exec_loops q <= INT_MAX /\
    fzsync_pair_init q = Some q /\
    sampling q = sampling p /\ exit q = exit p /\
    thread_b q = thread_b p /\ delay_bias q = delay_bias p /\
    stats q = stats p.
Proof.
  intros p q H. rewrite init_unfold in H.
  match type of H with (if ?b then _ else _) = _ => destruct b eqn:E end;
    [|discriminate].
  inversion H; subst q; clear H.
  repeat match goal with
         | H : _ && _ = true |- _ => apply andb_prop in H; destruct H
         end.
  repeat match goal with
         | H : Qle_bool _ _ = true |- _ => apply Qle_bool_iff in H
         | H : (_ >=? _) = true |- _ => apply Z.geb_le in H
         | H : (_ <=? _) = true |- _ => apply Z.leb_le in H
         end.
  assert (Hw : with_defaults (with_defaults p) = with_defaults p).
  { unfold with_defaults.
    cbn [avg_alpha min_samples max_dev_ratio exec_time exec_loops
         set_avg_alpha set_min_samples set_max_dev_ratio set_exec_time
         set_exec_loops].
    rewrite !chk_flt_d_idem, chk_flt_i_idem, !chk_int_idem.
    reflexivity. }
  assert (Hacc : accepted (with_defaults p)).
  { unfold accepted, with_defaults.
    cbn [avg_alpha min_samples max_dev_ratio exec_time exec_loops
         set_avg_alpha set_min_samples set_max_dev_ratio set_exec_time
         set_exec_loops].
    repeat split; right; split; assumption. }
  apply init_accepts_iff in Hacc. rewrite Hw in Hacc.
  unfold with_defaults in *.
  cbn [avg_alpha min_samples max_dev_ratio exec_time exec_loops
       set_avg_alpha set_min_samples set_max_dev_ratio set_exec_time
       set_exec_loops sampling exit thread_b delay_bias].
  repeat split; try assumption; try reflexivity.
Qed.

(** X20, at the default configuration. *)
Lemma init_postcondition_witness :
  fzsync_pair_init (with_defaults pair0) = Some (with_defaults pair0) /\
  min_samples (with_defaults pair0) = 1024.
Proof.
  destruct (@init_postcondition pair0 (with_defaults pair0))
    as (_ & _ & _ & _ & _ & H & _).
  - reflexivity.
  - split; [exact H | reflexivity].
Defined.

(** ** Messages and configuration *)

Section Messages.
Context {FO : FloatOps}.

(** X22.  The messages of one [fzsync_pair_update], for [sampling] within
    [int].  It reports the end of the minimum sampling period exactly when
    it takes the last mandatory sample ([sampling = 1]); it reports
    convergence exactly when no sample is left, no deviation ratio is over
    the maximum and the end skew is at least 1 ns; it reports that no
    delay can be calculated exactly when no sample is left, no ratio is
    over the maximum and the end skew is below 1 ns; and it prints nothing
    exactly when more than one sample is left, when sampling has ended
    before, or when no sample is left and a ratio is over the maximum. *)
Theorem update_messages :
  forall (p : fzsync_pair) (draw : dbl),
    in_int (sampling p) ->
    let log := snd (fzsync_pair_update p draw) in
    (In MsgSamplingEnded log <-> sampling p = 1) /\
    (In MsgConverged log <->
     sampling p = 0 /\ over_max_dev p = false /\
     fge (fabsf (avg (diff_ab p))) (flt_of_int 1) = true) /\
    (In MsgNoDelay log <->
     sampling p = 0 /\ over_max_dev p = false /\
     fge (fabsf (avg (diff_ab p))) (flt_of_int 1) = false) /\
    (log = [] <->
     1 < sampling p \/ sampling p < 0 \/
     (sampling p = 0 /\ over_max_dev p = true)).
Proof.
  intros p draw Hs log. subst log.
  assert (Hw : wrap32 (sampling p - 1) = 0 <-> sampling p = 1).
  { unfold in_int in Hs. split.
    - intros H. destruct (Z.eq_dec (sampling p) INT_MIN) as [E|E].
      + rewrite E in H. vm_compute in H. discriminate.
      + rewrite wrap32_small in H; unfold INT_MIN, INT_MAX in *; lia.
    - intros H; rewrite H; reflexivity. }
  pose proof (Z.gtb_spec (sampling p) 0) as Hgt.
  pose proof (Z.eqb_spec (sampling p) 0) as Heq.
  pose proof (Z.eqb_spec (wrap32 (sampling p - 1)) 0) as Heqw.
  unfold fzsync_pair_update.
  change (over_max_dev (set_delay (delay_bias p) p)) with (over_max_dev p).
  destruct (over_max_dev p) eqn:Eo; cbn;
    destruct (fge (fabsf (avg (diff_ab p))) (flt_of_int 1)) eqn:Eg;
    destruct Hgt; cbn; destruct Heqw; try destruct Heq; cbn;
    rewrite ?Hw in *;
    repeat split; intros; try lia; try discriminate;
    intuition (try discriminate; try lia).
Qed.

Lemma body_op_config (o : body_op) (p : fzsync_pair) :
  config (fst (exec_body_op o p)) = config p.
Proof.
  unfold config. destruct o; cbn.
  1: { unfold fzsync_pair_update. cbn. break_ifs; cbn; reflexivity. }
  1: { unfold fzsync_start_race_a, fzsync_pair_update. cbn.
       break_ifs; cbn; reflexivity. }
  all: unfold fzsync_end_race_a, fzsync_end_race_b,
         fzsync_start_race_b, fzsync_wait_a, fzsync_wait_b, fzsync_run_b,
         pair_wait_done, fzsync_pair_add_bias, fzsync_pair_cleanup;
       break_ifs; cbn; reflexivity.
Qed.

Lemma run_a_config (p p' : fzsync_pair) os rv r log :
  fzsync_run_a p os rv = Some (p', r, log) -> config p' = config p.
Proof.
  intros H. apply run_a_frame in H as Hf. destruct Hf as (_ & Hm & _).
  unfold fzsync_run_a in H.
  destruct (fzsync_timeout_remaining p (clock_now os)) as [x|];
    [|discriminate].
  revert H. set (c1 := fgt _ _ && _).
  destruct c1; destruct (negb (fnonzero (flt_of_int x))); cbn;
    break_ifs; intros H; inversion H; subst; clear H;
    unfold config, fzsync_pair_cleanup; cbn; break_ifs; cbn; reflexivity.
Qed.

(** X23.  No call changes the configuration: after any sequence of
    calls between two resets (updates, race marks, waits, bias changes,
    [fzsync_run_a], [fzsync_run_b], cleanup) the five parameters of
    [fzsync_pair_init] and the start of the time budget are what they
    were. *)
Theorem run_keeps_configuration :
  forall (os : list op) (p p' : fzsync_pair) (log : list msg),
    exec_ops os p = Some (p', log) -> config p' = config p.
Proof.
  induction os as [|o os IH]; intros p p' log H.
  - cbn in H. inversion H; subst. reflexivity.
  - cbn [exec_ops] in H.
    destruct (exec_op o p) as [[p1 l1]|] eqn:E1; [|discriminate].
    destruct (exec_ops os p1) as [[p2 l2]|] eqn:E2; [|discriminate].
    inversion H; subst; clear H.
    rewrite (IH _ _ _ E2).
    destruct o as [o|e rv]; cbn in E1.
    + inversion E1 as [E].
      replace p1 with (fst (exec_body_op o p)) by (now rewrite E).
      apply body_op_config.
    + destruct (fzsync_run_a p e rv) as [[[q r] l]|] eqn:E; [|discriminate].
      inversion E1; subst. eapply run_a_config; eauto.
Qed.

End Messages.

(** X22, with one mandatory sample left. *)
Lemma update_messages_witness :
  In MsgSamplingEnded (snd (fzsync_pair_update (set_sampling 1 pair0) 0%Q)).
Proof.
  destruct (@update_messages ExactFloat (set_sampling 1 pair0) 0%Q)
    as (H & _).
  - unfold in_int, INT_MIN, INT_MAX. cbn. lia.
  - apply H. reflexivity.
Defined.

(** X23, for a bias change while sampling. *)
Lemma run_keeps_configuration_witness :
  config (fzsync_pair_add_bias (set_sampling 5 late_start_pair) 3)
  = config late_start_pair.
Proof.
  apply (@run_keeps_configuration ExactFloat [OpBody (OpAddBias 3)]
           (set_sampling 5 late_start_pair)
           (fzsync_pair_add_bias (set_sampling 5 late_start_pair) 3)
           ([] ++ [])).
  reflexivity.
Defined.
